(** * QuantPy: the portfolio aggregate of [qpy/portfolio.py]

    A shallow embedding of the classes [Stock] and [Portfolio] and of the
    library calls they make, followed by the properties of the
    specification that concern them.

    Conventions of the embedding.
    - A double is an [npfloat]: either a finite value, read as an exact
      rational ([Qc], canonical rationals, so that equality is Leibniz
      equality), or [NaN], a value that is not finite.  The arithmetic of
      [npfloat] is exact: it neither rounds nor overflows, and it does not
      tell the infinities from [nan].  A result that is stated as a
      formula of its operations is the formula that the program evaluates
      on doubles; what holds by the laws of exact arithmetic only is not
      stated of the program, and where the specification claims such a
      thing the claim is checked on doubles themselves, in [binary64].
    - A pandas [DataFrame] is its index, the name of the index and its
      labelled columns; a pandas [Series] is the list of its values.
    - Python exceptions are values of [exn]; a computation that may raise
      returns a [result]; a method of [Portfolio], which mutates [self],
      is a function from the object before the call to the object after
      it and the outcome, so that what a raising call leaves behind can
      be read off. *)

From Stdlib Require Import QArith Qcanon ZArith PrimFloat.
From stdpp Require Import base numbers option list strings pretty gmap.

Local Open Scope Qc_scope.

(** ** Exceptions and results *)

Inductive exn : Type :=
  | ValueError (msg : string)
  | KeyError (key : string)
  | AttributeError (attr : string)
  | IndexError
  | TypeError
  | InputShapeError
  | InvalidParameterError
  | UndefinedSharpe.

Inductive result (A : Type) : Type :=
  | Ok (a : A)
  | Raise (e : exn).
Arguments Ok {A} a.
Arguments Raise {A} e.

Global Instance result_ret : MRet result := fun A a => Ok a.

Global Instance result_bind : MBind result := fun A B k r =>
  match r with
  | Ok a => k a
  | Raise e => Raise e
  end.

Definition raises {A} (r : result A) : Prop :=
  match r with
  | Ok _ => False
  | Raise _ => True
  end.

(** ** Floating-point values *)

Inductive npfloat : Type :=
  | NaN
  | Fin (q : Qc).

Global Instance npfloat_eq_dec : EqDecision npfloat.
Proof. solve_decision. Defined.

Definition fadd (x y : npfloat) : npfloat :=
  match x, y with
  | Fin a, Fin b => Fin (a + b)
  | _, _ => NaN
  end.

Definition fsub (x y : npfloat) : npfloat :=
  match x, y with
  | Fin a, Fin b => Fin (a - b)
  | _, _ => NaN
  end.

Definition fmul (x y : npfloat) : npfloat :=
  match x, y with
  | Fin a, Fin b => Fin (a * b)
  | _, _ => NaN
  end.

(** numpy division does not raise: a zero divisor gives a value that is
    not finite (an infinity, or [nan] for zero by zero). *)
Definition fdiv (x y : npfloat) : npfloat :=
  match x, y with
  | Fin a, Fin b => if decide (b = 0) then NaN else Fin (a / b)
  | _, _ => NaN
  end.

(** [np.sum] of an array. *)
Definition np_sum (xs : list npfloat) : npfloat := foldr fadd (Fin 0) xs.

Definition of_Z (n : Z) : npfloat := Fin (Qc_of_Z n).
Definition of_nat (n : nat) : Qc := Qc_of_Z (Z.of_nat n).

(** The square root of a non-negative finite double is taken from the
    numerical library; nothing is assumed of it. *)
Class NumPy := { sqrt_fin : Qc → Qc }.

Section numpy.
Context `{NumPy}.

(** [np.sqrt]: the root of a negative number is [nan]. *)
Definition np_sqrt (x : npfloat) : npfloat :=
  match x with
  | Fin q => if decide (q < 0) then NaN else Fin (sqrt_fin q)
  | NaN => NaN
  end.
End numpy.

(** A root that computes: [sqrt (n/d)] rounded down to a multiple of
    [1 / (d * 2^26)]. *)
Definition sqrt_down (q : Qc) : Qc :=
  let n := Qnum (this q) in
  let d := Zpos (Qden (this q)) in
  Q2Qc (Qmake (Z.sqrt (n * d * 2 ^ 52)) (Qden (this q) * 2 ^ 26)).

Definition rounded_numpy : NumPy := {| sqrt_fin := sqrt_down |}.

(** ** pandas *)

Module pd.

Abbreviation Series := (list npfloat).

Record DataFrame : Type := mkDataFrame {
  index : list Z;
  index_name : option string;
  data : list (string * list npfloat)
}.

(** [pd.DataFrame()] *)
Definition empty : DataFrame :=
  {| index := []; index_name := None; data := [] |}.

(** [df.columns] *)
Definition columns (df : DataFrame) : list string := (data df).*1.

(** Every column has one value per index entry. *)
Definition aligned (df : DataFrame) : Prop :=
  Forall (fun c => length c.2 = length (index df)) (data df).

Global Instance aligned_dec df : Decision (aligned df).
Proof. unfold aligned. apply _. Defined.

(** [range(n)], the index pandas gives a frame that had none. *)
Definition RangeIndex (n : nat) : list Z := Z.of_nat <$> seq 0 n.

(** A numpy array of doubles: with one axis, or with two, and then
    given column by column.  The arrays with two axes that arise here
    have two columns at least, see [getitem_values]. *)
Inductive ndarray : Type :=
  | Array1D (values : list npfloat)
  | Array2D (column1 column2 : list npfloat) (more : list (list npfloat)).

(** [len(value)], the length of the first axis. *)
Definition len (value : ndarray) : nat :=
  match value with
  | Array1D values => length values
  | Array2D column1 _ _ => length column1
  end.

(** [value.shape] of an array with two axes, as Python writes it. *)
Definition shape (value : ndarray) : string :=
  match value with
  | Array1D values => "(" +:+ pretty (length values) +:+ ",)"
  | Array2D column1 _ more =>
      "(" +:+ pretty (length column1) +:+ ", " +:+ pretty (2 + length more)%nat +:+ ")"
  end.

(** [df[label].values]: the values of the column that bears the label,
    an array with one axis; when the frame has the label more than once,
    [df[label]] is the frame of all the columns that bear it, and its
    values are an array with two axes. *)
Definition getitem_values (df : DataFrame) (label : string) : result ndarray :=
  match filter (fun c => c.1 = label) (data df) with
  | [] => Raise (KeyError label)
  | [c] => Ok (Array1D c.2)
  | c1 :: c2 :: more => Ok (Array2D c1.2 c2.2 more.*2)
  end.

(** The message of pandas for an array of the wrong length. *)
Definition length_mismatch (n_values n_index : nat) : string :=
  "Length of values (" +:+ pretty n_values
    +:+ ") does not match length of index (" +:+ pretty n_index +:+ ")".

(** [df.insert(loc, column, value)] with [value] an array; the steps are
    those of pandas 1.5, in its order, and so are the messages.  A label
    that is already there is refused.  A frame without rows takes its
    index from a [value] that has rows (the name of the index stays, the
    columns the frame has are filled with [nan]), which an array with
    two axes cannot give.  The length of [value] is checked against the
    index.  An array with two axes and more than one column is refused.
    The column is put at [loc].  The index that the frame has taken is
    not given back when a later step raises. *)
Definition insert (df : DataFrame) (loc : nat) (column : string)
    (value : ndarray) : DataFrame * result unit :=
  if decide (column ∈ columns df) then
    (df, Raise (ValueError ("cannot insert " +:+ column +:+ ", already exists")))
  else
    let no_index := bool_decide (length (index df) = 0%nat ∧ (0 < len value)%nat) in
    match value with
    | Array2D _ _ _ =>
        if no_index then
          (df, Raise (ValueError "Cannot set a frame with no defined index and a value that cannot be converted to a Series"))
        else if decide (len value = length (index df)) then
          (df, Raise (ValueError ("Expected a 1D array, got an array with shape "
                                  +:+ shape value)))
        else (df, Raise (ValueError (length_mismatch (len value) (length (index df)))))
    | Array1D values =>
        let df1 :=
          if no_index then
            {| index := RangeIndex (length values);
               index_name := index_name df;
               data := (fun c => (c.1, replicate (length values) NaN)) <$> data df |}
          else df in
        if decide (length values = length (index df1)) then
          if decide (loc ≤ length (data df1))%nat then
            ({| index := index df1;
                index_name := index_name df1;
                data := take loc (data df1) ++ (column, values) :: drop loc (data df1) |},
             Ok ())
          else (df1, Raise IndexError)
        else
          (df1, Raise (ValueError (length_mismatch (length values) (length (index df1)))))
    end.

(** [df.set_index(keys, inplace=True)] with [keys] an array: the array
    becomes the index, unnamed; its length must be the number of rows. *)
Definition set_index (df : DataFrame) (keys : list Z) : DataFrame * result unit :=
  if decide (length keys = length (index df)) then
    ({| index := keys; index_name := None; data := data df |}, Ok ())
  else
    (df, Raise (ValueError ("Length mismatch: Expected " +:+ pretty (length (index df))
                            +:+ " rows, received array of length "
                            +:+ pretty (length keys)))).

(** [df.index.rename(name, inplace=True)] *)
Definition index_rename (df : DataFrame) (name : string) : DataFrame :=
  {| index := index df; index_name := Some name; data := data df |}.

(** Reductions skip missing values, which are [nan]; the infinities,
    which pandas does not skip, are not told from [nan] here. *)
Definition dropna (xs : list npfloat) : list Qc :=
  omap (fun x => match x with Fin q => Some q | NaN => None end) xs.

Definition total (xs : list Qc) : Qc := foldr Qcplus 0 xs.

(** The arithmetic mean of finite values; [nan] for none. *)
Definition mean_fin (xs : list Qc) : npfloat :=
  match xs with
  | [] => NaN
  | _ => Fin (total xs / of_nat (length xs))
  end.

(** [Series.mean()] *)
Definition mean (xs : list npfloat) : npfloat := mean_fin (dropna xs).

(** The sum of the [k]-th powers of the deviations from the mean. *)
Definition moment (k : nat) (xs : list Qc) : Qc :=
  let m := total xs / of_nat (length xs) in
  total ((fun x => (x - m) ^ k) <$> xs).

(** [Series.var()], with pandas' default [ddof=1]. *)
Definition var (xs : list npfloat) : npfloat :=
  let ys := dropna xs in
  if decide (length ys ≤ 1)%nat then NaN
  else Fin (moment 2 ys / of_nat (length ys - 1)).

(** Pairwise covariance over the rows where both values are present,
    [ddof=1]. *)
Definition complete_pairs (xs ys : list npfloat) : list (Qc * Qc) :=
  omap (fun p => match p with
                 | (Fin a, Fin b) => Some (a, b)
                 | _ => None
                 end) (zip xs ys).

Definition cov_pair (xs ys : list npfloat) : npfloat :=
  let ps := complete_pairs xs ys in
  let n := length ps in
  if decide (n ≤ 1)%nat then NaN
  else
    let mx := total ps.*1 / of_nat n in
    let my := total ps.*2 / of_nat n in
    Fin (total ((fun p => (p.1 - mx) * (p.2 - my)) <$> ps) / of_nat (n - 1)).

(** [Series.kurt()]: the bias-corrected excess kurtosis; [nan] below
    four observations, [0] when the denominator vanishes. *)
Definition kurt (xs : list npfloat) : npfloat :=
  let ys := dropna xs in
  let n := of_nat (length ys) in
  let m2 := moment 2 ys in
  let m4 := moment 4 ys in
  let adj := Qc_of_Z 3 * (n - 1) ^ 2 / ((n - 2) * (n - Qc_of_Z 3)) in
  let numer := n * (n + 1) * (n - 1) * m4 in
  let denom := (n - 2) * (n - Qc_of_Z 3) * m2 ^ 2 in
  if decide (length ys < 4)%nat then NaN
  else if decide (denom = 0) then Fin 0
  else Fin (numer / denom - adj).

Section with_numpy.
Context `{NumPy}.

(** [Series.std()] *)
Definition std (xs : list npfloat) : npfloat := np_sqrt (var xs).

(** [Series.skew()]: the bias-corrected skewness; [nan] below three
    observations, [0] for a constant series. *)
Definition skew (xs : list npfloat) : npfloat :=
  let ys := dropna xs in
  let n := of_nat (length ys) in
  let m2 := moment 2 ys in
  let m3 := moment 3 ys in
  if decide (length ys < 3)%nat then NaN
  else if decide (m2 = 0) then Fin 0
  else
    fmul (fdiv (fmul (Fin n) (np_sqrt (Fin (n - 1)))) (Fin (n - 2)))
         (fdiv (Fin m3) (fmul (Fin m2) (np_sqrt (Fin m2)))).
End with_numpy.

(** [df.cov()], one row per column. *)
Definition cov (df : DataFrame) : list (list npfloat) :=
  (fun c1 => (fun c2 => cov_pair c1.2 c2.2) <$> data df) <$> data df.

End pd.

(** ** The return and statistics helpers

    [qpy/pf_returns.py] and [qpy/pf_quants.py] are imported by
    [portfolio.py] but are not among the sources; their functions are
    written after the specification (sections 4.1, 4.2 and 7). *)

Module pf_returns.
Import pd.

(** Modelled from the spec: the percentage change of [dailyReturns],
    "(price[t] - price[t-1]) / price[t-1] for t>0", the undefined first
    row being dropped. *)
Definition pct_change (prices : list npfloat) : list npfloat :=
  zip_with (fun prev cur => fdiv (fsub cur prev) prev) prices (tail prices).

(** Modelled from the spec: [dailyReturns] of [qpy/pf_returns.py],
    column by column; "Empty series is an error", an [InputShapeError]. *)
Definition dailyReturns (df : DataFrame) : result DataFrame :=
  if decide (length (index df) = 0%nat) then Raise InputShapeError
  else Ok {| index := tail (index df);
             index_name := index_name df;
             data := (fun c => (c.1, pct_change c.2)) <$> data df |}.

(** Modelled from the spec: [historicalMeanReturn] of
    [qpy/pf_returns.py], "mean of dailyReturns(prices) multiplied by
    freq"; "freq must be a positive integer", otherwise an
    [InvalidParameterError]. *)
Definition historicalMeanReturn (df : DataFrame) (freq : Z) : result Series :=
  if decide (freq ≤ 0)%Z then Raise InvalidParameterError
  else
    returns ← dailyReturns df;
    Ok ((fun c => fmul (mean c.2) (of_Z freq)) <$> data returns).
End pf_returns.

Module pf_quants.

(** Modelled from the spec: the "dot product" of [weightedMean] and
    [weightedStd]. *)
Definition dot (xs ys : list npfloat) : npfloat := np_sum (zip_with fmul xs ys).

(** Modelled from the spec: [weightedMean] of [qpy/pf_quants.py], "dot
    product of a per-asset mean-return vector and a per-asset weight
    vector. Lengths must match; mismatch is a fatal input error". *)
Definition weightedMean (means weights : list npfloat) : result npfloat :=
  if decide (length means = length weights) then Ok (dot means weights)
  else Raise InputShapeError.

Section with_numpy.
Context `{NumPy}.

(** Modelled from the spec: [weightedStd] of [qpy/pf_quants.py],
    "sqrt(weights^T . covarianceMatrix . weights)", the matrix being
    "square with dimension equal to weights' length". *)
Definition weightedStd (cov : list (list npfloat)) (weights : list npfloat)
    : result npfloat :=
  if decide (length cov = length weights
             ∧ Forall (fun row => length row = length weights) cov) then
    Ok (np_sqrt (dot weights ((fun row => dot row weights) <$> cov)))
  else Raise InputShapeError.
End with_numpy.

(** Modelled from the spec: [sharpeRatio] of [qpy/pf_quants.py],
    "(expectedReturn - riskFreeRate) / volatility", where "volatility ==
    0 ... an explicit UndefinedSharpe condition reported to the caller,
    not silently producing infinity". *)
Definition sharpeRatio (expectedReturn volatility riskFreeRate : npfloat)
    : result npfloat :=
  if decide (volatility = Fin 0) then Raise UndefinedSharpe
  else Ok (fdiv (fsub expectedReturn riskFreeRate) volatility).
End pf_quants.

(** ** Investment information

    The row of investment information of one stock: the labels [Name] and
    [FMV] are required, further labels (Year, Strategy, CCY, ...) are
    carried along.  [FMV] is a float, the column of a [DataFrame] with
    the dtype float64, whose sum is a float; the sum of a column of
    integers is a numpy integer, which the setter of [totalinvestment]
    refuses, see [pyval]. *)

Record InvestmentInfo : Type := mkInvestmentInfo {
  Name : string;
  FMV : Qc;
  extras : list (string * string)
}.

(** ** class Stock *)

Module Stock.
Import pd pf_returns.

Record t : Type := mk {
  name : string;
  investmentinfo : InvestmentInfo;
  stock_data : DataFrame;
  expectedReturn : Series;
  volatility : Series;
  skew : npfloat;
  kurtosis : npfloat
}.

Definition getInvestmentInfo (self : t) : InvestmentInfo := investmentinfo self.

Definition compDailyReturns (self : t) : result DataFrame :=
  dailyReturns (stock_data self).

Definition compExpectedReturn (self : t) (freq : Z) : result Series :=
  historicalMeanReturn (stock_data self) freq.

Section with_numpy.
Context `{NumPy}.

Definition compVolatility (self : t) (freq : Z) : result Series :=
  returns ← compDailyReturns self;
  Ok ((fun c => fmul (pd.std c.2) (np_sqrt (of_Z freq))) <$> data returns).

(** [self.stock_data.skew().values[0]] *)
Definition __compSkew (self : t) : result npfloat :=
  match (fun c => pd.skew c.2) <$> data (stock_data self) with
  | x :: _ => Ok x
  | [] => Raise IndexError
  end.

(** [self.stock_data.kurt().values[0]] *)
Definition __compKurtosis (self : t) : result npfloat :=
  match (fun c => pd.kurt c.2) <$> data (stock_data self) with
  | x :: _ => Ok x
  | [] => Raise IndexError
  end.

(** The constructor assigns the attributes one after the other; the
    methods it calls read [stock_data] only, so the attributes not
    assigned yet are given as empty. *)
Definition __init__ (investmentinfo : InvestmentInfo) (stock_data : DataFrame)
    : result t :=
  let self := mk (Name investmentinfo) investmentinfo stock_data [] [] NaN NaN in
  expectedReturn ← compExpectedReturn self 252;
  let self := mk (name self) investmentinfo stock_data expectedReturn [] NaN NaN in
  volatility ← compVolatility self 252;
  let self := mk (name self) investmentinfo stock_data expectedReturn volatility NaN NaN in
  skew ← __compSkew self;
  let self := mk (name self) investmentinfo stock_data expectedReturn volatility skew NaN in
  kurtosis ← __compKurtosis self;
  Ok (mk (name self) investmentinfo stock_data expectedReturn volatility skew kurtosis).
End with_numpy.
End Stock.

(** ** class Portfolio *)

(** What Python passes to the setter of [totalinvestment], as far as the
    setter tells objects apart: [None]; a number that is an instance of
    [float] or of [int] and finite, read as a rational (a
    [numpy.float64] is a [float]); or an object that is an instance of
    neither, such as a string or a numpy integer.  A float that is not
    finite has no place here: the setter stores [nan] and [inf], for
    which [val <= 0] is false, and refuses [-inf]. *)
Inductive pyval : Type :=
  | PyNone
  | PyNumber (x : Qc)
  | PyObject.

Module Portfolio.
Import pd pf_returns pf_quants.

(** The frame [self.portfolio]: one row per call of [append], and the
    attribute [name] set on it. *)
Record InfoFrame : Type := mkInfoFrame {
  rows : list InvestmentInfo;
  frame_name : option string
}.

(** [None] in the fields of the statistics is Python's [None]; [None] in
    [__totalinvestment] says that the attribute (which Python stores as
    [_Portfolio__totalinvestment]) does not exist. *)
Record t : Type := mk {
  portfolio : InfoFrame;
  stocks : gmap string Stock.t;
  pf_stock_data : DataFrame;
  expectedReturn : option npfloat;
  volatility : option npfloat;
  sharpe : option npfloat;
  skew : option Series;
  kurtosis : option Series;
  __totalinvestment : option Qc
}.

Definition set_portfolio (v : InfoFrame) (self : t) : t :=
  mk v (stocks self) (pf_stock_data self) (expectedReturn self)
     (volatility self) (sharpe self) (skew self) (kurtosis self)
     (__totalinvestment self).
Definition set_stocks (v : gmap string Stock.t) (self : t) : t :=
  mk (portfolio self) v (pf_stock_data self) (expectedReturn self)
     (volatility self) (sharpe self) (skew self) (kurtosis self)
     (__totalinvestment self).
Definition set_pf_stock_data (v : DataFrame) (self : t) : t :=
  mk (portfolio self) (stocks self) v (expectedReturn self)
     (volatility self) (sharpe self) (skew self) (kurtosis self)
     (__totalinvestment self).
Definition set_expectedReturn (v : option npfloat) (self : t) : t :=
  mk (portfolio self) (stocks self) (pf_stock_data self) v
     (volatility self) (sharpe self) (skew self) (kurtosis self)
     (__totalinvestment self).
Definition set_volatility (v : option npfloat) (self : t) : t :=
  mk (portfolio self) (stocks self) (pf_stock_data self) (expectedReturn self)
     v (sharpe self) (skew self) (kurtosis self) (__totalinvestment self).
Definition set_sharpe (v : option npfloat) (self : t) : t :=
  mk (portfolio self) (stocks self) (pf_stock_data self) (expectedReturn self)
     (volatility self) v (skew self) (kurtosis self) (__totalinvestment self).
Definition set_skew (v : option Series) (self : t) : t :=
  mk (portfolio self) (stocks self) (pf_stock_data self) (expectedReturn self)
     (volatility self) (sharpe self) v (kurtosis self) (__totalinvestment self).
Definition set_kurtosis (v : option Series) (self : t) : t :=
  mk (portfolio self) (stocks self) (pf_stock_data self) (expectedReturn self)
     (volatility self) (sharpe self) (skew self) v (__totalinvestment self).
Definition set___totalinvestment (v : option Qc) (self : t) : t :=
  mk (portfolio self) (stocks self) (pf_stock_data self) (expectedReturn self)
     (volatility self) (sharpe self) (skew self) (kurtosis self) v.

(** A method: the object before the call to the object after it and
    what the call returned or raised. *)
Definition M (A : Type) : Type := t → t * result A.

Global Instance M_ret : MRet M := fun A a self => (self, Ok a).

Global Instance M_bind : MBind M := fun A B k m self =>
  match m self with
  | (self', Ok a) => k a self'
  | (self', Raise e) => (self', Raise e)
  end.

Definition get : M t := fun self => (self, Ok self).
Definition modify (f : t → t) : M unit := fun self => (f self, Ok ()).
Definition raise {A} (e : exn) : M A := fun self => (self, Raise e).
Definition lift {A} (r : result A) : M A := fun self => (self, r).

(** An in-place operation of pandas on [self.pf_stock_data]. *)
Definition on_pf_stock_data (op : DataFrame → DataFrame * result unit) : M unit :=
  fun self =>
    let '(df, r) := op (pf_stock_data self) in (set_pf_stock_data df self, r).

(** The getter of the property [totalinvestment]. *)
Definition totalinvestment : M Qc :=
  self ← get;
  match __totalinvestment self with
  | Some val => mret val
  | None => raise (AttributeError "_Portfolio__totalinvestment")
  end.

(** The setter of the property [totalinvestment]. *)
Definition totalinvestment_setter (val : pyval) : M unit :=
  match val with
  | PyNone => mret ()
  | PyObject => raise (ValueError "Total investment must be a float or integer.")
  | PyNumber x =>
      if decide (x ≤ 0) then
        raise (ValueError "The money to be invested in the portfolio must be > 0.")
      else modify (set___totalinvestment (Some x))
  end.

(** The constructor: the assignments of [__init__], the last of which
    goes through the setter. *)
Definition __init__ : t :=
  let self := mk (mkInfoFrame [] None) ∅ pd.empty None None None None None None in
  (totalinvestment_setter PyNone self).1.

(** [self.portfolio['FMV']]; a frame without rows has no columns. *)
Definition portfolio_FMV : M (list Qc) :=
  self ← get;
  match rows (portfolio self) with
  | [] => raise (KeyError "FMV")
  | rs => mret (FMV <$> rs)
  end.

(** The loop of [_addStockData] over [df.columns], from the label
    [datacol] on. *)
Fixpoint _addStockData_loop (df : DataFrame) (columns_of_df : list string) : M unit :=
  match columns_of_df with
  | [] => mret ()
  | datacol :: rest =>
      self ← get;
      let cols := length (columns (pf_stock_data self)) in
      value ← lift (getitem_values df datacol);
      on_pf_stock_data (fun d => pd.insert d cols datacol value);;
      _addStockData_loop df rest
  end.

Definition _addStockData (df : DataFrame) : M unit :=
  _addStockData_loop df (columns df);;
  on_pf_stock_data (fun d => pd.set_index d (index df));;
  modify (fun self =>
    set_pf_stock_data (pd.index_rename (pf_stock_data self) "Date") self).

Definition getStocks : M (gmap string Stock.t) :=
  self ← get; mret (stocks self).

Definition getStock (name : string) : M Stock.t :=
  stocks ← getStocks;
  match stocks !! name with
  | Some stock => mret stock
  | None => raise (KeyError name)
  end.

Definition compPfDailyReturns : M DataFrame :=
  self ← get; lift (dailyReturns (pf_stock_data self)).

Definition compPfMeanReturns (freq : Z) : M Series :=
  self ← get; lift (historicalMeanReturn (pf_stock_data self) freq).

Definition compPfWeights : M Series :=
  fmv ← portfolio_FMV;
  totalinvestment ← totalinvestment;
  mret ((fun x => fdiv (Fin x) (Fin totalinvestment)) <$> fmv).

Definition compPfExpectedReturn (freq : Z) : M npfloat :=
  self ← get;
  pf_return_means ← lift (historicalMeanReturn (pf_stock_data self) freq);
  weights ← compPfWeights;
  expectedReturn ← lift (weightedMean pf_return_means weights);
  modify (set_expectedReturn (Some expectedReturn));;
  mret expectedReturn.

Definition compCovPf : M (list (list npfloat)) :=
  self ← get;
  returns ← lift (dailyReturns (pf_stock_data self));
  mret (pd.cov returns).

Definition compPfSharpe (riskFreeRate : npfloat) : M npfloat :=
  self ← get;
  match expectedReturn self, volatility self with
  | Some er, Some vol =>
      sharpe ← lift (sharpeRatio er vol riskFreeRate);
      modify (set_sharpe (Some sharpe));;
      mret sharpe
  | _, _ => raise TypeError
  end.

Definition default_riskFreeRate : npfloat := Fin (Q2Qc (5 # 1000)).

Section with_numpy.
Context `{NumPy}.

Definition compPfVolatility (freq : Z) : M npfloat :=
  cov ← compCovPf;
  weights ← compPfWeights;
  std ← lift (weightedStd cov weights);
  let volatility := fmul std (np_sqrt (of_Z freq)) in
  modify (set_volatility (Some volatility));;
  mret volatility.

Definition __compPfSkew : M Series :=
  self ← get; mret ((fun c => pd.skew c.2) <$> data (pf_stock_data self)).

Definition __compPfKurtosis : M Series :=
  self ← get; mret ((fun c => pd.kurt c.2) <$> data (pf_stock_data self)).

Definition addStock (stock : Stock.t) : M unit :=
  modify (fun self => set_stocks (<[Stock.name stock := stock]> (stocks self)) self);;
  modify (fun self =>
    set_portfolio
      (mkInfoFrame (rows (portfolio self) ++ [Stock.getInvestmentInfo stock]) None)
      self);;
  modify (fun self =>
    set_portfolio
      (mkInfoFrame (rows (portfolio self)) (Some "Portfolio information")) self);;
  _addStockData (Stock.stock_data stock);;
  fmv ← portfolio_FMV;
  totalinvestment_setter (PyNumber (pd.total fmv));;
  expectedReturn ← compPfExpectedReturn 252;
  modify (set_expectedReturn (Some expectedReturn));;
  volatility ← compPfVolatility 252;
  modify (set_volatility (Some volatility));;
  sharpe ← compPfSharpe default_riskFreeRate;
  modify (set_sharpe (Some sharpe));;
  skew ← __compPfSkew;
  modify (set_skew (Some skew));;
  kurtosis ← __compPfKurtosis;
  modify (set_kurtosis (Some kurtosis)).

Section optimise.
(** [optimisePfMC] of [qpy/optimisation.py] is not among the
    sources; it is a parameter here, of an arbitrary result. *)
Context {OptimisationResult : Type}.
Variable optimisePfMC :
  DataFrame → Z → Qc → npfloat → Z → Series → bool → result OptimisationResult.

Definition optimisePortfolio (total_investment : option Qc) (num_trials : Z)
    (riskFreeRate : npfloat) (freq : Z) (plot : bool) : M OptimisationResult :=
  total_investment ←
    match total_investment with
    | None => totalinvestment
    | Some v => mret v
    end;
  self ← get;
  initial_weights ← compPfWeights;
  lift (optimisePfMC (pf_stock_data self) num_trials total_investment
          riskFreeRate freq initial_weights plot).
End optimise.
End with_numpy.
End Portfolio.

(** ** The functions that build a portfolio

    The functions of [portfolio.py] below the two classes.  Three things
    come from outside and are parameters: the regular expressions of
    Python ([re], used by [DataFrame.filter]), the request to the data
    provider ([quandl.get]) and, as before, the square root. *)

(** [re.compile(pattern)] raises for a pattern that is no regular
    expression; otherwise [matcher.search(label)] finds a match or not. *)
Class Regex := { re_compile : string → result (string → bool) }.

(** A date as [quandl.get] takes it: [None] or a string. *)
Inductive pydate : Type :=
  | DateNone
  | DateStr (date : string).

(** [quandl.get(reqnames, start_date=..., end_date=...)] *)
Class Quandl := { quandl_get : list string → pydate → pydate → result pd.DataFrame }.

(** An argument that is either one string or a list of strings. *)
Inductive str_or_list : Type :=
  | OneName (name : string)
  | Names (names : list string).

(** [sub in s] for strings: [sub] occurs in [s]. *)
Fixpoint contains (sub s : string) : bool :=
  String.prefix sub s
  || match s with
     | String _ rest => contains sub rest
     | EmptyString => false
     end.

(** [s.replace(old, new)] for a non-empty [old]: the occurrences of [old]
    are replaced from left to right, each replacement being followed by a
    skip over the rest of the occurrence. *)
Fixpoint replace_from (skip : nat) (old new s : string) : string :=
  match s with
  | EmptyString => EmptyString
  | String c rest =>
      match skip with
      | S k => replace_from k old new rest
      | O =>
          if String.prefix old s then
            new +:+ replace_from (String.length old - 1) old new rest
          else String c (replace_from 0 old new rest)
      end
  end.

Definition str_replace (s old new : string) : string := replace_from 0 old new s.

Definition _correctQuandlRequestStockName (names : str_or_list) : list string :=
  let names :=
    match names with
    | OneName name => [name]
    | Names names => names
    end in
  (fun name => if String.prefix "WIKI/" name then name else "WIKI/" +:+ name) <$> names.

Definition _getQuandlDataColumnLabel (stock_name data_label : string) : string :=
  stock_name +:+ " - " +:+ data_label.

(** [any(name in label for name in names for label in df.columns)] *)
Definition _stocknamesInDataColumns (names : list string) (df : pd.DataFrame) : bool :=
  existsb (fun name => existsb (fun label => contains name label) (pd.columns df)) names.

Definition _allListEleInOther (l1 l2 : list string) : bool :=
  forallb (fun ele => bool_decide (ele ∈ l2)) l1.

Definition _anyListEleInOther (l1 l2 : list string) : bool :=
  existsb (fun ele => bool_decide (ele ∈ l2)) l1.

(** [list(set(B) - set(A))]: the order of the list is that of a set, which
    Python leaves open; here it is the order of [elements]. *)
Definition _listComplement (A B : list string) : list string :=
  elements ((list_to_set B : gset string) ∖ list_to_set A).

(** [df.loc[:, labels]]: for every label, in the order of [labels], the
    columns of [df] that bear it. *)
Definition loc_columns (df : pd.DataFrame) (labels : list string) : pd.DataFrame :=
  {| pd.index := pd.index df;
     pd.index_name := pd.index_name df;
     pd.data := labels ≫= (fun label =>
                  filter (fun c => c.1 = label) (pd.data df)) |}.

(** [df.rename(columns=mapper, inplace=True)] with a dictionary: a label
    that is a key gets the value, every other label stays. *)
Definition rename_columns (df : pd.DataFrame) (mapper : gmap string string) : pd.DataFrame :=
  {| pd.index := pd.index df;
     pd.index_name := pd.index_name df;
     pd.data := (fun c => (default c.1 (mapper !! c.1), c.2)) <$> pd.data df |}.

(** The column of [stock_data] for one stock and one data label: the
    three forms of label that [_getStocksDataColumns] knows, in its
    order. *)
Definition resolve_column (stock_data : pd.DataFrame) (name reqname col : string)
    : result string :=
  if decide (name ∈ pd.columns stock_data) then Ok name
  else if decide (_getQuandlDataColumnLabel reqname col ∈ pd.columns stock_data) then
    Ok (_getQuandlDataColumnLabel reqname col)
  else if decide (_getQuandlDataColumnLabel name col ∈ pd.columns stock_data) then
    Ok (_getQuandlDataColumnLabel name col)
  else Raise (ValueError "Could not find column labels in given dataframe.").

(** The two nested loops of [_getStocksDataColumns]: over the names,
    each with its corrected name [reqnames[i]], and over [cols]. *)
Fixpoint required_columns (stock_data : pd.DataFrame) (names reqnames cols : list string)
    : result (list string) :=
  match names, reqnames with
  | name :: names, reqname :: reqnames =>
      colnames ← mapM (resolve_column stock_data name reqname) cols;
      rest ← required_columns stock_data names reqnames cols;
      Ok (colnames ++ rest)
  | [], _ => Ok []
  | _ :: _, [] => Raise IndexError
  end.

(** [names] is the array of the names of the stocks, as the caller in
    this file passes it. *)
Definition _getStocksDataColumns (stock_data : pd.DataFrame) (names cols : list string)
    : result pd.DataFrame :=
  let reqnames := _correctQuandlRequestStockName (Names names) in
  reqcolnames ← required_columns stock_data names reqnames cols;
  let stock_data := loc_columns stock_data reqcolnames in
  let newcolnames :=
    foldl (fun d i => <[i := str_replace i "WIKI/" ""]> d) (∅ : gmap string string)
          reqcolnames in
  let stock_data := rename_columns stock_data newcolnames in
  match cols with
  | [col] =>
      let newcolnames :=
        foldl (fun d name => <[_getQuandlDataColumnLabel name col := name]> d)
              (∅ : gmap string string) names in
      Ok (rename_columns stock_data newcolnames)
  | _ => Ok stock_data
  end.

(** The keyword arguments of [buildPortfolio]: those that the functions
    of this file name, each present or not, and the names of any other
    keywords. *)
Record kwargs : Type := mkKwargs {
  kw_names : option str_or_list;
  kw_start_date : option pydate;
  kw_end_date : option pydate;
  kw_stock_data : option pd.DataFrame;
  kw_datacolumns : option (list string);
  kw_others : list string
}.

(** [kwargs.keys()] *)
Definition keys (kw : kwargs) : list string :=
  (if kw_names kw is Some _ then ["names"] else [])
  ++ (if kw_start_date kw is Some _ then ["start_date"] else [])
  ++ (if kw_end_date kw is Some _ then ["end_date"] else [])
  ++ (if kw_stock_data kw is Some _ then ["stock_data"] else [])
  ++ (if kw_datacolumns kw is Some _ then ["datacolumns"] else [])
  ++ kw_others kw.

Section builders.
Context `{NumPy} `{Regex} `{Quandl}.

Definition _quandlRequest (names : str_or_list) (start_date end_date : pydate)
    : result pd.DataFrame :=
  let reqnames := _correctQuandlRequestStockName names in
  quandl_get reqnames start_date end_date.

(** [df.filter(regex=name)] *)
Definition filter_regex (df : pd.DataFrame) (regex : string) : result pd.DataFrame :=
  matcher ← re_compile regex;
  Ok {| pd.index := pd.index df;
        pd.index_name := pd.index_name df;
        pd.data := filter (fun c => matcher c.1 = true) (pd.data df) |}.

(** The loop of [_buildPortfolioFromDf] over the rows of
    [pf_information], from row [i] on.  (The attribute [name] that the
    loop sets on the frame of a stock is read by nothing.) *)
Fixpoint build_stocks (pf_information : list InvestmentInfo) (stock_data : pd.DataFrame)
    (pf : Portfolio.t) : result Portfolio.t :=
  match pf_information with
  | [] => Ok pf
  | row :: rest =>
      let name := Name row in
      stock_stock_data ← filter_regex stock_data name;
      stock ← Stock.__init__ row stock_stock_data;
      match Portfolio.addStock stock pf with
      | (pf, Ok _) => build_stocks rest stock_data pf
      | (_, Raise e) => Raise e
      end
  end.

(** [pf_information] is the frame of investment information, with the
    labels [Name] and [FMV] and the rows numbered from 0. *)
Definition _buildPortfolioFromDf (pf_information : list InvestmentInfo)
    (stock_data : pd.DataFrame) (datacolumns : list string) : result Portfolio.t :=
  if negb (_stocknamesInDataColumns (Name <$> pf_information) stock_data) then
    Raise (ValueError "Error: None of the provided stock names werefound in the provided dataframe.")
  else
    stock_data ← _getStocksDataColumns stock_data (Name <$> pf_information) datacolumns;
    let pf := Portfolio.__init__ in
    build_stocks pf_information stock_data pf.

Definition _buildPortfolioFromQuandl (pf_information : list InvestmentInfo)
    (names : str_or_list) (start_date end_date : pydate) : result Portfolio.t :=
  stock_data ← _quandlRequest names start_date end_date;
  _buildPortfolioFromDf pf_information stock_data ["Adj. Close"].

(** [_buildPortfolioFromQuandl(pf_information, **kwargs)]: Python binds
    the keywords to the parameters of the function and raises
    [TypeError] for a keyword that is none of them, or when [names] is
    missing. *)
Definition call_buildPortfolioFromQuandl (pf_information : list InvestmentInfo)
    (kw : kwargs) : result Portfolio.t :=
  match kw_stock_data kw, kw_datacolumns kw, kw_others kw, kw_names kw with
  | None, None, [], Some names =>
      _buildPortfolioFromQuandl pf_information names
        (default DateNone (kw_start_date kw)) (default DateNone (kw_end_date kw))
  | _, _, _, _ => Raise TypeError
  end.

(** [_buildPortfolioFromDf(pf_information, **kwargs)] *)
Definition call_buildPortfolioFromDf (pf_information : list InvestmentInfo)
    (kw : kwargs) : result Portfolio.t :=
  match kw_names kw, kw_start_date kw, kw_end_date kw, kw_others kw, kw_stock_data kw with
  | None, None, None, [], Some stock_data =>
      _buildPortfolioFromDf pf_information stock_data
        (default ["Adj. Close"] (kw_datacolumns kw))
  | _, _, _, _, _ => Raise TypeError
  end.

(** The message of the [ValueError] for keywords in conflict is the
    template [inputError]: the two lists that [format] writes into it are
    left out (the second of them is made from a set, in an order that
    Python leaves open).  The test [kwargs is None] is never true. *)
Definition buildPortfolio (pf_information : list InvestmentInfo) (kw : kwargs)
    : result Portfolio.t :=
  let inputError :=
    "Error: None of the input arguments {} are allowed in combination with {}. Please read through the docstring, 'buildPortfolio.__doc__'." in
  let pf := Portfolio.__init__ in
  let allInputArgs := ["names"; "start_date"; "end_date"; "stock_data"] in
  let allowedInputArgs := ["names"; "start_date"; "end_date"] in
  let complementInputArgs := _listComplement allowedInputArgs allInputArgs in
  pf ←
    (if _allListEleInOther ["names"] (keys kw) then
       if _anyListEleInOther complementInputArgs (keys kw) then
         Raise (ValueError inputError)
       else call_buildPortfolioFromQuandl pf_information kw
     else Ok pf);
  let allowedInputArgs := ["stock_data"] in
  let complementInputArgs := _listComplement allowedInputArgs allInputArgs in
  pf ←
    (if _allListEleInOther ["stock_data"] (keys kw) then
       if _anyListEleInOther (_listComplement allowedInputArgs allInputArgs) (keys kw) then
         Raise (ValueError inputError)
       else call_buildPortfolioFromDf pf_information kw
     else Ok pf);
  Ok pf.
End builders.

(** ** The total investment and the weights on doubles

    The lines of [Portfolio] in which the rounding of doubles shows: the
    sum of the column [FMV] in [addStock], the test of the setter of
    [totalinvestment] and the division of [compPfWeights].  Here they
    are on the binary64 numbers themselves, for columns without [nan]. *)

Module binary64.

(** [self.portfolio.FMV.sum()], and [np.sum] of an array: numpy adds
    fewer than eight doubles one after the other, from the left,
    starting from zero. *)
Definition sum (values : list float) : float := foldl PrimFloat.add 0%float values.

(** The test [val <= 0] of the setter of [totalinvestment]: the setter
    raises when it holds. *)
Definition setter_raises (val : float) : bool := PrimFloat.leb val 0%float.

(** The values that the setter is given by the calls of [addStock], one
    after every call: the sum of the FMV of the rows so far. *)
Definition totals (FMV : list float) : list float :=
  (fun n => sum (take n FMV)) <$> seq 1 (length FMV).

(** [compPfWeights]: [self.portfolio['FMV'] / self.totalinvestment] *)
Definition compPfWeights (FMV : list float) (totalinvestment : float) : list float :=
  (fun x => PrimFloat.div x totalinvestment) <$> FMV.

End binary64.

(** * Auxiliary definitions

    The functions in which the properties are stated and proved, and the
    data of the examples. *)

Import pd pf_returns pf_quants Portfolio.

(** ** Frames *)

(** A method keeps a relation between the object before and after the
    call, whatever it returns or raises. *)
Definition keeps {A} (R : relation t) (m : M A) : Prop :=
  ∀ self, R self (m self).1.

(** The holdings of a portfolio, as opposed to the statistics it caches. *)
Definition same_holdings (self self' : t) : Prop :=
  portfolio self' = portfolio self ∧ stocks self' = stocks self
  ∧ pf_stock_data self' = pf_stock_data self
  ∧ __totalinvestment self' = __totalinvestment self.

(** The frames and the mapping, as opposed to everything computed from
    them. *)
Definition same_tables (self self' : t) : Prop :=
  portfolio self' = portfolio self ∧ stocks self' = stocks self
  ∧ pf_stock_data self' = pf_stock_data self.

(** ** What the methods compute *)

(** What [compPfWeights] returns, as a function of the object. *)
Definition weights_of (self : t) : result Series :=
  match rows (portfolio self), __totalinvestment self with
  | [], _ => Raise (KeyError "FMV")
  | _, None => Raise (AttributeError "_Portfolio__totalinvestment")
  | rs, Some val => Ok ((fun x => fdiv (Fin x) (Fin val)) <$> (FMV <$> rs))
  end.

(** What [compPfExpectedReturn] computes. *)
Definition expected_return_of (freq : Z) (self : t) : result npfloat :=
  pf_return_means ← historicalMeanReturn (pf_stock_data self) freq;
  weights ← weights_of self;
  weightedMean pf_return_means weights.

(** What [compPfVolatility] computes. *)
Definition volatility_of `{NumPy} (freq : Z) (self : t) : result npfloat :=
  returns ← dailyReturns (pf_stock_data self);
  weights ← weights_of self;
  std ← weightedStd (pd.cov returns) weights;
  Ok (fmul std (np_sqrt (of_Z freq))).

(** ** The stages of [addStock] *)

(** The object once the stock is in the mapping, its row is in the
    frame of investment information and the frame has got its name. *)
Definition entered (stock : Stock.t) (self : t) : t :=
  set_portfolio
    (mkInfoFrame (rows (portfolio self) ++ [Stock.getInvestmentInfo stock])
                 (Some "Portfolio information"))
    (set_stocks (<[Stock.name stock := stock]> (stocks self)) self).

(** The statements of [addStock] after the call of [_addStockData]:
    the total investment, then the statistics. *)
Definition statistics `{NumPy} : M unit :=
  expectedReturn ← compPfExpectedReturn 252;
  modify (set_expectedReturn (Some expectedReturn));;
  volatility ← compPfVolatility 252;
  modify (set_volatility (Some volatility));;
  sharpe ← compPfSharpe default_riskFreeRate;
  modify (set_sharpe (Some sharpe));;
  skew ← __compPfSkew;
  modify (set_skew (Some skew));;
  kurtosis ← __compPfKurtosis;
  modify (set_kurtosis (Some kurtosis)).

Definition recompute `{NumPy} : M unit :=
  fmv ← portfolio_FMV;
  totalinvestment_setter (PyNumber (pd.total fmv));;
  statistics.

(** The loop of [_addStockData] on the frame alone. *)
Fixpoint insert_all (d df : DataFrame) (columns_of_df : list string)
    : DataFrame * result unit :=
  match columns_of_df with
  | [] => (d, Ok ())
  | datacol :: rest =>
      match getitem_values df datacol with
      | Ok value =>
          match pd.insert d (length (columns d)) datacol value with
          | (d', Ok _) => insert_all d' df rest
          | (d', Raise e) => (d', Raise e)
          end
      | Raise e => (d, Raise e)
      end
  end.

(** The same loop for columns that are given with their values, each an
    array with one axis: what the loop does when [df] has no label
    twice. *)
Fixpoint insert_columns (d : DataFrame) (cols_of_df : list (string * list npfloat))
    : DataFrame * result unit :=
  match cols_of_df with
  | [] => (d, Ok ())
  | (datacol, values) :: rest =>
      match pd.insert d (length (columns d)) datacol (Array1D values) with
      | (d', Ok _) => insert_columns d' rest
      | (d', Raise e) => (d', Raise e)
      end
  end.

(** [_addStockData] on the frame alone. *)
Definition merge (d df : DataFrame) : DataFrame * result unit :=
  match insert_all d df (columns df) with
  | (d1, Ok _) =>
      match pd.set_index d1 (index df) with
      | (d2, Ok _) => (pd.index_rename d2 "Date", Ok ())
      | (d2, Raise e) => (d2, Raise e)
      end
  | (d1, Raise e) => (d1, Raise e)
  end.

(** Calls of [addStock], one stock after the other. *)
Fixpoint addStocks `{NumPy} (new_stocks : list Stock.t) : M unit :=
  match new_stocks with
  | [] => mret ()
  | stock :: rest => addStock stock;; addStocks rest
  end.

(** ** The specification's volatility *)

(** The daily percentage returns in the words of the specification: for
    every [t > 0], [(price[t] - price[t-1]) / price[t-1]]. *)
Definition spec_daily_returns (prices : list npfloat) : list npfloat :=
  (fun t => fdiv (fsub (nth t prices NaN) (nth (t - 1) prices NaN))
                 (nth (t - 1) prices NaN))
    <$> seq 1 (length prices - 1).

(** "std-dev of daily returns times sqrt(freq)" *)
Definition spec_volatility `{NumPy} (prices : list npfloat) (freq : Z) : npfloat :=
  fmul (pd.std (spec_daily_returns prices)) (np_sqrt (of_Z freq)).

(** ** Example data *)

Definition price_frame (dates : list Z) (label : string) (prices : list Z) : DataFrame :=
  {| index := dates; index_name := None;
     data := [(label, (fun p => Fin (Qc_of_Z p)) <$> prices)] |}.

(** A stock as its constructor builds it, with the computing root. *)
Definition make_stock (stock_name : string) (fmv : Z) (stock_data : DataFrame) : Stock.t :=
  let investmentinfo := mkInvestmentInfo stock_name (Qc_of_Z fmv) [] in
  match Stock.__init__ (H:=rounded_numpy) investmentinfo stock_data with
  | Ok stock => stock
  | Raise _ => Stock.mk stock_name investmentinfo stock_data [] [] NaN NaN
  end.

Definition stock_A : Stock.t :=
  make_stock "A" 50 (price_frame [1; 2; 3]%Z "A" [100; 110; 99]%Z).

(** Same number of rows as [stock_A], other dates. *)
Definition stock_B : Stock.t :=
  make_stock "B" 50 (price_frame [4; 5; 6]%Z "B" [50; 45; 54]%Z).

Definition stock_C : Stock.t :=
  make_stock "C" 150 (price_frame [1; 2; 3]%Z "C" [20; 21; 23]%Z).

Definition stock_D : Stock.t :=
  make_stock "D" 10 (price_frame [1; 2; 3; 4; 5]%Z "D" [1; 2; 4; 8; 16]%Z).

(** Prices that double every day: the daily returns are constant. *)
Definition doubling_prices : list npfloat :=
  (fun p => Fin (Qc_of_Z p)) <$> [1; 2; 4; 8; 16]%Z.

(** Two rows only, where the frame of [portfolio_A] has three. *)
Definition stock_S : Stock.t :=
  make_stock "S" 30 (price_frame [1; 2]%Z "S" [10; 11]%Z).

(** An invested amount that cancels the 50 of [stock_A]. *)
Definition stock_N : Stock.t :=
  make_stock "N" (-50) (price_frame [1; 2; 3]%Z "N" [10; 11; 13]%Z).

(** A stock whose frame has the label B on two columns, and as many
    rows as the frame of [portfolio_A]. *)
Definition stock_BB : Stock.t :=
  make_stock "BB" 40
    {| index := [1; 2; 3]%Z; index_name := None;
       data := [("B", (fun p => Fin (Qc_of_Z p)) <$> [50; 45; 54]%Z);
                ("B", (fun p => Fin (Qc_of_Z p)) <$> [51; 46; 55]%Z)] |}.

(** A second stock under the name of [stock_A], with its own price
    column. *)
Definition stock_A2 : Stock.t :=
  make_stock "A" 70 (price_frame [1; 2; 3]%Z "A2" [10; 11; 13]%Z).

(** A second stock under the name of [stock_A], its price column labelled
    by the name as well. *)
Definition stock_A3 : Stock.t :=
  make_stock "A" 70 (price_frame [1; 2; 3]%Z "A" [10; 11; 13]%Z).

(** The portfolio with [stock_A] alone. *)
Definition portfolio_A : t := (addStock (H:=rounded_numpy) stock_A __init__).1.

(** Invested amounts of which the first and the last cancel: 1e16, 6.9
    (the double next to it) and -1e16. *)
Definition cancelling_FMV : list float :=
  [1e16; 0x1.b99999999999ap+2; -1e16]%float.

(** ** Calls on a portfolio *)

(** A call by which a user changes a portfolio: [addStock], an assignment
    to the property [totalinvestment], or one of the three methods that
    cache their result. *)
Inductive call : Type :=
  | AddStock (stock : Stock.t)
  | SetTotalinvestment (val : pyval)
  | CompPfExpectedReturn (freq : Z)
  | CompPfVolatility (freq : Z)
  | CompPfSharpe (riskFreeRate : npfloat).

(** The portfolio after a call, whether the call returned or raised (the
    caller may catch the exception and go on with the object). *)
Definition after_call `{NumPy} (c : call) (self : t) : t :=
  match c with
  | AddStock stock => (addStock stock self).1
  | SetTotalinvestment val => (totalinvestment_setter val self).1
  | CompPfExpectedReturn freq => (compPfExpectedReturn freq self).1
  | CompPfVolatility freq => (compPfVolatility freq self).1
  | CompPfSharpe riskFreeRate => (compPfSharpe riskFreeRate self).1
  end.

Definition after_calls `{NumPy} (calls : list call) (self : t) : t :=
  foldl (fun obj c => after_call c obj) self calls.

(** The stocks that the calls of [addStock] among [calls] were given, in
    the order of the calls. *)
Definition given_stocks (calls : list call) : list Stock.t :=
  omap (fun c => match c with AddStock stock => Some stock | _ => None end) calls.

(** A stock bears the [Name] of its investment information, as every
    stock does that the constructor has built. *)
Definition constructed (stock : Stock.t) : Prop :=
  Stock.name stock = Name (Stock.investmentinfo stock).

(** What every portfolio satisfies that calls have made of a fresh one. *)
Definition well_formed (self : t) : Prop :=
  pd.aligned (pf_stock_data self)
  ∧ NoDup (columns (pf_stock_data self))
  ∧ (∀ val, __totalinvestment self = Some val → 0 < val)
  ∧ (∀ key stock, stocks self !! key = Some stock → Stock.name stock = key)
  ∧ (size (stocks self) ≤ length (rows (portfolio self)))%nat.

(** A frame as the data provider returns it. *)
Definition quandl_frame : DataFrame :=
  {| index := [1; 2; 3]%Z; index_name := Some "Date";
     data := [("WIKI/GOOG - Adj. Close", (fun p => Fin (Qc_of_Z p)) <$> [100; 110; 99]%Z);
              ("WIKI/GOOG - Volume", (fun p => Fin (Qc_of_Z p)) <$> [7; 8; 9]%Z);
              ("WIKI/AMZN - Adj. Close", (fun p => Fin (Qc_of_Z p)) <$> [20; 21; 23]%Z)] |}.

(** An optimiser for the examples: it returns the total investment and
    the initial weights it is given. *)
Definition echo_optimiser (pf_stock_data : DataFrame) (num_trials : Z)
    (total_investment : Qc) (riskFreeRate : npfloat) (freq : Z)
    (initial_weights : Series) (plot : bool) : result (Qc * Series) :=
  Ok (total_investment, initial_weights).

(** ** Labels of the price columns *)

(** One name as [_correctQuandlRequestStockName] corrects it. *)
Definition corrected (name : string) : string :=
  if String.prefix "WIKI/" name then name else "WIKI/" +:+ name.

(** The frame has the column of a stock for a data label under one of
    the three labels that [_getStocksDataColumns] tries. *)
Definition resolvable (stock_data : DataFrame) (name col : string) : Prop :=
  name ∈ columns stock_data
  ∨ _getQuandlDataColumnLabel (corrected name) col ∈ columns stock_data
  ∨ _getQuandlDataColumnLabel name col ∈ columns stock_data.

(** The first of the three labels that the frame has (the last one if it
    has none). *)
Definition resolved_label (stock_data : DataFrame) (name col : string) : string :=
  if decide (name ∈ columns stock_data) then name
  else if decide (_getQuandlDataColumnLabel (corrected name) col ∈ columns stock_data)
  then _getQuandlDataColumnLabel (corrected name) col
  else _getQuandlDataColumnLabel name col.

(** [df[label].values], for a label that the frame has once. *)
Definition column_values (df : DataFrame) (label : string) : list npfloat :=
  match filter (fun c => c.1 = label) (data df) with
  | c :: _ => c.2
  | [] => []
  end.

(** ** Examples for the functions that build a portfolio *)

(** Patterns without special characters, as the names of stocks are:
    [search] finds the pattern where it occurs in the label. *)
Definition substring_regex : Regex :=
  {| re_compile := fun pattern => Ok (fun label => contains pattern label) |}.

(** A data provider that answers every request with [quandl_frame]. *)
Definition quandl_example : Quandl :=
  {| quandl_get := fun _ _ _ => Ok quandl_frame |}.

Definition pf_information_example : list InvestmentInfo :=
  [mkInvestmentInfo "GOOG" (Qc_of_Z 150) []; mkInvestmentInfo "AMZN" (Qc_of_Z 50) []].

(** The keywords that the functions of [portfolio.py] name. *)
Definition known_keywords : list string :=
  ["names"; "start_date"; "end_date"; "stock_data"; "datacolumns"].

(** * Properties *)

(** ** Running a method *)

Lemma run_bind {A B} (m : M A) (k : A → M B) (self : t) :
  (m ≫= k) self =
  match m self with
  | (self', Ok a) => k a self'
  | (self', Raise e) => (self', Raise e)
  end.
Proof. reflexivity. Qed.

Lemma run_bind_ok {A B} (m : M A) (k : A → M B) (self self' : t) (b : B) :
  (m ≫= k) self = (self', Ok b) →
  ∃ a s, m self = (s, Ok a) ∧ k a s = (self', Ok b).
Proof.
  rewrite run_bind. destruct (m self) as [s [a|e]]; [eauto | discriminate].
Qed.

Section keeps.
Context (R : relation t) `{!PreOrder R}.

Lemma keeps_ret {A} (a : A) : keeps R (mret a : M A).
Proof. intros self. cbn. reflexivity. Qed.

Lemma keeps_get : keeps R get.
Proof. intros self. cbn. reflexivity. Qed.

Lemma keeps_raise {A} e : keeps R (raise e : M A).
Proof. intros self. cbn. reflexivity. Qed.

Lemma keeps_lift {A} (r : result A) : keeps R (lift r).
Proof. intros self. cbn. reflexivity. Qed.

Lemma keeps_modify (f : t → t) : (∀ self, R self (f self)) → keeps R (modify f).
Proof. intros Hf self. apply Hf. Qed.

Lemma keeps_bind {A B} (m : M A) (k : A → M B) :
  keeps R m → (∀ a, keeps R (k a)) → keeps R (m ≫= k).
Proof.
  intros Hm Hk self. rewrite run_bind. specialize (Hm self).
  destruct (m self) as [s [a|e]]; cbn in *; [|done].
  etrans; [exact Hm | apply Hk].
Qed.
End keeps.

Global Instance same_holdings_preorder : PreOrder same_holdings.
Proof.
  split.
  - intros self. by repeat split.
  - intros s1 s2 s3 (?&?&?&?) (?&?&?&?). repeat split; congruence.
Qed.

Global Instance same_tables_preorder : PreOrder same_tables.
Proof.
  split.
  - intros self. by repeat split.
  - intros s1 s2 s3 (?&?&?) (?&?&?). repeat split; congruence.
Qed.

Lemma same_holdings_tables self self' : same_holdings self self' → same_tables self self'.
Proof. intros (?&?&?&?). by repeat split. Qed.

Ltac keeps_step :=
  first
    [ apply keeps_bind; [tc_solve | | intros ?]
    | apply keeps_ret; tc_solve
    | apply keeps_get; tc_solve
    | apply keeps_raise; tc_solve
    | apply keeps_lift; tc_solve
    | apply keeps_modify; intros ?; by repeat split ].

Ltac keeps_auto := repeat (keeps_step || (progress case_match)).

(** ** Reading methods *)

Lemma totalinvestment_run self :
  totalinvestment self =
  (self, match __totalinvestment self with
         | Some val => Ok val
         | None => Raise (AttributeError "_Portfolio__totalinvestment")
         end).
Proof. unfold totalinvestment. rewrite run_bind. cbn. by destruct (__totalinvestment self). Qed.

Lemma portfolio_FMV_run self :
  portfolio_FMV self =
  (self, match rows (portfolio self) with
         | [] => Raise (KeyError "FMV")
         | rs => Ok (FMV <$> rs)
         end).
Proof. unfold portfolio_FMV. rewrite run_bind. cbn. by destruct (rows (portfolio self)). Qed.

Lemma compPfWeights_run self : compPfWeights self = (self, weights_of self).
Proof.
  unfold compPfWeights, weights_of. rewrite run_bind, portfolio_FMV_run.
  destruct (rows (portfolio self)) as [|r rs]; [done|].
  rewrite run_bind, totalinvestment_run.
  by destruct (__totalinvestment self).
Qed.

Lemma compPfExpectedReturn_run freq self :
  compPfExpectedReturn freq self =
  match expected_return_of freq self with
  | Ok v => (set_expectedReturn (Some v) self, Ok v)
  | Raise e => (self, Raise e)
  end.
Proof.
  unfold compPfExpectedReturn, expected_return_of.
  rewrite run_bind. cbn [get]. rewrite run_bind. unfold lift at 1.
  destruct (historicalMeanReturn _ _) as [means|e]; [|done].
  rewrite run_bind, compPfWeights_run.
  destruct (weights_of self) as [ws|e]; [|done].
  rewrite run_bind. unfold lift. cbn [mbind result_bind].
  by destruct (weightedMean means ws).
Qed.

Lemma compPfSharpe_run rf self :
  compPfSharpe rf self =
  match expectedReturn self, volatility self with
  | Some er, Some vol =>
      match sharpeRatio er vol rf with
      | Ok s => (set_sharpe (Some s) self, Ok s)
      | Raise e => (self, Raise e)
      end
  | _, _ => (self, Raise TypeError)
  end.
Proof.
  unfold compPfSharpe. rewrite run_bind. cbn [get].
  destruct (expectedReturn self) as [er|]; [|done].
  destruct (volatility self) as [vol|]; [|done].
  rewrite run_bind. unfold lift.
  by destruct (sharpeRatio er vol rf).
Qed.

Section runs.
Context `{NumPy}.

Lemma compPfVolatility_run freq self :
  compPfVolatility freq self =
  match volatility_of freq self with
  | Ok v => (set_volatility (Some v) self, Ok v)
  | Raise e => (self, Raise e)
  end.
Proof.
  unfold compPfVolatility, volatility_of, compCovPf.
  rewrite !run_bind. cbn [get]. rewrite run_bind. unfold lift at 1.
  destruct (dailyReturns _) as [returns|e]; [|done].
  cbn [mret M_ret mbind result_bind].
  rewrite run_bind, compPfWeights_run.
  destruct (weights_of self) as [ws|e]; [|done].
  rewrite run_bind. unfold lift. cbn [mbind result_bind].
  by destruct (weightedStd _ ws).
Qed.

Lemma keeps_compPfExpectedReturn freq : keeps same_holdings (compPfExpectedReturn freq).
Proof.
  intros self. rewrite compPfExpectedReturn_run.
  destruct (expected_return_of freq self); by repeat split.
Qed.

Lemma keeps_compPfVolatility freq : keeps same_holdings (compPfVolatility freq).
Proof.
  intros self. rewrite compPfVolatility_run.
  destruct (volatility_of freq self); by repeat split.
Qed.

Lemma keeps_compPfSharpe rf : keeps same_holdings (compPfSharpe rf).
Proof.
  intros self. rewrite compPfSharpe_run.
  repeat case_match; by repeat split.
Qed.

Lemma addStock_stages stock self :
  addStock stock self =
  (_addStockData (Stock.stock_data stock);; recompute) (entered stock self).
Proof. reflexivity. Qed.

Lemma keeps_statistics : keeps same_holdings statistics.
Proof.
  unfold statistics, __compPfSkew, __compPfKurtosis.
  apply keeps_bind; [tc_solve | apply keeps_compPfExpectedReturn | intros ?].
  apply keeps_bind; [tc_solve | keeps_step | intros ?].
  apply keeps_bind; [tc_solve | apply keeps_compPfVolatility | intros ?].
  apply keeps_bind; [tc_solve | keeps_step | intros ?].
  apply keeps_bind; [tc_solve | apply keeps_compPfSharpe | intros ?].
  keeps_auto.
Qed.

Lemma keeps_totalinvestment_setter val : keeps same_tables (totalinvestment_setter val).
Proof. unfold totalinvestment_setter. keeps_auto. Qed.

Lemma keeps_recompute : keeps same_tables recompute.
Proof.
  unfold recompute, portfolio_FMV.
  apply keeps_bind; [tc_solve | keeps_auto | intros ?].
  apply keeps_bind; [tc_solve | apply keeps_totalinvestment_setter | intros ?].
  intros self. apply same_holdings_tables, keeps_statistics.
Qed.

Lemma recompute_run self :
  rows (portfolio self) ≠ [] →
  recompute self =
  let val := pd.total (FMV <$> rows (portfolio self)) in
  if decide (val ≤ 0) then
    (self, Raise (ValueError "The money to be invested in the portfolio must be > 0."))
  else statistics (set___totalinvestment (Some val) self).
Proof.
  intros Hrows. unfold recompute.
  rewrite run_bind, portfolio_FMV_run.
  destruct (rows (portfolio self)) as [|r rs] eqn:E; [done|].
  rewrite run_bind. cbn [totalinvestment_setter].
  by destruct (decide _).
Qed.
End runs.

(** ** Merging price columns *)

Lemma set_pf_stock_data_same self : set_pf_stock_data (pf_stock_data self) self = self.
Proof. by destruct self. Qed.

Lemma _addStockData_loop_run df labels self :
  _addStockData_loop df labels self =
  (set_pf_stock_data (insert_all (pf_stock_data self) df labels).1 self,
   (insert_all (pf_stock_data self) df labels).2).
Proof.
  revert self. induction labels as [|datacol rest IH]; intros self.
  - cbn. by rewrite set_pf_stock_data_same.
  - cbn [_addStockData_loop insert_all]. rewrite run_bind. cbn [get].
    rewrite run_bind. unfold lift at 1.
    destruct (getitem_values df datacol) as [value|e].
    2: { cbn [fst snd]. by rewrite set_pf_stock_data_same. }
    rewrite run_bind. unfold on_pf_stock_data.
    destruct (pd.insert _ _ _ _) as [d' [[]|e]]; [|done].
    rewrite IH. reflexivity.
Qed.

Lemma _addStockData_run df self :
  _addStockData df self =
  (set_pf_stock_data (merge (pf_stock_data self) df).1 self,
   (merge (pf_stock_data self) df).2).
Proof.
  unfold _addStockData, merge. rewrite run_bind, _addStockData_loop_run.
  destruct (insert_all _ _ _) as [d1 [[]|e]]; [|done]. cbn [fst snd].
  rewrite run_bind. unfold on_pf_stock_data. cbn [pf_stock_data set_pf_stock_data].
  by destruct (pd.set_index d1 (index df)) as [d2 [[]|e]].
Qed.

Section add_stock.
Context `{NumPy}.

(** [addStock], stage by stage. *)
Lemma addStock_run stock self :
  addStock stock self =
  match merge (pf_stock_data self) (Stock.stock_data stock) with
  | (d, Ok _) => recompute (set_pf_stock_data d (entered stock self))
  | (d, Raise e) => (set_pf_stock_data d (entered stock self), Raise e)
  end.
Proof.
  rewrite addStock_stages, run_bind, _addStockData_run.
  by destruct (merge _ _) as [d [[]|e]].
Qed.

Lemma addStock_tables stock self :
  portfolio (addStock stock self).1 = portfolio (entered stock self)
  ∧ stocks (addStock stock self).1 = stocks (entered stock self).
Proof.
  rewrite addStock_run.
  destruct (merge _ _) as [d [[]|e]]; [|done].
  destruct (keeps_recompute (set_pf_stock_data d (entered stock self))) as (?&?&?).
  done.
Qed.
End add_stock.

Section successful_add.
Context `{NumPy}.

(** The statistics after a run of [statistics] that did not raise. *)
Lemma statistics_ok self self' :
  statistics self = (self', Ok ()) →
  ∃ er vol sh,
    expected_return_of 252 self = Ok er
    ∧ volatility_of 252 self = Ok vol
    ∧ sharpeRatio er vol default_riskFreeRate = Ok sh
    ∧ self' = mk (portfolio self) (stocks self) (pf_stock_data self)
                 (Some er) (Some vol) (Some sh)
                 (Some ((fun c => pd.skew c.2) <$> data (pf_stock_data self)))
                 (Some ((fun c => pd.kurt c.2) <$> data (pf_stock_data self)))
                 (__totalinvestment self).
Proof.
  unfold statistics.
  rewrite run_bind, compPfExpectedReturn_run.
  destruct (expected_return_of 252 self) as [er|e] eqn:Her; [|done].
  rewrite run_bind. cbn [modify].
  rewrite run_bind, compPfVolatility_run.
  change (volatility_of 252 _) with (volatility_of 252 self).
  destruct (volatility_of 252 self) as [vol|e] eqn:Hvol; [|done].
  rewrite run_bind. cbn [modify].
  rewrite run_bind, compPfSharpe_run. cbn [expectedReturn volatility set_volatility set_expectedReturn].
  destruct (sharpeRatio er vol default_riskFreeRate) as [sh|e] eqn:Hsh; [|done].
  intros Hself'.
  cbv [mbind M_bind modify mret M_ret get __compPfSkew __compPfKurtosis] in Hself'.
  cbn [pf_stock_data set_sharpe set_skew set_volatility set_expectedReturn] in Hself'.
  apply (f_equal fst) in Hself'. cbn [fst] in Hself'. subst self'.
  by exists er, vol, sh.
Qed.

Lemma addStock_ok stock self self' :
  addStock stock self = (self', Ok ()) →
  ∃ d, merge (pf_stock_data self) (Stock.stock_data stock) = (d, Ok ())
    ∧ 0 < pd.total (FMV <$> rows (portfolio (entered stock self)))
    ∧ statistics
        (set___totalinvestment
           (Some (pd.total (FMV <$> rows (portfolio (entered stock self)))))
           (set_pf_stock_data d (entered stock self))) = (self', Ok ()).
Proof.
  rewrite addStock_run.
  destruct (merge _ _) as [d [[]|e]]; [|done].
  rewrite recompute_run by (cbn; by destruct (rows (portfolio self))).
  cbn zeta. cbn [portfolio set_pf_stock_data].
  destruct (decide _) as [|Hpos]; [done|].
  intros Hstat. exists d. split; [done|]. split; [|done].
  by apply Qclt_nge.
Qed.
End successful_add.

(** ** The examples *)

(** Every stock of the examples is what the constructor returns for its
    investment information and its prices, and [portfolio_A] is what the
    first [addStock] on a fresh portfolio leaves. *)
Lemma examples_are_constructed :
  Forall (fun stock =>
            Stock.__init__ (H:=rounded_numpy)
              (Stock.investmentinfo stock) (Stock.stock_data stock) = Ok stock)
         [stock_A; stock_B; stock_C; stock_D; stock_S; stock_N; stock_BB;
          stock_A2; stock_A3]
  ∧ addStock (H:=rounded_numpy) stock_A __init__ = (portfolio_A, Ok ()).
Proof. split; [repeat constructor|]; vm_compute; reflexivity. Qed.

(** ** Sharpe ratio *)

(** C5. For every expected return and risk-free rate, the Sharpe ratio
    with a volatility of zero is reported as the explicit condition
    [UndefinedSharpe], by [sharpeRatio] and, unchanged, by
    [Portfolio.compPfSharpe]: no other exception, no infinity and no
    cached value; for every other volatility the result is
    (expectedReturn - riskFreeRate) / volatility. *)
Theorem sharpe_undefined_at_zero_volatility (er rf : npfloat) :
  sharpeRatio er (Fin 0) rf = Raise UndefinedSharpe
  ∧ (∀ self, expectedReturn self = Some er → volatility self = Some (Fin 0) →
       compPfSharpe rf self = (self, Raise UndefinedSharpe))
  ∧ (∀ vol, vol ≠ Fin 0 →
       sharpeRatio er vol rf = Ok (fdiv (fsub er rf) vol)
       ∧ ∀ self, expectedReturn self = Some er → volatility self = Some vol →
           compPfSharpe rf self =
           (set_sharpe (Some (fdiv (fsub er rf) vol)) self, Ok (fdiv (fsub er rf) vol))).
Proof.
  split; [done|]. split.
  - intros self Her Hvol. by rewrite compPfSharpe_run, Her, Hvol.
  - intros vol Hvol.
    assert (sharpeRatio er vol rf = Ok (fdiv (fsub er rf) vol)) as Hs.
    { unfold sharpeRatio. by destruct (decide _). }
    split; [done|].
    intros self Her Hvol'. by rewrite compPfSharpe_run, Her, Hvol', Hs.
Qed.

Lemma sharpe_undefined_at_zero_volatility_witness :
  compPfSharpe (Fin 0) (set_volatility (Some (Fin 0)) portfolio_A) =
    (set_volatility (Some (Fin 0)) portfolio_A, Raise UndefinedSharpe)
  ∧ sharpeRatio (Fin 1) (Fin 2) (Fin 0) = Ok (fdiv (fsub (Fin 1) (Fin 0)) (Fin 2))
  ∧ compPfSharpe (Fin 0) (set_volatility (Some (Fin 2)) (set_expectedReturn (Some (Fin 1)) __init__)) =
    (set_sharpe (Some (fdiv (fsub (Fin 1) (Fin 0)) (Fin 2)))
       (set_volatility (Some (Fin 2)) (set_expectedReturn (Some (Fin 1)) __init__)),
     Ok (fdiv (fsub (Fin 1) (Fin 0)) (Fin 2))).
Proof.
  split; [|split].
  - pose proof (sharpe_undefined_at_zero_volatility (Fin 0) (Fin 0)) as (_ & Hzero & _).
    apply Hzero; reflexivity.
  - pose proof (sharpe_undefined_at_zero_volatility (Fin 1) (Fin 0)) as (_ & _ & Hnz).
    apply (Hnz (Fin 2)). discriminate.
  - pose proof (sharpe_undefined_at_zero_volatility (Fin 1) (Fin 0)) as (_ & _ & Hnz).
    apply (Hnz (Fin 2)); [discriminate | reflexivity | reflexivity].
Defined.

(** ** The fresh portfolio *)

(** C9. On a freshly constructed portfolio the constructor's assignment
    of [None] went through the setter, which skips it, so the attribute
    behind [totalinvestment] does not exist: reading the property raises,
    and so do [compPfWeights], [compPfExpectedReturn], [compPfVolatility]
    and [optimisePortfolio] with the default [total_investment]. *)
Theorem fresh_portfolio_faults `{NumPy} :
  (∀ self, totalinvestment_setter PyNone self = (self, Ok ()))
  ∧ __totalinvestment __init__ = None
  ∧ totalinvestment __init__ =
      (__init__, Raise (AttributeError "_Portfolio__totalinvestment"))
  ∧ raises (compPfWeights __init__).2
  ∧ (∀ freq, raises (compPfExpectedReturn freq __init__).2)
  ∧ (∀ freq, raises (compPfVolatility freq __init__).2)
  ∧ (∀ (R : Type) (optimisePfMC : DataFrame → Z → Qc → npfloat → Z → Series → bool → result R)
       num_trials rf freq plot,
       optimisePortfolio optimisePfMC None num_trials rf freq plot __init__ =
       (__init__, Raise (AttributeError "_Portfolio__totalinvestment"))).
Proof.
  split; [done|]. split; [done|]. split; [done|]. split; [exact I|].
  split; [|split; [|done]].
  - intros freq. rewrite compPfExpectedReturn_run.
    unfold expected_return_of, historicalMeanReturn.
    destruct (decide _); exact I.
  - intros freq. rewrite compPfVolatility_run. exact I.
Qed.

(** ** Cached statistics *)

Lemma expected_return_of_any_freq self freq freq' v :
  expected_return_of freq self = Ok v → (0 < freq')%Z →
  ∃ v', expected_return_of freq' self = Ok v'.
Proof.
  unfold expected_return_of, historicalMeanReturn. intros Hv Hfreq'.
  destruct (decide (freq ≤ 0)%Z); [done|].
  destruct (decide (freq' ≤ 0)%Z); [lia|].
  destruct (dailyReturns (pf_stock_data self)) as [returns|]; [|done].
  cbn [mbind result_bind] in *.
  destruct (weights_of self) as [ws|]; [|done].
  cbn [mbind result_bind] in *.
  unfold weightedMean in *. rewrite !length_fmap in *.
  destruct (decide _); [|done]. eauto.
Qed.

Lemma volatility_of_any_freq `{NumPy} self freq freq' v :
  volatility_of freq self = Ok v → ∃ v', volatility_of freq' self = Ok v'.
Proof.
  unfold volatility_of. intros Hv.
  destruct (dailyReturns (pf_stock_data self)) as [returns|]; [|done].
  cbn [mbind result_bind] in *.
  destruct (weights_of self) as [ws|]; [|done].
  cbn [mbind result_bind] in *.
  destruct (weightedStd _ _); [|done]. cbn in *. eauto.
Qed.

Lemma weights_of_holdings self self' :
  same_holdings self self' → weights_of self' = weights_of self.
Proof. intros (Hp & _ & _ & Ht). unfold weights_of. by rewrite Hp, Ht. Qed.

Lemma expected_return_of_holdings freq self self' :
  same_holdings self self' → expected_return_of freq self' = expected_return_of freq self.
Proof.
  intros Hsame. unfold expected_return_of.
  rewrite (weights_of_holdings _ _ Hsame). destruct Hsame as (_ & _ & Hd & _).
  by rewrite Hd.
Qed.

Lemma volatility_of_holdings `{NumPy} freq self self' :
  same_holdings self self' → volatility_of freq self' = volatility_of freq self.
Proof.
  intros Hsame. unfold volatility_of.
  rewrite (weights_of_holdings _ _ Hsame). destruct Hsame as (_ & _ & Hd & _).
  by rewrite Hd.
Qed.

(** What [compPfExpectedReturn] and [compPfVolatility] have computed
    when they return. *)
Lemma expected_return_of_ok freq self er :
  expected_return_of freq self = Ok er →
  ∃ means weights,
    historicalMeanReturn (pf_stock_data self) freq = Ok means
    ∧ weights_of self = Ok weights ∧ er = dot means weights.
Proof.
  unfold expected_return_of. intros Her.
  destruct (historicalMeanReturn _ _) as [means|]; [|done].
  destruct (weights_of self) as [weights|]; [|done].
  cbn [mbind result_bind] in Her. unfold weightedMean in Her.
  destruct (decide _); [|done]. injection Her as <-. by exists means, weights.
Qed.

Lemma volatility_of_ok `{NumPy} freq self vol :
  volatility_of freq self = Ok vol →
  ∃ returns weights std,
    dailyReturns (pf_stock_data self) = Ok returns
    ∧ weights_of self = Ok weights
    ∧ weightedStd (pd.cov returns) weights = Ok std
    ∧ vol = fmul std (np_sqrt (of_Z freq)).
Proof.
  unfold volatility_of. intros Hvol.
  destruct (dailyReturns _) as [returns|]; [|done].
  destruct (weights_of self) as [weights|]; [|done].
  cbn [mbind result_bind] in Hvol.
  destruct (weightedStd _ _) as [std|] eqn:Hstd; [|done].
  injection Hvol as <-. by exists returns, weights, std.
Qed.

(** C10. On a non-empty portfolio, that is on an object [self] with the
    holdings that an [addStock] which did not raise has left, whatever
    its fields of statistics hold: [compPfExpectedReturn freq1] returns
    the weighted mean of the mean returns for [freq1] and overwrites the
    field [expectedReturn] with it, [compPfVolatility freq2] returns the
    weighted deviation times the root of [freq2] and overwrites the field
    [volatility] with it, and [compPfSharpe] then computes the ratio from
    these two cached values, those of the [freq1] and the [freq2] that
    were passed last; it does so from the cached fields of any object.
    None of the three calls, whether it returns or raises, changes
    [stocks], [portfolio], [pf_stock_data] or the total investment. *)
Theorem statistics_are_cached `{NumPy} (stock : Stock.t) (before added self : t)
    (freq1 freq2 : Z) (rf : npfloat) :
  addStock stock before = (added, Ok ()) → same_holdings added self → (0 < freq1)%Z →
  (∃ means weights returns std,
     historicalMeanReturn (pf_stock_data self) freq1 = Ok means
     ∧ compPfWeights self = (self, Ok weights)
     ∧ dailyReturns (pf_stock_data self) = Ok returns
     ∧ weightedStd (pd.cov returns) weights = Ok std
     ∧ let er := dot means weights in
       let vol := fmul std (np_sqrt (of_Z freq2)) in
       let self1 := set_expectedReturn (Some er) self in
       let self2 := set_volatility (Some vol) self1 in
       compPfExpectedReturn freq1 self = (self1, Ok er)
       ∧ compPfVolatility freq2 self1 = (self2, Ok vol)
       ∧ compPfSharpe rf self2 =
           match sharpeRatio er vol rf with
           | Ok s => (set_sharpe (Some s) self2, Ok s)
           | Raise e => (self2, Raise e)
           end)
  ∧ (∀ obj er vol, expectedReturn obj = Some er → volatility obj = Some vol →
       (compPfSharpe rf obj).2 = sharpeRatio er vol rf)
  ∧ (∀ obj freq, same_holdings obj (compPfExpectedReturn freq obj).1)
  ∧ (∀ obj freq, same_holdings obj (compPfVolatility freq obj).1)
  ∧ (∀ obj, same_holdings obj (compPfSharpe rf obj).1).
Proof.
  intros Hadd Hself Hfreq1. split; [|split; [|split; [|split]]].
  - apply addStock_ok in Hadd as (d & _ & _ & Hstat).
    pose proof (keeps_statistics
      (set___totalinvestment
         (Some (total (FMV <$> rows (portfolio (entered stock before)))))
         (set_pf_stock_data d (entered stock before)))) as Hkept.
    rewrite Hstat in Hkept. cbn [fst] in Hkept.
    apply statistics_ok in Hstat as (er0 & vol0 & sh0 & Her0 & Hvol0 & _ & _).
    assert (same_holdings
              (set___totalinvestment
                 (Some (total (FMV <$> rows (portfolio (entered stock before)))))
                 (set_pf_stock_data d (entered stock before))) self) as Hsame
      by (by etrans).
    destruct (expected_return_of_any_freq _ _ freq1 _ Her0 Hfreq1) as [er Her].
    destruct (volatility_of_any_freq _ _ freq2 _ Hvol0) as [vol Hvol].
    rewrite <-(expected_return_of_holdings _ _ _ Hsame) in Her.
    rewrite <-(volatility_of_holdings _ _ _ Hsame) in Hvol.
    destruct (expected_return_of_ok _ _ _ Her) as (means & weights & Hmeans & Hw & ->).
    destruct (volatility_of_ok _ _ _ Hvol)
      as (returns & weights' & std & Hreturns & Hw' & Hstd & ->).
    assert (weights' = weights) as -> by congruence.
    exists means, weights, returns, std. cbn zeta.
    split; [done|]. split; [by rewrite compPfWeights_run, Hw|].
    split; [done|]. split; [done|]. split; [|split].
    + by rewrite compPfExpectedReturn_run, Her.
    + rewrite compPfVolatility_run.
      change (volatility_of freq2 _) with (volatility_of freq2 self).
      by rewrite Hvol.
    + by rewrite compPfSharpe_run.
  - intros obj er vol Her Hvol. rewrite compPfSharpe_run, Her, Hvol.
    by destruct (sharpeRatio er vol rf).
  - intros obj freq. apply keeps_compPfExpectedReturn.
  - intros obj freq. apply keeps_compPfVolatility.
  - intros obj. apply keeps_compPfSharpe.
Qed.

Lemma statistics_are_cached_witness :
  let self := (addStock (H:=rounded_numpy) stock_C portfolio_A).1 in
  addStock (H:=rounded_numpy) stock_C portfolio_A = (self, Ok ())
  ∧ (∃ means weights,
       historicalMeanReturn (pf_stock_data self) 1 = Ok means
       ∧ compPfWeights self = (self, Ok weights)
       ∧ compPfExpectedReturn 1 self
         = (set_expectedReturn (Some (dot means weights)) self, Ok (dot means weights)))
  ∧ (compPfExpectedReturn 1 self).2 ≠ (compPfExpectedReturn 2 self).2
  ∧ expectedReturn (compPfExpectedReturn 2 (compPfExpectedReturn 1 self).1).1
    = expectedReturn (compPfExpectedReturn 2 self).1.
Proof.
  intros self.
  assert (addStock (H:=rounded_numpy) stock_C portfolio_A = (self, Ok ())) as Hadd
    by (vm_compute; reflexivity).
  split; [exact Hadd|].
  destruct (statistics_are_cached (H:=rounded_numpy) stock_C portfolio_A self
              self 1 4 default_riskFreeRate Hadd ltac:(by repeat split) ltac:(lia))
    as ((means & weights & returns & std & Hmeans & Hw & _ & _ & Hcalls) & _).
  cbn zeta in Hcalls. destruct Hcalls as (Her & _).
  split; [exists means, weights; split; [exact Hmeans | split; [exact Hw | exact Her]]|].
  split; [vm_compute; intros [=] | vm_compute; reflexivity].
Defined.

(** ** Total investment and weights *)

Lemma fdiv_fin (x y : Qc) : y ≠ 0 → fdiv (Fin x) (Fin y) = Fin (x / y).
Proof. intros Hy. unfold fdiv. by destruct (decide (y = 0)). Qed.

Section totals.
Context `{NumPy}.

Lemma addStock_rows stock self :
  rows (portfolio (addStock stock self).1) =
  rows (portfolio self) ++ [Stock.getInvestmentInfo stock].
Proof. destruct (addStock_tables stock self) as [-> _]. reflexivity. Qed.

Lemma addStock_stocks stock self :
  stocks (addStock stock self).1 = <[Stock.name stock := stock]> (stocks self).
Proof. destruct (addStock_tables stock self) as [_ ->]. reflexivity. Qed.

(** An [addStock] that does not raise leaves the sum of the column
    [FMV] as the total investment, and that sum is positive. *)
Lemma addStock_totalinvestment stock self self' :
  addStock stock self = (self', Ok ()) →
  __totalinvestment self' = Some (total (FMV <$> rows (portfolio self')))
  ∧ 0 < total (FMV <$> rows (portfolio self')).
Proof.
  intros Hadd.
  pose proof (addStock_rows stock self) as Hrows. rewrite Hadd in Hrows. cbn [fst] in Hrows.
  apply addStock_ok in Hadd as (d & _ & Hpos & Hstat).
  rewrite Hrows. split; [|exact Hpos].
  pose proof (keeps_statistics
    (set___totalinvestment
       (Some (total (FMV <$> rows (portfolio (entered stock self)))))
       (set_pf_stock_data d (entered stock self)))) as (_ & _ & _ & Htot').
  rewrite Hstat in Htot'. exact Htot'.
Qed.

Lemma addStocks_rows new_stocks self self' :
  addStocks new_stocks self = (self', Ok ()) →
  rows (portfolio self') =
  rows (portfolio self) ++ (Stock.getInvestmentInfo <$> new_stocks).
Proof.
  revert self. induction new_stocks as [|stock rest IH]; intros self Hadd.
  - injection Hadd as <-. by rewrite app_nil_r.
  - cbn [addStocks] in Hadd. apply run_bind_ok in Hadd as ([] & s & Hs & Hrest).
    rewrite (IH _ Hrest).
    pose proof (addStock_rows stock self) as Hrows. rewrite Hs in Hrows.
    cbn [fst] in Hrows. rewrite Hrows, <-app_assoc. reflexivity.
Qed.

Lemma addStocks_totalinvestment new_stocks self self' :
  new_stocks ≠ [] → addStocks new_stocks self = (self', Ok ()) →
  __totalinvestment self' = Some (total (FMV <$> rows (portfolio self')))
  ∧ 0 < total (FMV <$> rows (portfolio self')).
Proof.
  revert self. induction new_stocks as [|stock rest IH]; intros self Hne Hadd; [done|].
  cbn [addStocks] in Hadd. apply run_bind_ok in Hadd as ([] & s & Hs & Hrest).
  destruct rest as [|stock' rest].
  - injection Hrest as <-. by eapply addStock_totalinvestment.
  - by eapply IH.
Qed.
End totals.

(** C3 as it is claimed fails on doubles.  Three stocks with the
    invested amounts 1e16, 6.9 and -1e16 are added in this order.  None
    of the three values that the setter is given is refused.  The last of
    them, the total investment, is 6.0 and not 6.9, the sum of the first
    two amounts having been rounded; every weight is an amount divided by
    6.0, and the weights sum to 1.25. *)
Lemma weights_do_not_sum_to_one :
  Forall (fun total => binary64.setter_raises total = false)
         (binary64.totals cancelling_FMV)
  ∧ binary64.sum cancelling_FMV = 6%float
  ∧ binary64.sum (binary64.compPfWeights cancelling_FMV (binary64.sum cancelling_FMV))
    = 1.25%float.
Proof. split; [repeat constructor|split]; vm_compute; reflexivity. Qed.

(** C3, amended. After any non-empty sequence of [addStock] calls on a
    fresh portfolio, none of which raised, the frame of investment
    information holds the rows of the added stocks in order,
    [totalinvestment] is the sum of the column FMV of these rows, which
    is positive, and [compPfWeights] returns, for every row, its FMV
    divided by [totalinvestment].  (That these weights sum to one is not
    so for doubles, see above.) *)
Theorem totalinvestment_and_weights `{NumPy} (new_stocks : list Stock.t) (self : t) :
  new_stocks ≠ [] →
  addStocks new_stocks __init__ = (self, Ok ()) →
  let fmv := (fun stock => FMV (Stock.investmentinfo stock)) <$> new_stocks in
  rows (portfolio self) = Stock.getInvestmentInfo <$> new_stocks
  ∧ totalinvestment self = (self, Ok (total fmv))
  ∧ 0 < total fmv
  ∧ compPfWeights self
    = (self, Ok ((fun x => fdiv (Fin x) (Fin (total fmv))) <$> fmv)).
Proof.
  intros Hne Hadd fmv.
  pose proof (addStocks_rows _ _ _ Hadd) as Hrows. cbn in Hrows.
  destruct (addStocks_totalinvestment _ _ _ Hne Hadd) as [Htot Hpos].
  assert (FMV <$> rows (portfolio self) = fmv) as Hfmv.
  { rewrite Hrows. unfold fmv. rewrite <-list_fmap_compose. reflexivity. }
  rewrite Hfmv in Htot, Hpos.
  split; [exact Hrows|]. split; [|split; [exact Hpos|]].
  - by rewrite totalinvestment_run, Htot.
  - rewrite compPfWeights_run. unfold weights_of. rewrite Htot, <-Hfmv.
    destruct (rows (portfolio self)) eqn:E; [|done].
    destruct new_stocks; done.
Qed.

Lemma totalinvestment_and_weights_witness :
  let self := (addStocks (H:=rounded_numpy) [stock_A; stock_C] __init__).1 in
  let fmv := (fun stock => FMV (Stock.investmentinfo stock)) <$> [stock_A; stock_C] in
  totalinvestment self = (self, Ok (total fmv))
  ∧ compPfWeights self = (self, Ok ((fun x => fdiv (Fin x) (Fin (total fmv))) <$> fmv)).
Proof.
  intros self fmv.
  assert (addStocks (H:=rounded_numpy) [stock_A; stock_C] __init__ = (self, Ok ())) as Hadd
    by (vm_compute; reflexivity).
  destruct (totalinvestment_and_weights (H:=rounded_numpy) [stock_A; stock_C] self
              ltac:(discriminate) Hadd) as (_ & Htot & _ & Hw).
  split; [exact Htot | exact Hw].
Defined.

(** ** Inserting price columns *)

Lemma length_RangeIndex n : length (RangeIndex n) = n.
Proof. unfold RangeIndex. by rewrite length_fmap, length_seq. Qed.

(** What an [insert] that does not raise has done. *)
Lemma insert_ok d loc column value d' :
  pd.insert d loc column value = (d', Ok ()) →
  ∃ values, value = Array1D values ∧ (column ∉ columns d)
    ∧ (loc ≤ length (data d))%nat
    ∧ columns d' = take loc (columns d) ++ column :: drop loc (columns d)
    ∧ (index d ≠ [] →
       length values = length (index d)
       ∧ d' = {| index := index d; index_name := index_name d;
                 data := take loc (data d) ++ (column, values) :: drop loc (data d) |}).
Proof.
  unfold pd.insert. intros Hins.
  destruct (decide (column ∈ columns d)) as [|Hnew]; [done|].
  destruct value as [values|c1 c2 more].
  2: { by repeat case_match. }
  exists values. split; [done|]. split; [done|].
  case_bool_decide as Hno.
  - destruct Hno as [Hno Hrows]. cbn [index index_name data] in Hins.
    rewrite decide_True in Hins by (by rewrite length_RangeIndex).
    rewrite length_fmap in Hins.
    destruct (decide (loc ≤ length (data d))%nat); [|done].
    injection Hins as <-. split; [done|]. split.
    + unfold columns. cbn [data].
      rewrite fmap_app, fmap_cons, fmap_take, fmap_drop, <-!list_fmap_compose.
      reflexivity.
    + intros Hrows'. by destruct (index d).
  - destruct (decide (length values = length (index d))); [|done].
    destruct (decide (loc ≤ length (data d))%nat); [|done].
    injection Hins as <-. split; [done|]. split.
    + unfold columns. cbn [data]. by rewrite fmap_app, fmap_cons, fmap_take, fmap_drop.
    + done.
Qed.

Lemma insert_ok_data d loc column value d' :
  pd.insert d loc column value = (d', Ok ()) →
  length (data d') = S (length (data d)).
Proof.
  intros (values & _ & _ & Hloc & Hcols & _)%insert_ok.
  apply (f_equal length) in Hcols. unfold columns in Hcols.
  rewrite length_fmap in Hcols. rewrite Hcols.
  rewrite length_app. cbn [length]. rewrite length_take, length_drop, length_fmap. lia.
Qed.

(** At the end of a frame, [insert] raises nothing but [ValueError]. *)
Lemma insert_raises d column value d' e :
  pd.insert d (length (columns d)) column value = (d', Raise e) →
  ∃ msg, e = ValueError msg.
Proof.
  unfold pd.insert. intros Hins.
  destruct (decide (column ∈ columns d)); [injection Hins as _ <-; eauto|].
  destruct value as [values|c1 c2 more].
  2: { repeat case_match; injection Hins as _ <-; eauto. }
  unfold columns in Hins. rewrite length_fmap in Hins.
  case_bool_decide.
  - cbn [index data] in Hins. rewrite length_fmap in Hins.
    destruct (decide _); [|injection Hins as _ <-; eauto].
    by rewrite decide_True in Hins.
  - destruct (decide _); [|injection Hins as _ <-; eauto].
    by rewrite decide_True in Hins.
Qed.

(** A label that is in the frame already is refused, and the frame stays
    as it is. *)
Lemma insert_existing_label d loc column value :
  column ∈ columns d →
  pd.insert d loc column value =
  (d, Raise (ValueError ("cannot insert " +:+ column +:+ ", already exists"))).
Proof. intros Hin. unfold pd.insert. by rewrite decide_True. Qed.

(** An array with two axes is refused, and the frame stays as it is. *)
Lemma insert_Array2D d loc column column1 column2 more :
  ∃ msg, pd.insert d loc column (Array2D column1 column2 more)
         = (d, Raise (ValueError msg)).
Proof. unfold pd.insert. repeat case_match; eauto. Qed.

(** The values of a label that a frame has once. *)
Lemma filter_label_once (cols : list (string * list npfloat)) label values :
  NoDup cols.*1 → (label, values) ∈ cols →
  filter (fun c => c.1 = label) cols = [(label, values)].
Proof.
  induction cols as [|[l v] cols IH]; intros Hdup Hin.
  { by apply elem_of_nil in Hin. }
  cbn [fmap list_fmap fst] in Hdup. apply NoDup_cons in Hdup as [Hl Hdup].
  assert (∀ c, c ∈ cols → c.1 ≠ l) as Hne.
  { intros c Hc Heq. apply Hl. rewrite <-Heq. apply list_elem_of_fmap. by exists c. }
  apply elem_of_cons in Hin as [[= <- <-]|Hin].
  - rewrite filter_cons_True by done. f_equal.
    apply elem_of_nil_inv. intros c [Hc Hcin]%list_elem_of_filter. by apply (Hne c).
  - rewrite filter_cons_False; [by apply IH|].
    cbn. intros ->. by apply (Hne _ Hin).
Qed.

Lemma getitem_values_once df label values :
  NoDup (columns df) → (label, values) ∈ data df →
  getitem_values df label = Ok (Array1D values).
Proof.
  intros Hdup Hin. unfold getitem_values. by rewrite (filter_label_once _ _ values).
Qed.

(** A label of the frame is no [KeyError]. *)
Lemma getitem_values_label df label :
  label ∈ columns df → ∃ value, getitem_values df label = Ok value.
Proof.
  intros (c & -> & Hc)%list_elem_of_fmap. unfold getitem_values.
  assert (c ∈ filter (fun c' => c'.1 = c.1) (data df)) as Hin
    by (by apply list_elem_of_filter).
  destruct (filter _ _) as [|c1 [|c2 more]]; [by apply elem_of_nil in Hin|eauto..].
Qed.

(** The values of a label have a row for every entry of the index. *)
Lemma getitem_values_len df label value :
  pd.aligned df → getitem_values df label = Ok value → len value = length (index df).
Proof.
  unfold pd.aligned, getitem_values. intros Haligned Hvalue.
  assert (∀ c, c ∈ filter (fun c' => c'.1 = label) (data df) →
               length c.2 = length (index df)) as Hlen.
  { intros c [_ Hc]%list_elem_of_filter.
    by apply (proj1 (Forall_forall _ _) Haligned). }
  destruct (filter _ _) as [|c1 [|c2 more]]; [done| |].
  - injection Hvalue as <-. apply Hlen. left.
  - injection Hvalue as <-. apply Hlen. left.
Qed.

(** A frame all of whose labels have values with one axis has no label
    twice. *)
Lemma getitem_values_NoDup df :
  (∀ label, label ∈ columns df → ∃ values, getitem_values df label = Ok (Array1D values)) →
  NoDup (columns df).
Proof.
  unfold getitem_values, columns. induction (data df) as [|[l v] cols IH]; intros Hone.
  { constructor. }
  cbn [fmap list_fmap fst].
  assert (l ∉ cols.*1) as Hl.
  { destruct (Hone l) as [values Hvalues]; [left|].
    rewrite filter_cons_True in Hvalues by done.
    intros (c & Hc & Hin)%list_elem_of_fmap.
    assert (c ∈ filter (fun c' => c'.1 = l) cols) as Hfilter
      by (by apply list_elem_of_filter).
    destruct (filter _ cols) as [|c1 more]; [by apply elem_of_nil in Hfilter|done]. }
  constructor; [done|]. apply IH. intros label Hlabel.
  destruct (Hone label) as [values Hvalues]; [by right|].
  rewrite filter_cons_False in Hvalues; [eauto|].
  cbn. intros ->. done.
Qed.

(** For a frame without a label twice the loop inserts the columns with
    their values. *)
Lemma insert_all_columns d df cols :
  NoDup (columns df) → cols ⊆ data df →
  insert_all d df cols.*1 = insert_columns d cols.
Proof.
  intros Hdup. revert d. induction cols as [|[c v] rest IH]; intros d Hsub; [done|].
  cbn [insert_all insert_columns fmap list_fmap fst].
  rewrite (getitem_values_once df c v); [|done|apply Hsub; left].
  destruct (pd.insert _ _ _ _) as [d' [[]|e]]; [|done].
  apply IH. intros x Hx. apply Hsub. by right.
Qed.

Lemma merge_columns d df :
  NoDup (columns df) →
  merge d df =
  match insert_columns d (data df) with
  | (d1, Ok _) =>
      match pd.set_index d1 (index df) with
      | (d2, Ok _) => (pd.index_rename d2 "Date", Ok ())
      | (d2, Raise e) => (d2, Raise e)
      end
  | (d1, Raise e) => (d1, Raise e)
  end.
Proof. intros Hdup. unfold merge, columns. by rewrite insert_all_columns. Qed.

Lemma insert_all_ok_data d df labels d' :
  insert_all d df labels = (d', Ok ()) →
  length (data d') = (length (data d) + length labels)%nat.
Proof.
  revert d. induction labels as [|label rest IH]; intros d Hins; cbn in Hins.
  - injection Hins as <-. cbn. lia.
  - destruct (getitem_values df label) as [value|]; [|done].
    destruct (pd.insert _ _ _ _) as [d1 [[]|e]] eqn:E; [|done].
    apply insert_ok_data in E. rewrite (IH _ Hins), E. cbn. lia.
Qed.

(** A loop that did not raise has found every label once. *)
Lemma insert_all_ok_once d df labels d' :
  insert_all d df labels = (d', Ok ()) →
  ∀ label, label ∈ labels → ∃ values, getitem_values df label = Ok (Array1D values).
Proof.
  revert d. induction labels as [|l rest IH]; intros d Hins label Hlabel.
  { by apply elem_of_nil in Hlabel. }
  cbn [insert_all] in Hins.
  destruct (getitem_values df l) as [value|] eqn:Hvalue; [|done].
  destruct (pd.insert _ _ _ _) as [d1 [[]|e]] eqn:E; [|done].
  apply insert_ok in E as (values & -> & _).
  apply elem_of_cons in Hlabel as [->|Hlabel]; [eauto | by eapply IH].
Qed.

(** The loop raises nothing but [ValueError]. *)
Lemma insert_all_raises d df labels d' e :
  labels ⊆ columns df → insert_all d df labels = (d', Raise e) →
  ∃ msg, e = ValueError msg.
Proof.
  revert d. induction labels as [|l rest IH]; intros d Hsub Hins; [done|].
  cbn [insert_all] in Hins.
  destruct (getitem_values_label df l) as [value Hvalue]; [apply Hsub; left|].
  rewrite Hvalue in Hins.
  destruct (pd.insert _ _ _ _) as [d1 [[]|e1]] eqn:E.
  - eapply IH; [|exact Hins]. intros x Hx. apply Hsub. by right.
  - injection Hins as _ <-. by eapply insert_raises.
Qed.

(** [_addStockData] raises nothing but [ValueError]. *)
Lemma merge_raises d df d' e :
  merge d df = (d', Raise e) → ∃ msg, e = ValueError msg.
Proof.
  unfold merge. intros Hmerge.
  destruct (insert_all d df (columns df)) as [d1 [[]|e1]] eqn:Hins.
  - unfold pd.set_index in Hmerge. destruct (decide _); [done|].
    injection Hmerge as _ <-. eauto.
  - injection Hmerge as _ <-. by eapply insert_all_raises.
Qed.

(** A merge that did not raise: the frame [df] has no label twice, and
    the labels of the frame are the labels it had, followed by the labels
    of [df]. *)
Lemma merge_ok_columns d df d' :
  merge d df = (d', Ok ()) →
  NoDup (columns df) ∧ columns d' = columns d ++ columns df.
Proof.
  unfold merge. intros Hmerge.
  destruct (insert_all d df (columns df)) as [d1 [[]|e1]] eqn:Hins; [|done].
  assert (NoDup (columns df)) as Hdup.
  { apply getitem_values_NoDup. by eapply insert_all_ok_once. }
  split; [done|].
  assert (columns d1 = columns d ++ columns df) as Hcols.
  { clear Hmerge Hdup. revert Hins. generalize (columns df). intros labels.
    revert d. induction labels as [|l rest IH]; intros d Hins; cbn [insert_all] in Hins.
    - injection Hins as <-. by rewrite app_nil_r.
    - destruct (getitem_values df l) as [value|]; [|done].
      destruct (pd.insert _ _ _ _) as [d2 [[]|e]] eqn:E; [|done].
      apply insert_ok in E as (values & _ & _ & _ & Hcols & _).
      rewrite (IH _ Hins), Hcols, firstn_all, drop_all. by rewrite <-app_assoc. }
  unfold pd.set_index in Hmerge. destruct (decide _); [|done].
  by injection Hmerge as <-.
Qed.

Lemma insert_into_empty column values :
  pd.insert pd.empty 0 column (Array1D values) =
  ({| index := RangeIndex (length values); index_name := None;
      data := [(column, values)] |}, Ok ()).
Proof.
  unfold pd.insert. rewrite decide_False by apply not_elem_of_nil.
  cbn [index index_name data pd.empty length len fmap list_fmap].
  case_bool_decide as Hno.
  - cbn [index data]. rewrite decide_True by (by rewrite length_RangeIndex).
    by rewrite decide_True by (cbn; lia).
  - assert (length values = 0%nat) as Hnil.
    { destruct (length values); [done|]. exfalso. apply Hno. lia. }
    rewrite Hnil. cbn [index length data].
    rewrite decide_True by done. by rewrite decide_True by (cbn; lia).
Qed.

(** The frame of a fresh portfolio after the merge of a one-column
    frame. *)
Lemma merge_empty_ok df d :
  merge pd.empty df = (d, Ok ()) → length (data d) = 1%nat →
  data d = data df ∧ index d = index df.
Proof.
  intros Hmerge Hlen.
  destruct (merge_ok_columns _ _ _ Hmerge) as [Hdup Hcols].
  rewrite merge_columns in Hmerge by done.
  apply (f_equal length) in Hcols. unfold columns in Hcols.
  rewrite length_app, !length_fmap, Hlen in Hcols. cbn in Hcols.
  destruct (data df) as [|[c v] [|??]]; cbn in Hcols; try lia.
  cbn [insert_columns] in Hmerge.
  change (length (columns pd.empty)) with 0%nat in Hmerge.
  rewrite insert_into_empty in Hmerge.
  unfold pd.set_index in Hmerge. destruct (decide _); [|done].
  by injection Hmerge as <-.
Qed.

(** ** A single stock *)

Lemma historicalMeanReturn_ext d d' freq :
  length (index d) = length (index d') → data d = data d' →
  historicalMeanReturn d freq = historicalMeanReturn d' freq.
Proof.
  unfold historicalMeanReturn, dailyReturns. intros -> ->.
  repeat case_decide; done.
Qed.

Lemma historicalMeanReturn_length d freq means :
  historicalMeanReturn d freq = Ok means → length means = length (data d).
Proof.
  unfold historicalMeanReturn, dailyReturns.
  repeat case_decide; try done. cbn. intros [= <-]. by rewrite !length_fmap.
Qed.

Lemma dot_one (m : npfloat) : dot [m] [Fin 1] = m.
Proof.
  destruct m as [|q]; [done|]. cbn. f_equal. ring.
Qed.

Lemma weights_of_single self info :
  rows (portfolio self) = [info] →
  __totalinvestment self = Some (total [FMV info]) →
  0 < total [FMV info] →
  weights_of self = Ok [Fin 1].
Proof.
  unfold weights_of. intros -> -> Hpos. cbn [fmap list_fmap].
  assert (total [FMV info] ≠ 0) as Hnz.
  { intros Hz. rewrite Hz in Hpos. by apply Qclt_not_eq in Hpos. }
  rewrite fdiv_fin by done. do 3 f_equal.
  cbn [total foldr] in *. field. intros Hz. apply Hnz. rewrite Hz. ring.
Qed.

(** C8. When a single stock has been added to a fresh portfolio, the
    weights are [[1.0]], and for every [freq] the expected return of the
    portfolio is exactly the stock's own [compExpectedReturn(freq)]: the
    stock's series has one value, which is what [compPfExpectedReturn]
    returns and caches, and when the one raises (a non-positive [freq])
    so does the other, with the same exception; for a positive [freq]
    neither raises. *)
Theorem single_stock_portfolio `{NumPy} (stock : Stock.t) (self : t) :
  addStock stock __init__ = (self, Ok ()) →
  compPfWeights self = (self, Ok [Fin 1])
  ∧ (∀ freq,
       match Stock.compExpectedReturn stock freq with
       | Ok series =>
           ∃ er, series = [er]
             ∧ compPfExpectedReturn freq self = (set_expectedReturn (Some er) self, Ok er)
       | Raise e => compPfExpectedReturn freq self = (self, Raise e)
       end)
  ∧ (∀ freq, (0 < freq)%Z → ¬ raises (Stock.compExpectedReturn stock freq))
  ∧ ∃ er, Stock.compExpectedReturn stock 252 = Ok [er] ∧ expectedReturn self = Some er.
Proof.
  intros Hadd.
  apply addStock_ok in Hadd as (d & Hmerge & Hpos & Hstat).
  change (pf_stock_data __init__) with pd.empty in Hmerge.
  change (rows (portfolio (entered stock __init__)))
    with [Stock.investmentinfo stock] in Hpos, Hstat.
  cbn [fmap list_fmap] in Hpos, Hstat.
  apply statistics_ok in Hstat as (er0 & vol0 & sh0 & Her0 & _ & _ & ->).
  set (s1 := set___totalinvestment _ _) in *.
  assert (weights_of s1 = Ok [Fin 1]) as Hw.
  { by apply (weights_of_single s1 (Stock.investmentinfo stock)). }
  assert (pf_stock_data s1 = d) as Hd by done.
  (* one column only *)
  assert (length (data d) = 1%nat) as Hone.
  { unfold expected_return_of in Her0. rewrite Hd, Hw in Her0.
    destruct (historicalMeanReturn d 252) as [means|] eqn:Hm; [|done].
    cbn [mbind result_bind] in Her0. unfold weightedMean in Her0.
    destruct (decide _) as [Hlen|]; [|done].
    by rewrite <-(historicalMeanReturn_length _ _ _ Hm). }
  destruct (merge_empty_ok _ _ Hmerge Hone) as [Hdata Hindex].
  assert (∀ freq, historicalMeanReturn d freq =
                  Stock.compExpectedReturn stock freq) as Hsame.
  { intros freq. apply historicalMeanReturn_ext; [by rewrite Hindex | done]. }
  assert (∀ freq obj, pf_stock_data obj = d → weights_of obj = Ok [Fin 1] →
            match Stock.compExpectedReturn stock freq with
            | Ok series =>
                ∃ er, series = [er] ∧ expected_return_of freq obj = Ok er
            | Raise e => expected_return_of freq obj = Raise e
            end) as Hreturn.
  { intros freq obj Hobj Hwobj. unfold expected_return_of.
    rewrite Hobj, Hwobj, Hsame.
    destruct (Stock.compExpectedReturn stock freq) as [series|e] eqn:Hs; [|done].
    rewrite <-Hsame in Hs. apply historicalMeanReturn_length in Hs.
    rewrite Hone in Hs. destruct series as [|er [|??]]; try done.
    exists er. split; [done|]. cbn [mbind result_bind]. unfold weightedMean.
    rewrite decide_True by done. by rewrite dot_one. }
  split; [|split; [|split]].
  - rewrite compPfWeights_run. by rewrite <-Hw.
  - intros freq. rewrite compPfExpectedReturn_run.
    specialize (Hreturn freq s1 Hd Hw).
    destruct (Stock.compExpectedReturn stock freq) as [series|e].
    + destruct Hreturn as (er & -> & Her). exists er. split; [done|].
      change (expected_return_of freq _) with (expected_return_of freq s1).
      by rewrite Her.
    + change (expected_return_of freq _) with (expected_return_of freq s1).
      by rewrite Hreturn.
  - intros freq Hfreq. rewrite <-Hsame.
    destruct (expected_return_of_any_freq _ _ freq _ Her0 Hfreq) as [v Hv].
    unfold expected_return_of in Hv. rewrite Hd in Hv.
    destruct (historicalMeanReturn d freq); [cbn; tauto | done].
  - specialize (Hreturn 252%Z s1 Hd Hw).
    destruct (Stock.compExpectedReturn stock 252) as [series|e].
    + destruct Hreturn as (er & -> & Her). exists er. split; [done|].
      cbn. congruence.
    + congruence.
Qed.

Lemma single_stock_portfolio_witness :
  addStock (H:=rounded_numpy) stock_A __init__ = (portfolio_A, Ok ())
  ∧ compPfWeights portfolio_A = (portfolio_A, Ok [Fin 1])
  ∧ ∃ er, Stock.compExpectedReturn stock_A 252 = Ok [er]
        ∧ expectedReturn portfolio_A = Some er.
Proof.
  assert (addStock (H:=rounded_numpy) stock_A __init__ = (portfolio_A, Ok ())) as Hadd
    by (vm_compute; reflexivity).
  destruct (single_stock_portfolio (H:=rounded_numpy) stock_A portfolio_A Hadd)
    as (Hw & _ & _ & Her).
  split; [exact Hadd | split; [exact Hw | exact Her]].
Defined.

(** ** Volatility of a stock *)

Lemma pct_change_spec prices : pct_change prices = spec_daily_returns prices.
Proof.
  unfold pct_change, spec_daily_returns.
  destruct prices as [|p0 rest]; [done|].
  replace (length (p0 :: rest) - 1)%nat with (length rest) by (cbn; lia).
  cbn [tail].
  revert p0. induction rest as [|p1 rest IH]; intros p0; [done|].
  transitivity (fdiv (fsub p1 p0) p0
                :: zip_with (fun prev cur => fdiv (fsub cur prev) prev) (p1 :: rest) rest);
    [reflexivity|].
  rewrite IH. cbn [length seq fmap list_fmap]. f_equal.
  rewrite <-(fmap_S_seq 1), <-list_fmap_compose.
  apply list_fmap_ext. intros i t Ht.
  apply lookup_seq in Ht as [-> _]. cbn [compose].
  destruct i; reflexivity.
Qed.

(** C7. For every stock with a non-empty price series and every [freq],
    positive or not, [compVolatility(freq)] returns, for each price
    column of the stock (one, for a stock with a single price series),
    the standard deviation of the daily percentage returns of that
    column multiplied by [sqrt(freq)]. *)
Theorem stock_volatility `{NumPy} (stock : Stock.t) (freq : Z) :
  index (Stock.stock_data stock) ≠ [] →
  Stock.compVolatility stock freq =
    Ok ((fun c => spec_volatility c.2 freq) <$> data (Stock.stock_data stock))
  ∧ ∀ label prices, data (Stock.stock_data stock) = [(label, prices)] →
      Stock.compVolatility stock freq =
        Ok [fmul (pd.std (spec_daily_returns prices)) (np_sqrt (of_Z freq))].
Proof.
  intros Hne.
  assert (Stock.compVolatility stock freq =
          Ok ((fun c => spec_volatility c.2 freq) <$> data (Stock.stock_data stock))) as Hvol.
  { unfold Stock.compVolatility, Stock.compDailyReturns, dailyReturns.
    rewrite decide_False by (by destruct (index (Stock.stock_data stock))).
    cbn [mbind result_bind data]. f_equal.
    rewrite <-list_fmap_compose. apply list_fmap_ext. intros _ [label prices] _.
    cbn [compose snd]. unfold spec_volatility. by rewrite pct_change_spec. }
  split; [exact Hvol|].
  intros label prices Hdata. rewrite Hvol, Hdata. reflexivity.
Qed.

Lemma stock_volatility_witness :
  Stock.compVolatility (H:=rounded_numpy) stock_A 252 =
  Ok [fmul (pd.std (H:=rounded_numpy)
              (spec_daily_returns
                 [Fin (Qc_of_Z 100); Fin (Qc_of_Z 110); Fin (Qc_of_Z 99)]))
           (np_sqrt (H:=rounded_numpy) (of_Z 252))].
Proof.
  destruct (stock_volatility (H:=rounded_numpy) stock_A 252) as [_ Hone].
  - discriminate.
  - apply (Hone "A"). reflexivity.
Defined.

(** ** Skewness and kurtosis of a stock *)

(** C6 as it is claimed, for the constructor [Stock.__init__]: the cached
    skewness and kurtosis would be those of the daily returns of the
    stock.  It fails for [stock_D]: the returns are constant, so that
    their skewness and kurtosis are [0]; the cached values are not. *)
Lemma skew_kurtosis_are_not_of_returns :
  Stock.__init__ (H:=rounded_numpy) (Stock.investmentinfo stock_D) (Stock.stock_data stock_D)
    = Ok stock_D
  ∧ Stock.compDailyReturns stock_D
    = Ok {| index := [2; 3; 4; 5]%Z; index_name := None;
            data := [("D", pct_change doubling_prices)] |}
  ∧ pd.kurt (pct_change doubling_prices) = Fin 0
  ∧ Stock.kurtosis stock_D ≠ pd.kurt (pct_change doubling_prices)
  ∧ pd.skew (H:=rounded_numpy) (pct_change doubling_prices) = Fin 0
  ∧ Stock.skew stock_D ≠ pd.skew (H:=rounded_numpy) (pct_change doubling_prices).
Proof.
  split; [vm_compute; reflexivity|].
  split; [reflexivity|].
  split; [vm_compute; reflexivity|].
  split; [|split; [vm_compute; reflexivity|]].
  - apply (bool_decide_eq_false_1 (Stock.kurtosis stock_D = _)).
    vm_compute. reflexivity.
  - apply (bool_decide_eq_false_1 (Stock.skew stock_D = _)).
    vm_compute. reflexivity.
Qed.

(** C6, amended. The skewness and the kurtosis that the constructor
    caches are those of the first column of [stock_data] itself, the raw
    price series; they are computed once, from the price data alone, and
    no [freq] enters them: the constructed stock holds the data it was
    given, and [compExpectedReturn(freq)] and [compVolatility(freq)]
    read that data only. *)
Theorem skew_kurtosis_of_prices `{NumPy} (investmentinfo : InvestmentInfo)
    (stock_data : DataFrame) (stock : Stock.t) :
  Stock.__init__ investmentinfo stock_data = Ok stock →
  Stock.stock_data stock = stock_data
  ∧ (∃ label prices rest,
       data stock_data = (label, prices) :: rest
       ∧ Stock.skew stock = pd.skew prices
       ∧ Stock.kurtosis stock = pd.kurt prices)
  ∧ (∀ freq, Stock.compExpectedReturn stock freq = historicalMeanReturn stock_data freq)
  ∧ (∀ freq other, Stock.stock_data other = stock_data →
       Stock.compVolatility other freq = Stock.compVolatility stock freq).
Proof.
  unfold Stock.__init__. intros Hinit.
  destruct (Stock.compExpectedReturn _ 252) as [er|]; [|done].
  cbn [mbind result_bind] in Hinit.
  destruct (Stock.compVolatility _ 252) as [vol|]; [|done].
  cbn [mbind result_bind] in Hinit.
  unfold Stock.__compSkew, Stock.__compKurtosis in Hinit.
  cbn [Stock.stock_data] in Hinit.
  destruct (data stock_data) as [|[label prices] rest] eqn:Hdata; [done|].
  cbn in Hinit. injection Hinit as <-. cbn.
  split; [done|]. split; [by exists label, prices, rest|]. split; [done|].
  intros freq other Hother.
  unfold Stock.compVolatility, Stock.compDailyReturns. by rewrite Hother.
Qed.

Lemma skew_kurtosis_of_prices_witness :
  ∃ label prices rest,
    data (Stock.stock_data stock_D) = (label, prices) :: rest
    ∧ Stock.skew stock_D = pd.skew (H:=rounded_numpy) prices
    ∧ Stock.kurtosis stock_D = pd.kurt prices.
Proof.
  destruct (skew_kurtosis_of_prices (H:=rounded_numpy)
              (Stock.investmentinfo stock_D) (Stock.stock_data stock_D) stock_D)
    as (_ & Hprices & _).
  - vm_compute. reflexivity.
  - exact Hprices.
Defined.

(** ** The merge of price columns *)

(** A column of the right length under a new label goes to the end of a
    frame that has rows. *)
Lemma insert_new_column d column value :
  index d ≠ [] → length value = length (index d) → column ∉ columns d →
  pd.insert d (length (columns d)) column (Array1D value) =
  ({| index := index d; index_name := index_name d;
      data := data d ++ [(column, value)] |}, Ok ()).
Proof.
  intros Hrows Hlen Hnew. unfold pd.insert.
  rewrite decide_False by done.
  rewrite bool_decide_eq_false_2 by (intros [? _]; by destruct (index d)).
  rewrite decide_True by done.
  unfold columns. rewrite length_fmap, decide_True by done.
  by rewrite firstn_all, drop_all.
Qed.

(** A column of another length is refused by a frame that has rows, and
    the frame stays as it is. *)
Lemma insert_wrong_length d loc column value :
  index d ≠ [] → len value ≠ length (index d) →
  ∃ msg, pd.insert d loc column value = (d, Raise (ValueError msg)).
Proof.
  intros Hrows Hlen. unfold pd.insert.
  destruct (decide (column ∈ columns d)); [eauto|].
  rewrite bool_decide_eq_false_2 by (intros [? _]; by destruct (index d)).
  destruct value as [values|c1 c2 more]; cbn [len] in Hlen.
  - rewrite decide_False by done. eauto.
  - cbn [len]. rewrite decide_False by done. eauto.
Qed.

Lemma insert_columns_new cols d :
  index d ≠ [] →
  Forall (fun c => length c.2 = length (index d)) cols →
  NoDup cols.*1 → (∀ label, label ∈ cols.*1 → label ∉ columns d) →
  insert_columns d cols =
  ({| index := index d; index_name := index_name d; data := data d ++ cols |}, Ok ()).
Proof.
  revert d. induction cols as [|[c v] rest IH]; intros d Hrows Hlen Hdup Hnew.
  - cbn. rewrite app_nil_r. by destruct d.
  - cbn [insert_columns]. apply Forall_cons in Hlen as [Hv Hlen].
    cbn [fmap list_fmap fst] in Hdup, Hnew. apply NoDup_cons in Hdup as [Hc Hdup].
    rewrite insert_new_column; [|done|done|apply Hnew; left].
    rewrite IH; cbn [index index_name data]; [|done|done|done|].
    + by rewrite <-app_assoc.
    + intros label Hlabel. unfold columns. cbn [data]. rewrite fmap_app.
      intros [Hin|Hin%list_elem_of_singleton]%elem_of_app.
      * by apply (Hnew label); [right|].
      * cbn in Hin. by subst.
Qed.

(** The merge keeps no record of the dates it replaces: with as many rows
    as the frame has and with new labels, the columns are appended and
    the index of the frame becomes the index of [df]. *)
Lemma merge_same_length d df :
  index d ≠ [] → pd.aligned df → length (index df) = length (index d) →
  NoDup (columns df) → (∀ label, label ∈ columns df → label ∉ columns d) →
  merge d df =
  ({| index := index df; index_name := Some "Date"; data := data d ++ data df |}, Ok ()).
Proof.
  intros Hrows Haligned Hlen Hdup Hnew. rewrite merge_columns by done.
  rewrite insert_columns_new; [|done| |done|done].
  - unfold pd.set_index. cbn [index data]. by rewrite decide_True.
  - eapply Forall_impl; [exact Haligned|]. intros c Hc. cbn in *. congruence.
Qed.

Lemma merge_wrong_length d df :
  index d ≠ [] → pd.aligned df →
  length (index df) ≠ length (index d) →
  ∃ msg, merge d df = (d, Raise (ValueError msg)).
Proof.
  intros Hrows Haligned Hlen. unfold merge.
  destruct (columns df) as [|c rest] eqn:Hcols.
  - cbn [insert_all]. unfold pd.set_index.
    rewrite decide_False by done. eauto.
  - cbn [insert_all].
    destruct (getitem_values_label df c) as [value Hvalue]; [rewrite Hcols; left|].
    rewrite Hvalue.
    destruct (insert_wrong_length d (length (columns d)) c value Hrows) as [msg ->];
      [|eauto].
    by rewrite (getitem_values_len df c value Haligned Hvalue).
Qed.

(** ** What a merge accepts *)

(** C2 as it is claimed fails twice.  [stock_B] has the dates 4, 5, 6,
    disjoint from the dates 1, 2, 3 of the frame of [portfolio_A]: the
    add does not raise, and the index of the frame is now that of
    [stock_B].  And [stock_A] has the very index of the frame of
    [portfolio_A], yet adding it raises, for its column is there
    already. *)
Lemma disjoint_dates_are_accepted :
  index (pf_stock_data portfolio_A) = [1; 2; 3]%Z
  ∧ index (Stock.stock_data stock_B) = [4; 5; 6]%Z
  ∧ (addStock (H:=rounded_numpy) stock_B portfolio_A).2 = Ok ()
  ∧ index (pf_stock_data (addStock (H:=rounded_numpy) stock_B portfolio_A).1) = [4; 5; 6]%Z
  ∧ columns (pf_stock_data (addStock (H:=rounded_numpy) stock_B portfolio_A).1) = ["A"; "B"]
  ∧ index (Stock.stock_data stock_A) = index (pf_stock_data portfolio_A)
  ∧ (addStock (H:=rounded_numpy) stock_A portfolio_A).2
    = Raise (ValueError "cannot insert A, already exists").
Proof. repeat split; vm_compute; reflexivity. Qed.

(** A merge that did not raise has found none of the labels of [df] in
    the frame. *)
Lemma insert_all_ok_new d df labels d' :
  insert_all d df labels = (d', Ok ()) →
  ∀ label, label ∈ labels → label ∉ columns d.
Proof.
  revert d. induction labels as [|l rest IH]; intros d Hins label Hlabel.
  { by apply elem_of_nil in Hlabel. }
  cbn [insert_all] in Hins.
  destruct (getitem_values df l) as [value|]; [|done].
  destruct (pd.insert _ _ _ _) as [d1 [[]|e]] eqn:E; [|done].
  apply insert_ok in E as (values & _ & Hnew & _ & Hcols & _).
  apply elem_of_cons in Hlabel as [->|Hlabel]; [done|].
  intros Hin. apply (IH _ Hins label Hlabel).
  rewrite Hcols, firstn_all, drop_all. apply elem_of_app. by left.
Qed.

Lemma merge_ok_new d df d' :
  merge d df = (d', Ok ()) → ∀ label, label ∈ columns df → label ∉ columns d.
Proof.
  unfold merge. intros Hmerge.
  destruct (insert_all d df (columns df)) as [d1 [[]|e1]] eqn:Hins; [|done].
  by eapply insert_all_ok_new.
Qed.

(** C2, amended. On a portfolio whose frame of prices has rows: when
    the stock has another number of rows than the frame, [addStock]
    raises a [ValueError] and the frame is as before; when it has the
    same number of rows, the merge does not raise if the labels of the
    stock are distinct and new to the frame, whatever the dates are: the
    columns are appended and the index of the frame becomes the index of
    the stock, nothing being compared - so a stock with the index of the
    frame is merged, and the index stays -; and [addStock] raises a
    [ValueError] if a label of the stock occurs twice in its frame or is
    in the frame of prices already, whatever the dates are. *)
Theorem merge_compares_lengths_only `{NumPy} (stock : Stock.t) (self : t) :
  index (pf_stock_data self) ≠ [] →
  pd.aligned (Stock.stock_data stock) →
  (length (index (Stock.stock_data stock)) ≠ length (index (pf_stock_data self)) →
     (∃ msg, (addStock stock self).2 = Raise (ValueError msg))
     ∧ pf_stock_data (addStock stock self).1 = pf_stock_data self)
  ∧ (length (index (Stock.stock_data stock)) = length (index (pf_stock_data self)) →
     (NoDup (columns (Stock.stock_data stock)) →
      (∀ label, label ∈ columns (Stock.stock_data stock) →
                label ∉ columns (pf_stock_data self)) →
      let merged :=
        {| index := index (Stock.stock_data stock);
           index_name := Some "Date";
           data := data (pf_stock_data self) ++ data (Stock.stock_data stock) |} in
      _addStockData (Stock.stock_data stock) self = (set_pf_stock_data merged self, Ok ())
      ∧ pf_stock_data (addStock stock self).1 = merged
      ∧ (index (Stock.stock_data stock) = index (pf_stock_data self) →
         index (pf_stock_data (addStock stock self).1) = index (pf_stock_data self)))
     ∧ (¬ (NoDup (columns (Stock.stock_data stock))
           ∧ ∀ label, label ∈ columns (Stock.stock_data stock) →
                      label ∉ columns (pf_stock_data self)) →
        (∃ msg, (_addStockData (Stock.stock_data stock) self).2 = Raise (ValueError msg))
        ∧ ∃ msg, (addStock stock self).2 = Raise (ValueError msg))).
Proof.
  intros Hrows Haligned. split.
  - intros Hlen. rewrite addStock_run.
    change (pf_stock_data (entered stock self)) with (pf_stock_data self).
    destruct (merge_wrong_length _ _ Hrows Haligned Hlen) as [msg ->].
    split; [by exists msg | done].
  - intros Hlen. split.
    + intros Hdup Hnew merged.
      assert (merge (pf_stock_data self) (Stock.stock_data stock) = (merged, Ok ()))
        as Hmerge by (by apply merge_same_length).
      assert (pf_stock_data (addStock stock self).1 = merged) as Hafter.
      { rewrite addStock_run, Hmerge.
        by destruct (keeps_recompute (set_pf_stock_data merged (entered stock self)))
          as (_ & _ & ->). }
      split; [|split; [exact Hafter|]].
      * by rewrite _addStockData_run, Hmerge.
      * intros <-. by rewrite Hafter.
    + intros Hnot. rewrite addStock_run, _addStockData_run.
      change (pf_stock_data (entered stock self)) with (pf_stock_data self).
      destruct (merge (pf_stock_data self) (Stock.stock_data stock))
        as [d [[]|e]] eqn:Hmerge.
      * destruct Hnot. split; [by apply (merge_ok_columns _ _ _ Hmerge)|].
        by apply (merge_ok_new _ _ _ Hmerge).
      * destruct (merge_raises _ _ _ _ Hmerge) as [msg ->]. cbn [snd]. eauto.
Qed.

Lemma merge_compares_lengths_only_witness :
  ((∃ msg, (addStock (H:=rounded_numpy) stock_S portfolio_A).2 = Raise (ValueError msg))
   ∧ pf_stock_data (addStock (H:=rounded_numpy) stock_S portfolio_A).1
     = pf_stock_data portfolio_A)
  ∧ pf_stock_data (addStock (H:=rounded_numpy) stock_B portfolio_A).1
    = {| index := index (Stock.stock_data stock_B);
         index_name := Some "Date";
         data := data (pf_stock_data portfolio_A) ++ data (Stock.stock_data stock_B) |}
  ∧ index (pf_stock_data (addStock (H:=rounded_numpy) stock_C portfolio_A).1)
    = index (pf_stock_data portfolio_A)
  ∧ (∃ msg, (addStock (H:=rounded_numpy) stock_BB portfolio_A).2 = Raise (ValueError msg)).
Proof.
  split; [|split; [|split]].
  - apply (merge_compares_lengths_only (H:=rounded_numpy) stock_S portfolio_A).
    + vm_compute. discriminate.
    + vm_compute. repeat constructor.
    + vm_compute. lia.
  - apply (merge_compares_lengths_only (H:=rounded_numpy) stock_B portfolio_A).
    + vm_compute. discriminate.
    + vm_compute. repeat constructor.
    + vm_compute. reflexivity.
    + apply (bool_decide_unpack _). vm_compute. exact I.
    + intros label Hin Hin'. vm_compute in Hin, Hin'.
      apply list_elem_of_singleton in Hin, Hin'. congruence.
  - apply (merge_compares_lengths_only (H:=rounded_numpy) stock_C portfolio_A).
    + vm_compute. discriminate.
    + vm_compute. repeat constructor.
    + vm_compute. reflexivity.
    + apply (bool_decide_unpack _). vm_compute. exact I.
    + intros label Hin Hin'. vm_compute in Hin, Hin'.
      apply list_elem_of_singleton in Hin, Hin'. congruence.
    + vm_compute. reflexivity.
  - apply (merge_compares_lengths_only (H:=rounded_numpy) stock_BB portfolio_A).
    + vm_compute. discriminate.
    + vm_compute. repeat constructor.
    + vm_compute. reflexivity.
    + intros [Hdup _]. vm_compute in Hdup.
      apply NoDup_cons in Hdup as [Hin _]. apply Hin. left.
Defined.

(** ** A raising add *)

(** C1 as it is claimed fails.  Adding [stock_S], which has one row less
    than the frame of [portfolio_A], raises in the merge: the stock is in
    the mapping and a second row is in the frame of investment
    information all the same.  Adding [stock_N], which brings the sum of
    the FMV to zero, raises in the setter of [totalinvestment]: by then
    the mapping, the frame of investment information and the frame of
    prices have all got the stock. *)
Lemma raising_add_is_not_undone :
  (addStock (H:=rounded_numpy) stock_S portfolio_A).2
    = Raise (ValueError "Length of values (2) does not match length of index (3)")
  ∧ stocks portfolio_A !! "S" = None
  ∧ stocks (addStock (H:=rounded_numpy) stock_S portfolio_A).1 !! "S" = Some stock_S
  ∧ length (rows (portfolio portfolio_A)) = 1%nat
  ∧ length (rows (portfolio (addStock (H:=rounded_numpy) stock_S portfolio_A).1)) = 2%nat
  ∧ (addStock (H:=rounded_numpy) stock_N portfolio_A).2
    = Raise (ValueError "The money to be invested in the portfolio must be > 0.")
  ∧ stocks portfolio_A !! "N" = None
  ∧ stocks (addStock (H:=rounded_numpy) stock_N portfolio_A).1 !! "N" = Some stock_N
  ∧ length (rows (portfolio (addStock (H:=rounded_numpy) stock_N portfolio_A).1)) = 2%nat
  ∧ columns (pf_stock_data portfolio_A) = ["A"]
  ∧ columns (pf_stock_data (addStock (H:=rounded_numpy) stock_N portfolio_A).1) = ["A"; "N"].
Proof. repeat split; vm_compute; reflexivity. Qed.

(** C1, amended. [addStock] undoes nothing.  After an add that raised,
    the stock is in the mapping, its row is the last of the frame of
    investment information, and the frame of prices is as
    [_addStockData] left it, with the columns it had inserted.  When the
    add raised in the merge (a column that does not fit) or because the
    sum of the FMV is not positive, the total investment and the cached
    statistics are those of before the call. *)
Theorem raising_add_leaves_the_stock_entered `{NumPy}
    (stock : Stock.t) (self self' : t) (e : exn) :
  addStock stock self = (self', Raise e) →
  stocks self' = <[Stock.name stock := stock]> (stocks self)
  ∧ rows (portfolio self') = rows (portfolio self) ++ [Stock.getInvestmentInfo stock]
  ∧ pf_stock_data self'
    = pf_stock_data (_addStockData (Stock.stock_data stock) self).1
  ∧ (raises (_addStockData (Stock.stock_data stock) self).2
     ∨ total (FMV <$> rows (portfolio self')) ≤ 0 →
     __totalinvestment self' = __totalinvestment self
     ∧ expectedReturn self' = expectedReturn self
     ∧ volatility self' = volatility self
     ∧ sharpe self' = sharpe self
     ∧ skew self' = skew self
     ∧ kurtosis self' = kurtosis self).
Proof.
  intros Hadd.
  pose proof (addStock_stocks stock self) as Hstocks.
  pose proof (addStock_rows stock self) as Hrows.
  rewrite Hadd in Hstocks, Hrows. cbn [fst] in Hstocks, Hrows.
  split; [exact Hstocks|]. split; [exact Hrows|].
  rewrite _addStockData_run. cbn [fst snd pf_stock_data set_pf_stock_data].
  rewrite addStock_run in Hadd.
  change (pf_stock_data (entered stock self)) with (pf_stock_data self) in Hadd.
  destruct (merge (pf_stock_data self) (Stock.stock_data stock)) as [d [[]|e']] eqn:Hmerge.
  - pose proof (keeps_recompute (set_pf_stock_data d (entered stock self))) as (_ & _ & Hd).
    rewrite Hadd in Hd. split; [exact Hd|].
    intros [[]|Hnonpos].
    rewrite recompute_run in Hadd by (cbn; by destruct (rows (portfolio self))).
    cbn zeta in Hadd. cbn [portfolio set_pf_stock_data] in Hadd.
    rewrite Hrows in Hnonpos.
    change (rows (portfolio (entered stock self)))
      with (rows (portfolio self) ++ [Stock.getInvestmentInfo stock]) in Hadd.
    rewrite decide_True in Hadd by done.
    injection Hadd as <- _. done.
  - injection Hadd as <- _. done.
Qed.

Lemma raising_add_leaves_the_stock_entered_witness :
  stocks (addStock (H:=rounded_numpy) stock_S portfolio_A).1
    = <[Stock.name stock_S := stock_S]> (stocks portfolio_A)
  ∧ rows (portfolio (addStock (H:=rounded_numpy) stock_S portfolio_A).1)
    = rows (portfolio portfolio_A) ++ [Stock.getInvestmentInfo stock_S]
  ∧ __totalinvestment (addStock (H:=rounded_numpy) stock_N portfolio_A).1
    = __totalinvestment portfolio_A
  ∧ expectedReturn (addStock (H:=rounded_numpy) stock_N portfolio_A).1
    = expectedReturn portfolio_A.
Proof.
  assert (addStock (H:=rounded_numpy) stock_S portfolio_A
          = ((addStock (H:=rounded_numpy) stock_S portfolio_A).1,
             Raise (ValueError "Length of values (2) does not match length of index (3)")))
    as HS by (vm_compute; reflexivity).
  assert (addStock (H:=rounded_numpy) stock_N portfolio_A
          = ((addStock (H:=rounded_numpy) stock_N portfolio_A).1,
             Raise (ValueError "The money to be invested in the portfolio must be > 0.")))
    as HN by (vm_compute; reflexivity).
  destruct (raising_add_leaves_the_stock_entered (H:=rounded_numpy) _ _ _ _ HS)
    as (Hstocks & Hrows & _).
  destruct (raising_add_leaves_the_stock_entered (H:=rounded_numpy) _ _ _ _ HN)
    as (_ & _ & _ & Hstats).
  destruct Hstats as (Htot & Her & _).
  { right. vm_compute. discriminate. }
  split; [exact Hstocks | split; [exact Hrows | split; [exact Htot | exact Her]]].
Defined.

(** ** A name added twice *)

(** C4 as it is claimed fails.  [portfolio_A] holds [stock_A] under the
    name A; adding [stock_A2], of the same name, does not raise and puts
    [stock_A2] in the place of [stock_A] in the mapping, which still has
    one entry, while the frame of investment information now has two rows
    named A, the frame of prices two columns, [compPfWeights] two
    weights, and the total investment is 50 + 70.  Adding [stock_A3], of
    the same name and with the column label A, raises, and leaves one
    entry in the mapping, two rows named A and one column. *)
Lemma name_added_twice_is_counted_twice :
  stocks portfolio_A !! "A" = Some stock_A
  ∧ Stock.name stock_A2 = "A"
  ∧ (addStock (H:=rounded_numpy) stock_A2 portfolio_A).2 = Ok ()
  ∧ stocks (addStock (H:=rounded_numpy) stock_A2 portfolio_A).1 !! "A" = Some stock_A2
  ∧ size (stocks (addStock (H:=rounded_numpy) stock_A2 portfolio_A).1) = 1%nat
  ∧ Name <$> rows (portfolio (addStock (H:=rounded_numpy) stock_A2 portfolio_A).1)
    = ["A"; "A"]
  ∧ columns (pf_stock_data (addStock (H:=rounded_numpy) stock_A2 portfolio_A).1)
    = ["A"; "A2"]
  ∧ this <$> __totalinvestment (addStock (H:=rounded_numpy) stock_A2 portfolio_A).1
    = Some (120 # 1)%Q
  ∧ (fun r => length <$> match r with Ok ws => Some ws | Raise _ => None end)
      (compPfWeights (addStock (H:=rounded_numpy) stock_A2 portfolio_A).1).2
    = Some 2%nat
  ∧ Stock.name stock_A3 = "A"
  ∧ (addStock (H:=rounded_numpy) stock_A3 portfolio_A).2
    = Raise (ValueError "cannot insert A, already exists")
  ∧ stocks (addStock (H:=rounded_numpy) stock_A3 portfolio_A).1 !! "A" = Some stock_A3
  ∧ size (stocks (addStock (H:=rounded_numpy) stock_A3 portfolio_A).1) = 1%nat
  ∧ Name <$> rows (portfolio (addStock (H:=rounded_numpy) stock_A3 portfolio_A).1)
    = ["A"; "A"]
  ∧ columns (pf_stock_data (addStock (H:=rounded_numpy) stock_A3 portfolio_A).1)
    = ["A"].
Proof. repeat split; vm_compute; reflexivity. Qed.

Lemma merge_existing_label d df label rest :
  columns df = label :: rest → label ∈ columns d →
  ∃ msg, merge d df = (d, Raise (ValueError msg)).
Proof.
  intros Hcols Hin. unfold merge. rewrite Hcols. cbn [insert_all].
  destruct (getitem_values_label df label) as [value ->]; [rewrite Hcols; left|].
  rewrite insert_existing_label by done. eauto.
Qed.

Lemma total_snoc (xs : list Qc) (x : Qc) : total (xs ++ [x]) = total xs + x.
Proof.
  induction xs as [|y xs IH]; cbn [app total foldr] in *.
  - ring.
  - unfold total in IH. rewrite IH. ring.
Qed.

Lemma merge_ok_data d df d' :
  merge d df = (d', Ok ()) →
  length (data d') = (length (data d) + length (data df))%nat.
Proof.
  unfold merge. intros Hmerge.
  destruct (insert_all d df (columns df)) as [d1 [[]|]] eqn:Hins; [|done].
  apply insert_all_ok_data in Hins. unfold pd.set_index in Hmerge.
  destruct (decide _); [|done]. injection Hmerge as <-.
  unfold columns in Hins. by rewrite length_fmap in Hins.
Qed.

(** Columns that were inserted into a frame with rows have been put
    behind the columns it had, which are as they were. *)
Lemma insert_columns_ok d cols d' :
  index d ≠ [] → insert_columns d cols = (d', Ok ()) →
  d' = {| index := index d; index_name := index_name d; data := data d ++ cols |}.
Proof.
  revert d. induction cols as [|[c v] rest IH]; intros d Hrows Hins.
  - injection Hins as <-. rewrite app_nil_r. by destruct d.
  - cbn [insert_columns] in Hins.
    destruct (pd.insert _ _ _ _) as [d1 [[]|e]] eqn:E; [|done].
    apply insert_ok in E as (values & [= <-] & _ & _ & _ & Hd1).
    destruct (Hd1 Hrows) as [_ ->].
    unfold columns in Hins. rewrite length_fmap, firstn_all, drop_all in Hins.
    apply IH in Hins; [|done]. cbn [index index_name data] in Hins.
    by rewrite <-app_assoc in Hins.
Qed.

(** A merge into a frame with rows that did not raise has put the
    columns of [df] behind the columns of the frame and has made the index
    of [df] the index of the frame. *)
Lemma merge_ok_rows d df d' :
  index d ≠ [] → merge d df = (d', Ok ()) →
  d' = {| index := index df; index_name := Some "Date"; data := data d ++ data df |}.
Proof.
  intros Hrows Hmerge.
  destruct (merge_ok_columns _ _ _ Hmerge) as [Hdup _].
  rewrite merge_columns in Hmerge by done.
  destruct (insert_columns d (data df)) as [d1 [[]|e]] eqn:Hins; [|done].
  apply insert_columns_ok in Hins as ->; [|done].
  unfold pd.set_index in Hmerge. destruct (decide _); [|done].
  by injection Hmerge as <-.
Qed.

(** Every name of the mapping is the [Name] of a row of the frame of
    investment information, when the stocks that were added bear the
    [Name] of their investment information. *)
Lemma names_have_rows_after_calls `{NumPy} (calls : list call) (self : t) :
  Forall constructed (given_stocks calls) →
  (∀ key, is_Some (stocks self !! key) → key ∈ Name <$> rows (portfolio self)) →
  ∀ key, is_Some (stocks (after_calls calls self) !! key) →
         key ∈ Name <$> rows (portfolio (after_calls calls self)).
Proof.
  revert self. induction calls as [|c calls IH]; intros self Hstocks Hself; [done|].
  cbn [after_calls foldl]. change (foldl _ ?s calls) with (after_calls calls s).
  destruct c as [stock|val|freq|freq|rf]; cbn [after_call given_stocks omap list_omap] in *.
  - apply Forall_cons in Hstocks as [Hstock Hstocks]. apply IH; [done|].
    intros key. rewrite addStock_stocks, addStock_rows, fmap_app.
    destruct (decide (key = Stock.name stock)) as [->|Hne].
    + intros _. apply elem_of_app. right. rewrite Hstock. left.
    + rewrite lookup_insert_ne by done. intros Hkey.
      apply elem_of_app. left. by apply Hself.
  - apply IH; [done|]. by destruct (keeps_totalinvestment_setter val self) as (-> & -> & _).
  - apply IH; [done|]. by destruct (keeps_compPfExpectedReturn freq self) as (-> & -> & _).
  - apply IH; [done|]. by destruct (keeps_compPfVolatility freq self) as (-> & -> & _).
  - apply IH; [done|]. by destruct (keeps_compPfSharpe rf self) as (-> & -> & _).
Qed.

(** C4, amended. Adding a stock whose name is already in the mapping
    puts the new stock in the place of the old one (last write wins) and
    leaves the other entries and the number of entries as they were; the
    frame of investment information gets one more row all the same, so
    that on a portfolio made by calls on a fresh one, with stocks that
    bear the [Name] of their investment information, it has two rows of
    that name.  When the add does not raise, the frame of prices has got
    the columns of the new stock behind those it had, the total
    investment is the former sum of the FMV plus the FMV of the new
    stock, and [compPfWeights] returns one weight for every row, the FMV
    of the row divided by that total: the row of the replaced stock is
    counted still.  When the first price column of the new stock bears a
    label that the frame of prices has already, the add raises and the
    frame of prices is as before. *)
Theorem readded_name_is_overwritten_in_the_mapping_only `{NumPy}
    (stock : Stock.t) (self : t) :
  is_Some (stocks self !! Stock.name stock) →
  stocks (addStock stock self).1 !! Stock.name stock = Some stock
  ∧ (∀ other, other ≠ Stock.name stock →
       stocks (addStock stock self).1 !! other = stocks self !! other)
  ∧ size (stocks (addStock stock self).1) = size (stocks self)
  ∧ rows (portfolio (addStock stock self).1)
    = rows (portfolio self) ++ [Stock.getInvestmentInfo stock]
  ∧ (∀ calls, self = after_calls calls __init__ →
       Forall constructed (stock :: given_stocks calls) →
       ∃ i j, (i < j)%nat
         ∧ (Name <$> rows (portfolio (addStock stock self).1)) !! i
           = Some (Stock.name stock)
         ∧ (Name <$> rows (portfolio (addStock stock self).1)) !! j
           = Some (Stock.name stock))
  ∧ ((addStock stock self).2 = Ok () →
     length (data (pf_stock_data (addStock stock self).1))
       = (length (data (pf_stock_data self)) + length (data (Stock.stock_data stock)))%nat
     ∧ columns (pf_stock_data (addStock stock self).1)
       = columns (pf_stock_data self) ++ columns (Stock.stock_data stock)
     ∧ (index (pf_stock_data self) ≠ [] →
        data (pf_stock_data (addStock stock self).1)
        = data (pf_stock_data self) ++ data (Stock.stock_data stock))
     ∧ __totalinvestment (addStock stock self).1
       = Some (total (FMV <$> rows (portfolio self)) + FMV (Stock.investmentinfo stock))
     ∧ compPfWeights (addStock stock self).1
       = ((addStock stock self).1,
          Ok ((fun x => fdiv (Fin x)
                          (Fin (total (FMV <$> rows (portfolio self))
                                + FMV (Stock.investmentinfo stock))))
                <$> (FMV <$> rows (portfolio self) ++ [Stock.getInvestmentInfo stock]))))
  ∧ (∀ label values rest,
       data (Stock.stock_data stock) = (label, values) :: rest →
       label ∈ columns (pf_stock_data self) →
       (∃ msg, (addStock stock self).2 = Raise (ValueError msg))
       ∧ pf_stock_data (addStock stock self).1 = pf_stock_data self).
Proof.
  intros Hin. rewrite addStock_stocks, addStock_rows.
  split; [apply lookup_insert_eq|].
  split; [by intros other Hother; apply lookup_insert_ne|].
  split; [by apply map_size_insert_Some|]. split; [done|]. split; [|split].
  - intros calls -> [Hstock Hstocks]%Forall_cons.
    pose proof (names_have_rows_after_calls calls __init__ Hstocks) as Hnames.
    assert (Stock.name stock ∈ Name <$> rows (portfolio (after_calls calls __init__)))
      as [i Hi]%list_elem_of_lookup_1.
    { apply Hnames; [|done]. intros key [held Hkey].
      change (stocks __init__) with (∅ : gmap string Stock.t) in Hkey.
      by rewrite lookup_empty in Hkey. }
    exists i, (length (rows (portfolio (after_calls calls __init__)))).
    pose proof (lookup_lt_Some _ _ _ Hi) as Hlt. rewrite length_fmap in Hlt.
    split; [done|]. rewrite fmap_app. split.
    + by rewrite lookup_app_l by (by rewrite length_fmap).
    + rewrite lookup_app_r by (by rewrite length_fmap).
      rewrite length_fmap, Nat.sub_diag. cbn. by rewrite Hstock.
  - intros Hok.
    destruct (addStock stock self) as [self' r] eqn:Hadd. cbn [fst snd] in *. subst r.
    destruct (addStock_totalinvestment _ _ _ Hadd) as [Htot _].
    pose proof (addStock_rows stock self) as Hrows. rewrite Hadd in Hrows.
    cbn [fst] in Hrows. rewrite Hrows, fmap_app in Htot.
    change (FMV <$> [Stock.getInvestmentInfo stock])
      with [FMV (Stock.investmentinfo stock)] in Htot.
    rewrite total_snoc in Htot.
    apply addStock_ok in Hadd as (d & Hmerge & _ & Hstat).
    pose proof (keeps_statistics
      (set___totalinvestment
         (Some (total (FMV <$> rows (portfolio (entered stock self)))))
         (set_pf_stock_data d (entered stock self)))) as (_ & _ & Hd & _).
    rewrite Hstat in Hd. cbn [fst] in Hd. rewrite Hd.
    cbn [pf_stock_data set___totalinvestment set_pf_stock_data].
    split; [by apply merge_ok_data|].
    split; [by apply (merge_ok_columns _ _ _ Hmerge)|].
    split; [intros Hrows'; by rewrite (merge_ok_rows _ _ _ Hrows' Hmerge)|].
    split; [exact Htot|].
    rewrite compPfWeights_run. unfold weights_of. rewrite Hrows, Htot.
    by destruct (rows (portfolio self)).
  - intros label values rest Hdata Hlabel. rewrite addStock_run.
    change (pf_stock_data (entered stock self)) with (pf_stock_data self).
    destruct (merge_existing_label (pf_stock_data self) (Stock.stock_data stock)
                label rest.*1) as [msg ->]; [|done|].
    + unfold columns. by rewrite Hdata.
    + split; [by exists msg | done].
Qed.

Lemma readded_name_is_overwritten_in_the_mapping_only_witness :
  stocks (addStock (H:=rounded_numpy) stock_A2 portfolio_A).1 !! Stock.name stock_A2
    = Some stock_A2
  ∧ size (stocks (addStock (H:=rounded_numpy) stock_A2 portfolio_A).1)
    = size (stocks portfolio_A)
  ∧ (∃ i j, (i < j)%nat
       ∧ (Name <$> rows (portfolio (addStock (H:=rounded_numpy) stock_A2 portfolio_A).1)) !! i
         = Some (Stock.name stock_A2)
       ∧ (Name <$> rows (portfolio (addStock (H:=rounded_numpy) stock_A2 portfolio_A).1)) !! j
         = Some (Stock.name stock_A2))
  ∧ data (pf_stock_data (addStock (H:=rounded_numpy) stock_A2 portfolio_A).1)
    = data (pf_stock_data portfolio_A) ++ data (Stock.stock_data stock_A2)
  ∧ __totalinvestment (addStock (H:=rounded_numpy) stock_A2 portfolio_A).1
    = Some (total (FMV <$> rows (portfolio portfolio_A))
            + FMV (Stock.investmentinfo stock_A2))
  ∧ pf_stock_data (addStock (H:=rounded_numpy) stock_A3 portfolio_A).1
    = pf_stock_data portfolio_A.
Proof.
  destruct (readded_name_is_overwritten_in_the_mapping_only (H:=rounded_numpy)
              stock_A2 portfolio_A) as (Hlast & _ & Hsize & _ & Htwo & Hok & _).
  { exists stock_A. vm_compute. reflexivity. }
  destruct Hok as (_ & _ & Hdata & Htot & _); [vm_compute; reflexivity|].
  destruct (readded_name_is_overwritten_in_the_mapping_only (H:=rounded_numpy)
              stock_A3 portfolio_A) as (_ & _ & _ & _ & _ & _ & Hlabel).
  { exists stock_A. vm_compute. reflexivity. }
  destruct (Hlabel "A" (data (Stock.stock_data stock_A3) !!! 0%nat).2 []) as [_ Hsame].
  { vm_compute. reflexivity. }
  { replace (columns (pf_stock_data portfolio_A)) with ["A"]
      by (vm_compute; reflexivity).
    left. }
  split; [exact Hlast|]. split; [exact Hsize|]. split; [|split; [|split; [exact Htot|exact Hsame]]].
  - apply (Htwo [AddStock stock_A]); [vm_compute; reflexivity|].
    repeat constructor; vm_compute; reflexivity.
  - apply Hdata. vm_compute. discriminate.
Defined.

(** * Further properties of the classes *)

(** ** Looking a stock up *)

(** X1. [getStock] after [addStock]: under the name of the stock just
    added it returns that stock, also when the add raised; under any
    other name it returns what the mapping held before, and raises
    [KeyError] for a name that was never added; on a fresh portfolio it
    raises [KeyError] for every name.  [getStock] never changes the
    portfolio. *)
Theorem getStock_after_addStock `{NumPy} (stock : Stock.t) (self : t) (name : string) :
  getStock name (addStock stock self).1 =
    ((addStock stock self).1,
     if decide (name = Stock.name stock) then Ok stock
     else match stocks self !! name with
          | Some held => Ok held
          | None => Raise (KeyError name)
          end)
  ∧ getStock name __init__ = (__init__, Raise (KeyError name)).
Proof.
  split; [|done].
  unfold getStock, getStocks. rewrite !run_bind. cbn [get mret M_ret].
  rewrite addStock_stocks.
  destruct (decide (name = Stock.name stock)) as [->|Hne].
  - by rewrite lookup_insert_eq.
  - rewrite lookup_insert_ne by done. by destruct (stocks self !! name).
Qed.

(** ** Assigning the total investment *)

(** X2. The property [totalinvestment], for [None], for finite numbers
    that are instances of [float] or [int], and for objects that are
    instances of neither: assigning such a number stores it when it is
    positive, and reading the property then returns it; assigning one
    that is zero or negative, or an object that is no instance of [float]
    or [int] (a numpy integer, a string), raises [ValueError] and leaves
    the portfolio as it was, the former value included; assigning [None]
    does nothing, so it does not reset a value set before. *)
Theorem totalinvestment_assignment (self : t) :
  (∀ x, 0 < x →
     (totalinvestment_setter (PyNumber x);; totalinvestment) self
       = (set___totalinvestment (Some x) self, Ok x))
  ∧ (∀ x, x ≤ 0 →
     ∃ msg, totalinvestment_setter (PyNumber x) self = (self, Raise (ValueError msg)))
  ∧ (∃ msg, totalinvestment_setter PyObject self = (self, Raise (ValueError msg)))
  ∧ (totalinvestment_setter PyNone;; totalinvestment) self = totalinvestment self.
Proof.
  split; [|split; [|split]].
  - intros x Hx. rewrite run_bind. cbn [totalinvestment_setter].
    rewrite decide_False by (by apply Qclt_not_le). cbn [modify].
    by rewrite totalinvestment_run.
  - intros x Hx. cbn [totalinvestment_setter]. rewrite decide_True by done.
    by eexists.
  - by eexists.
  - rewrite run_bind. cbn [totalinvestment_setter mret M_ret]. done.
Qed.

Lemma totalinvestment_assignment_witness :
  (totalinvestment_setter (PyNumber 1);; totalinvestment) __init__
    = (set___totalinvestment (Some 1) __init__, Ok 1)
  ∧ ∃ msg, totalinvestment_setter (PyNumber 0) portfolio_A
           = (portfolio_A, Raise (ValueError msg)).
Proof.
  destruct (totalinvestment_assignment __init__) as (Hpos & _).
  destruct (totalinvestment_assignment portfolio_A) as (_ & Hneg & _).
  split.
  - apply Hpos. vm_compute. reflexivity.
  - apply Hneg. vm_compute. discriminate.
Defined.

(** ** The first merge *)

(** X3. On a fresh portfolio, [_addStockData] with a frame that has rows,
    at least one column and no label twice makes the frame of prices a
    copy of that frame: the same index, the same columns in the same
    order, and the index named Date. *)
Theorem first_merge_copies_the_frame (df : DataFrame) :
  pd.aligned df → NoDup (columns df) → index df ≠ [] → data df ≠ [] →
  _addStockData df __init__ =
    (set_pf_stock_data
       {| index := index df; index_name := Some "Date"; data := data df |} __init__,
     Ok ()).
Proof.
  intros Haligned Hdup Hrows Hcols.
  rewrite _addStockData_run. change (pf_stock_data __init__) with pd.empty.
  rewrite merge_columns by done.
  unfold pd.aligned in Haligned. unfold columns in Hdup.
  destruct (data df) as [|[c v] rest] eqn:Hdata; [done|].
  apply Forall_cons in Haligned as [Hv Hrest]. cbn [snd] in Hv.
  cbn [fmap list_fmap fst] in Hdup. apply NoDup_cons in Hdup as [Hc Hdup].
  cbn [insert_columns]. change (length (columns pd.empty)) with 0%nat.
  rewrite insert_into_empty.
  rewrite insert_columns_new; cbn [index index_name data].
  - unfold pd.set_index. cbn [index data].
    rewrite decide_True by (by rewrite length_RangeIndex). done.
  - intros Hnil. apply (f_equal length) in Hnil. rewrite length_RangeIndex in Hnil.
    rewrite Hv in Hnil. by destruct (index df).
  - rewrite length_RangeIndex. eapply Forall_impl; [exact Hrest|].
    intros col Hcol. cbn in *. congruence.
  - done.
  - intros label Hlabel. unfold columns. cbn.
    intros ->%list_elem_of_singleton. done.
Qed.

Lemma first_merge_copies_the_frame_witness :
  _addStockData (Stock.stock_data stock_A) __init__ =
    (set_pf_stock_data
       {| index := index (Stock.stock_data stock_A); index_name := Some "Date";
          data := data (Stock.stock_data stock_A) |} __init__,
     Ok ()).
Proof.
  apply first_merge_copies_the_frame.
  - vm_compute. repeat constructor.
  - vm_compute. repeat constructor. set_solver.
  - vm_compute. discriminate.
  - vm_compute. discriminate.
Defined.

(** ** What every portfolio satisfies *)

Lemma NoDup_insert_middle {A} (l : list A) (n : nat) (x : A) :
  x ∉ l → NoDup l → NoDup (take n l ++ x :: drop n l).
Proof.
  intros Hx Hl.
  assert (take n l ++ x :: drop n l ≡ₚ x :: l) as ->.
  { rewrite <-Permutation_middle. by rewrite take_drop. }
  by constructor.
Qed.

(** [insert] leaves a frame with one value per index entry in every
    column and with no label twice, whether it raises or not. *)
Lemma insert_keeps_frame d loc column value :
  pd.aligned d → NoDup (columns d) →
  pd.aligned (pd.insert d loc column value).1
  ∧ NoDup (columns (pd.insert d loc column value).1).
Proof.
  intros Haligned Hdup. unfold pd.insert.
  destruct (decide (column ∈ columns d)) as [|Hnew]; [done|].
  destruct value as [values|c1 c2 more]; [|by repeat case_match].
  set (d1 := if bool_decide _ then _ else d).
  assert (pd.aligned d1 ∧ columns d1 = columns d) as [Haligned1 Hcols1].
  { unfold d1. case_bool_decide; [|done]. split.
    - unfold pd.aligned. cbn [data index]. apply Forall_fmap, Forall_true.
      intros col. cbn. by rewrite length_replicate, length_RangeIndex.
    - unfold columns. cbn [data]. by rewrite <-list_fmap_compose. }
  clearbody d1.
  destruct (decide (length values = length (index d1))) as [Hlen|];
    [|cbn [fst]; by rewrite Hcols1].
  destruct (decide (loc ≤ length (data d1))%nat); [|cbn [fst]; by rewrite Hcols1].
  cbn [fst]. split.
  - unfold pd.aligned in *. cbn [data index].
    apply Forall_app. split; [by apply Forall_take|].
    constructor; [done | by apply Forall_drop].
  - rewrite <-Hcols1 in Hdup, Hnew. unfold columns in *. cbn [data].
    rewrite fmap_app, fmap_cons, fmap_take, fmap_drop.
    by apply NoDup_insert_middle.
Qed.

Lemma insert_all_keeps_frame df labels d :
  pd.aligned d → NoDup (columns d) →
  pd.aligned (insert_all d df labels).1 ∧ NoDup (columns (insert_all d df labels).1).
Proof.
  revert d. induction labels as [|l rest IH]; intros d Haligned Hdup; [done|].
  cbn [insert_all].
  destruct (getitem_values df l) as [value|]; [|done].
  destruct (insert_keeps_frame d (length (columns d)) l value Haligned Hdup) as [Ha Hd].
  destruct (pd.insert _ _ _ _) as [d' [[]|e]]; [|done].
  by apply IH.
Qed.

Lemma merge_keeps_frame d df :
  pd.aligned d → NoDup (columns d) →
  pd.aligned (merge d df).1 ∧ NoDup (columns (merge d df).1).
Proof.
  intros Haligned Hdup. unfold merge.
  destruct (insert_all_keeps_frame df (columns df) d Haligned Hdup) as [Ha Hd].
  destruct (insert_all _ _ _) as [d1 [[]|e]]; [|done]. cbn [fst] in *.
  unfold pd.set_index. destruct (decide _) as [Hlen|]; [|done].
  cbn [fst]. split; [|done].
  unfold pd.aligned in *. cbn [data index pd.index_rename]. by rewrite Hlen.
Qed.

Lemma well_formed_holdings self self' :
  same_holdings self self' → well_formed self → well_formed self'.
Proof.
  intros (Hp & Hs & Hd & Ht) (Ha & Hn & Hv & Hk & Hz).
  unfold well_formed. rewrite Hp, Hs, Hd, Ht. done.
Qed.

Lemma well_formed_init : well_formed __init__.
Proof.
  unfold well_formed. cbn. split; [by constructor|]. split; [by constructor|].
  split; [done|]. split; [|done].
  intros key stock Hkey. by rewrite lookup_empty in Hkey.
Qed.

Lemma well_formed_setter val self :
  well_formed self → well_formed (totalinvestment_setter val self).1.
Proof.
  intros Hwf. destruct val as [|x|]; [done| |done].
  cbn [totalinvestment_setter]. destruct (decide (x ≤ 0)) as [|Hx]; [done|].
  destruct Hwf as (Ha & Hn & Hv & Hk & Hz). cbn.
  repeat split; try done. intros val [= <-]. by apply Qclt_nge.
Qed.

Section well_formed.
Context `{NumPy}.

Lemma well_formed_recompute self :
  well_formed self → well_formed (recompute self).1.
Proof.
  intros Hwf. unfold recompute. rewrite run_bind, portfolio_FMV_run.
  destruct (rows (portfolio self)) as [|r rs] eqn:Hrows; [done|].
  rewrite run_bind.
  pose proof (well_formed_setter (PyNumber (total (FMV <$> r :: rs))) self Hwf) as Hset.
  destruct (totalinvestment_setter _ self) as [s [[]|e]]; [|done].
  cbn [fst] in Hset.
  apply (well_formed_holdings s); [apply keeps_statistics | done].
Qed.

Lemma well_formed_entered stock d self :
  well_formed self →
  pd.aligned d → NoDup (columns d) →
  well_formed (set_pf_stock_data d (entered stock self)).
Proof.
  intros (_ & _ & Hv & Hk & Hz) Ha Hn. unfold well_formed. cbn.
  split; [done|]. split; [done|]. split; [done|]. split.
  - intros key held. destruct (decide (key = Stock.name stock)) as [->|Hne].
    + rewrite lookup_insert_eq. by intros [= <-].
    + rewrite lookup_insert_ne by done. apply Hk.
  - rewrite length_app. cbn. rewrite map_size_insert.
    destruct (stocks self !! Stock.name stock); unfold id; lia.
Qed.

Lemma well_formed_addStock stock self :
  well_formed self → well_formed (addStock stock self).1.
Proof.
  intros Hwf. rewrite addStock_run.
  change (pf_stock_data (entered stock self)) with (pf_stock_data self).
  destruct Hwf as (Ha & Hn & Hrest).
  destruct (merge_keeps_frame (pf_stock_data self) (Stock.stock_data stock) Ha Hn)
    as [Ha' Hn'].
  destruct (merge _ _) as [d [[]|e]]; cbn [fst] in *.
  - apply well_formed_recompute. by apply well_formed_entered.
  - by apply well_formed_entered.
Qed.

Lemma well_formed_after_call c self :
  well_formed self → well_formed (after_call c self).
Proof.
  intros Hwf. destruct c as [stock|val|freq|freq|rf]; cbn [after_call].
  - by apply well_formed_addStock.
  - by apply well_formed_setter.
  - apply (well_formed_holdings self); [apply keeps_compPfExpectedReturn | done].
  - apply (well_formed_holdings self); [apply keeps_compPfVolatility | done].
  - apply (well_formed_holdings self); [apply keeps_compPfSharpe | done].
Qed.

Lemma well_formed_after_calls calls self :
  well_formed self → well_formed (after_calls calls self).
Proof.
  revert self. induction calls as [|c calls IH]; intros self Hwf; [done|].
  cbn. apply IH. by apply well_formed_after_call.
Qed.
End well_formed.

(** X4. The frame of prices stays a frame: after any calls of [addStock],
    of the setter of [totalinvestment] and of the caching methods on a
    fresh portfolio, whichever of them raised, every column of
    [pf_stock_data] has exactly one value per entry of the index, and no
    two columns have the same label. *)
Theorem frame_of_prices_stays_a_frame `{NumPy} (calls : list call) :
  pd.aligned (pf_stock_data (after_calls calls __init__))
  ∧ NoDup (columns (pf_stock_data (after_calls calls __init__))).
Proof.
  destruct (well_formed_after_calls calls __init__ well_formed_init) as (? & ? & _).
  done.
Qed.

Lemma rows_after_calls `{NumPy} (calls : list call) (self : t) :
  rows (portfolio (after_calls calls self))
  = rows (portfolio self) ++ (Stock.getInvestmentInfo <$> given_stocks calls).
Proof.
  revert self. induction calls as [|c calls IH]; intros self.
  { cbn. by rewrite app_nil_r. }
  cbn [after_calls foldl]. change (foldl _ ?s calls) with (after_calls calls s).
  rewrite IH. destruct c as [stock|val|freq|freq|rf]; cbn [after_call given_stocks omap list_omap].
  - rewrite addStock_rows, <-app_assoc. done.
  - by destruct (keeps_totalinvestment_setter val self) as (-> & _).
  - by destruct (keeps_compPfExpectedReturn freq self) as (-> & _).
  - by destruct (keeps_compPfVolatility freq self) as (-> & _).
  - by destruct (keeps_compPfSharpe rf self) as (-> & _).
Qed.

(** X6. The mapping and the frame of investment information: after any
    calls on a fresh portfolio, whichever of them raised, every stock of
    the mapping is stored under its own name, the rows of the frame of
    investment information are those of the stocks that [addStock] was
    given, one per call and in the order of the calls, whether the call
    raised or not, and the mapping has at most that many entries. *)
Theorem one_row_per_add `{NumPy} (calls : list call) :
  (∀ key stock, stocks (after_calls calls __init__) !! key = Some stock →
                Stock.name stock = key)
  ∧ rows (portfolio (after_calls calls __init__))
    = Stock.getInvestmentInfo <$> given_stocks calls
  ∧ (size (stocks (after_calls calls __init__)) ≤ length (given_stocks calls))%nat.
Proof.
  destruct (well_formed_after_calls calls __init__ well_formed_init)
    as (_ & _ & _ & Hkey & Hsize).
  rewrite rows_after_calls in Hsize |- *.
  change (rows (portfolio __init__)) with (@nil InvestmentInfo) in *. cbn [app] in *.
  rewrite length_fmap in Hsize. done.
Qed.

Lemma one_row_per_add_witness :
  Stock.name stock_A2 = "A"
  ∧ stocks (after_calls (H:=rounded_numpy)
              [AddStock stock_A; AddStock stock_A2] __init__) !! "A" = Some stock_A2.
Proof.
  assert (stocks (after_calls (H:=rounded_numpy)
                    [AddStock stock_A; AddStock stock_A2] __init__) !! "A"
          = Some stock_A2) as Hlookup by (vm_compute; reflexivity).
  destruct (one_row_per_add (H:=rounded_numpy) [AddStock stock_A; AddStock stock_A2])
    as (Hkey & _).
  split; [exact (Hkey "A" stock_A2 Hlookup) | exact Hlookup].
Defined.

(** ** The statistics that [addStock] leaves *)

(** X7. Right after an [addStock] that did not raise, the cached
    statistics are those of the default arguments: [compPfExpectedReturn],
    [compPfVolatility] and [compPfSharpe], called with [freq = 252] and
    [riskFreeRate = 0.005], return the values of the fields
    [expectedReturn], [volatility] and [sharpe] and leave the portfolio
    exactly as it is; and the fields [skew] and [kurtosis] hold one value
    per column of the frame of prices, the skewness and the kurtosis of
    that column. *)
Theorem default_statistics_are_cached `{NumPy} (stock : Stock.t) (before self : t) :
  addStock stock before = (self, Ok ()) →
  ∃ er vol sh,
    expectedReturn self = Some er ∧ volatility self = Some vol ∧ sharpe self = Some sh
    ∧ compPfExpectedReturn 252 self = (self, Ok er)
    ∧ compPfVolatility 252 self = (self, Ok vol)
    ∧ compPfSharpe default_riskFreeRate self = (self, Ok sh)
    ∧ skew self = Some ((fun c => pd.skew c.2) <$> data (pf_stock_data self))
    ∧ kurtosis self = Some ((fun c => pd.kurt c.2) <$> data (pf_stock_data self)).
Proof.
  intros Hadd. apply addStock_ok in Hadd as (d & _ & _ & Hstat).
  apply statistics_ok in Hstat as (er & vol & sh & Her & Hvol & Hsh & ->).
  exists er, vol, sh. cbn [expectedReturn volatility sharpe skew kurtosis pf_stock_data].
  split; [done|]. split; [done|]. split; [done|]. split; [|split; [|split]].
  - rewrite compPfExpectedReturn_run.
    match goal with |- context [expected_return_of 252 ?s] =>
      change (expected_return_of 252 s) with
        (expected_return_of 252
           (set___totalinvestment
              (Some (total (FMV <$> rows (portfolio (entered stock before)))))
              (set_pf_stock_data d (entered stock before)))) end.
    by rewrite Her.
  - rewrite compPfVolatility_run.
    match goal with |- context [volatility_of 252 ?s] =>
      change (volatility_of 252 s) with
        (volatility_of 252
           (set___totalinvestment
              (Some (total (FMV <$> rows (portfolio (entered stock before)))))
              (set_pf_stock_data d (entered stock before)))) end.
    by rewrite Hvol.
  - rewrite compPfSharpe_run. cbn [expectedReturn volatility]. by rewrite Hsh.
  - done.
Qed.

Lemma default_statistics_are_cached_witness :
  ∃ er vol sh,
    compPfExpectedReturn 252 portfolio_A = (portfolio_A, Ok er)
    ∧ compPfVolatility (H:=rounded_numpy) 252 portfolio_A = (portfolio_A, Ok vol)
    ∧ compPfSharpe default_riskFreeRate portfolio_A = (portfolio_A, Ok sh).
Proof.
  destruct (default_statistics_are_cached (H:=rounded_numpy) stock_A __init__ portfolio_A)
    as (er & vol & sh & _ & _ & _ & Her & Hvol & Hsh & _).
  - vm_compute. reflexivity.
  - exists er, vol, sh. split; [exact Her | split; [exact Hvol | exact Hsh]].
Defined.

(** ** What the optimiser is given *)

Lemma weights_after_adds `{NumPy} (new_stocks : list Stock.t) (self : t) :
  new_stocks ≠ [] → addStocks new_stocks __init__ = (self, Ok ()) →
  __totalinvestment self
    = Some (total ((fun stock => FMV (Stock.investmentinfo stock)) <$> new_stocks))
  ∧ weights_of self
    = Ok ((fun x => fdiv (Fin x)
                      (Fin (total ((fun stock => FMV (Stock.investmentinfo stock))
                                     <$> new_stocks))))
            <$> ((fun stock => FMV (Stock.investmentinfo stock)) <$> new_stocks)).
Proof.
  intros Hne Hadd.
  pose proof (addStocks_rows _ _ _ Hadd) as Hrows. cbn in Hrows.
  destruct (addStocks_totalinvestment _ _ _ Hne Hadd) as [Htot _].
  assert (FMV <$> rows (portfolio self)
          = (fun stock => FMV (Stock.investmentinfo stock)) <$> new_stocks) as Hfmv.
  { rewrite Hrows, <-list_fmap_compose. reflexivity. }
  rewrite Hfmv in Htot. split; [exact Htot|].
  unfold weights_of. rewrite Htot, <-Hfmv.
  destruct (rows (portfolio self)) eqn:E; [|done].
  by destruct new_stocks.
Qed.

(** X8. [optimisePortfolio] on a portfolio built by calls of [addStock]
    that did not raise: the portfolio is not changed by the call; the
    optimiser is given the frame of prices, the arguments as they are
    and, as initial weights, the shares FMV / total of the stocks; with
    [total_investment=None] it is given the sum of the FMV as total
    investment, and a [total_investment] that the caller passes is handed
    over as it is, without the check of the setter (also when it is not
    positive).  What the call returns or raises is what the optimiser
    returns or raises. *)
Theorem optimiser_is_given_the_holdings `{NumPy} {R : Type}
    (optimisePfMC : DataFrame → Z → Qc → npfloat → Z → Series → bool → result R)
    (new_stocks : list Stock.t) (self : t)
    (num_trials : Z) (rf : npfloat) (freq : Z) (plot : bool) :
  new_stocks ≠ [] → addStocks new_stocks __init__ = (self, Ok ()) →
  let fmv := (fun stock => FMV (Stock.investmentinfo stock)) <$> new_stocks in
  let weights := (fun x => fdiv (Fin x) (Fin (total fmv))) <$> fmv in
  optimisePortfolio optimisePfMC None num_trials rf freq plot self
    = (self, optimisePfMC (pf_stock_data self) num_trials (total fmv) rf freq weights plot)
  ∧ ∀ val, optimisePortfolio optimisePfMC (Some val) num_trials rf freq plot self
    = (self, optimisePfMC (pf_stock_data self) num_trials val rf freq weights plot).
Proof.
  intros Hne Hadd fmv weights.
  destruct (weights_after_adds _ _ Hne Hadd) as [Htot Hw].
  unfold optimisePortfolio. split; [|intros val].
  - rewrite run_bind, totalinvestment_run, Htot.
    rewrite run_bind. cbn [get]. rewrite run_bind, compPfWeights_run, Hw. done.
  - rewrite run_bind. cbn [mret M_ret].
    rewrite run_bind. cbn [get]. rewrite run_bind, compPfWeights_run, Hw. done.
Qed.

Lemma optimiser_is_given_the_holdings_witness :
  optimisePortfolio echo_optimiser None 10000 default_riskFreeRate 252 true
    (addStocks (H:=rounded_numpy) [stock_A; stock_C] __init__).1
  = ((addStocks (H:=rounded_numpy) [stock_A; stock_C] __init__).1,
     echo_optimiser
       (pf_stock_data (addStocks (H:=rounded_numpy) [stock_A; stock_C] __init__).1)
       10000
       (total ((fun stock => FMV (Stock.investmentinfo stock)) <$> [stock_A; stock_C]))
       default_riskFreeRate 252
       ((fun x => fdiv (Fin x)
                    (Fin (total ((fun stock => FMV (Stock.investmentinfo stock))
                                   <$> [stock_A; stock_C]))))
          <$> ((fun stock => FMV (Stock.investmentinfo stock)) <$> [stock_A; stock_C]))
       true).
Proof.
  assert (addStocks (H:=rounded_numpy) [stock_A; stock_C] __init__
          = ((addStocks (H:=rounded_numpy) [stock_A; stock_C] __init__).1, Ok ())) as Hadd
    by (vm_compute; reflexivity).
  pose proof (optimiser_is_given_the_holdings (H:=rounded_numpy) echo_optimiser
                [stock_A; stock_C] _ 10000 default_riskFreeRate 252 true
                ltac:(discriminate) Hadd) as Hgiven.
  cbn zeta in Hgiven. destruct Hgiven as [Hnone _]. exact Hnone.
Defined.

(** ** The constructor of a stock *)

(** X9. A stock that the constructor returns has the [Name] of its
    investment information as name, gives that information back in
    [getInvestmentInfo], holds the price frame it was given, which has at
    least one column, and its cached [expectedReturn] and [volatility] are
    what [compExpectedReturn] and [compVolatility] return for the default
    [freq = 252].  For a price frame without columns the constructor
    raises. *)
Theorem stock_constructor `{NumPy} (investmentinfo : InvestmentInfo)
    (stock_data : DataFrame) :
  (∀ stock, Stock.__init__ investmentinfo stock_data = Ok stock →
     Stock.name stock = Name investmentinfo
     ∧ Stock.getInvestmentInfo stock = investmentinfo
     ∧ Stock.stock_data stock = stock_data
     ∧ data stock_data ≠ []
     ∧ Stock.compExpectedReturn stock 252 = Ok (Stock.expectedReturn stock)
     ∧ Stock.compVolatility stock 252 = Ok (Stock.volatility stock))
  ∧ (data stock_data = [] → raises (Stock.__init__ investmentinfo stock_data)).
Proof.
  unfold Stock.__init__.
  set (self0 := Stock.mk _ _ _ _ _ _ _).
  assert (∀ obj, Stock.stock_data obj = stock_data →
            Stock.compExpectedReturn obj 252 = Stock.compExpectedReturn self0 252
            ∧ Stock.compVolatility obj 252 = Stock.compVolatility self0 252) as Hsame.
  { intros obj Hobj.
    unfold Stock.compExpectedReturn, Stock.compVolatility, Stock.compDailyReturns.
    by rewrite Hobj. }
  destruct (Stock.compExpectedReturn self0 252) as [er|e] eqn:Her; cbn [mbind result_bind].
  2: { split; [done|]. by intros _. }
  destruct (Hsame (Stock.mk (Stock.name self0) investmentinfo stock_data er [] NaN NaN) eq_refl)
    as [_ ->].
  destruct (Stock.compVolatility self0 252) as [vol|e] eqn:Hvol; cbn [mbind result_bind].
  2: { split; [done|]. by intros _. }
  unfold Stock.__compSkew, Stock.__compKurtosis. cbn [Stock.stock_data].
  destruct (data stock_data) as [|[label prices] rest] eqn:Hdata.
  { split; [done|]. by intros _. }
  cbn [fmap list_fmap mbind result_bind]. split; [|done].
  intros stock [= <-]. cbn [Stock.name Stock.getInvestmentInfo Stock.investmentinfo
                            Stock.stock_data Stock.expectedReturn Stock.volatility].
  repeat split; done.
Qed.

Lemma stock_constructor_witness :
  Stock.name stock_A = Name (Stock.investmentinfo stock_A)
  ∧ Stock.compExpectedReturn stock_A 252 = Ok (Stock.expectedReturn stock_A)
  ∧ raises (Stock.__init__ (H:=rounded_numpy) (mkInvestmentInfo "E" 1 [])
              {| index := [1; 2]%Z; index_name := None; data := [] |}).
Proof.
  destruct (stock_constructor (H:=rounded_numpy) (Stock.investmentinfo stock_A)
              (Stock.stock_data stock_A)) as [Hok _].
  destruct (Hok stock_A) as (Hname & _ & _ & _ & Her & _).
  { vm_compute. reflexivity. }
  destruct (stock_constructor (H:=rounded_numpy) (mkInvestmentInfo "E" 1 [])
              {| index := [1; 2]%Z; index_name := None; data := [] |}) as [_ Hnone].
  split; [exact Hname | split; [exact Her | apply Hnone; reflexivity]].
Defined.

(** * Properties of the functions that build a portfolio *)

(** ** Strings *)

Lemma prefix_append (p s : string) : String.prefix p (p +:+ s) = true.
Proof.
  induction p as [|c p IH]; [by destruct s|].
  change (String.prefix (String c p) (String c (p +:+ s)) = true).
  cbn [String.prefix]. destruct (Ascii.ascii_dec c c); [exact IH | done].
Qed.

Lemma prefix_contains (sub s : string) : String.prefix sub s = true → contains sub s = true.
Proof. intros Hp. destruct s; cbn [contains]; by rewrite Hp. Qed.

Lemma append_empty (s : string) : s +:+ "" = s.
Proof.
  induction s as [|c s IH]; [done|].
  change (String c (s +:+ "") = String c s). by rewrite IH.
Qed.

Lemma contains_refl (s : string) : contains s s = true.
Proof.
  apply prefix_contains. pose proof (prefix_append s "") as Hp.
  by rewrite append_empty in Hp.
Qed.

Lemma replace_skip (p old new s : string) :
  replace_from (String.length p) old new (p +:+ s) = replace_from 0 old new s.
Proof.
  induction p as [|c p IH]; [by destruct s|].
  change (replace_from (S (String.length p)) old new (String c (p +:+ s))
          = replace_from 0 old new s).
  exact IH.
Qed.

(** An occurrence at the front is replaced, and the replacing goes on
    behind it. *)
Lemma replace_occurrence (old new s : string) :
  old ≠ "" →
  str_replace (old +:+ s) old new = new +:+ str_replace s old new.
Proof.
  destruct old as [|c old]; [done|]. intros _. unfold str_replace.
  change (String c old +:+ s) with (String c (old +:+ s)).
  cbn [replace_from].
  change (String c (old +:+ s)) with (String c old +:+ s).
  rewrite prefix_append.
  change (String.length (String c old) - 1)%nat with (String.length old - 0)%nat.
  by rewrite Nat.sub_0_r, replace_skip.
Qed.

(** Without an occurrence nothing is replaced. *)
Lemma replace_absent (old new s : string) :
  contains old s = false → str_replace s old new = s.
Proof.
  unfold str_replace. induction s as [|c s IH]; [done|].
  cbn [contains replace_from]. intros [Hp Hs]%orb_false_iff.
  by rewrite Hp, IH.
Qed.

(** ** Names for the data provider *)

(** X10. [_correctQuandlRequestStockName] returns one name per name it
    is given (one for a single string), every returned name starts with
    WIKI/, a name that starts with WIKI/ already is returned as it is,
    and so the function applied to its own result changes nothing. *)
Theorem corrected_names_are_prefixed (names : str_or_list) :
  length (_correctQuandlRequestStockName names)
    = match names with OneName _ => 1%nat | Names l => length l end
  ∧ Forall (fun name => String.prefix "WIKI/" name = true)
           (_correctQuandlRequestStockName names)
  ∧ (∀ l, Forall (fun name => String.prefix "WIKI/" name = true) l →
          _correctQuandlRequestStockName (Names l) = l)
  ∧ _correctQuandlRequestStockName (Names (_correctQuandlRequestStockName names))
    = _correctQuandlRequestStockName names.
Proof.
  assert (∀ l, Forall (fun name => String.prefix "WIKI/" name = true)
                 (_correctQuandlRequestStockName (Names l))) as Hprefixed.
  { intros l. unfold _correctQuandlRequestStockName. apply Forall_fmap, Forall_true.
    intros name. unfold compose.
    destruct (String.prefix "WIKI/" name) eqn:Hp; [done|]. apply prefix_append. }
  assert (∀ l, Forall (fun name => String.prefix "WIKI/" name = true) l →
               _correctQuandlRequestStockName (Names l) = l) as Hfixed.
  { intros l Hl. unfold _correctQuandlRequestStockName.
    induction Hl as [|name l Hname _ IH]; [done|].
    cbn [fmap list_fmap] in *. by rewrite Hname, IH. }
  split; [|split; [|split]].
  - unfold _correctQuandlRequestStockName. rewrite length_fmap. by destruct names.
  - destruct names as [name|l]; [apply (Hprefixed [name]) | apply Hprefixed].
  - exact Hfixed.
  - apply Hfixed. destruct names as [name|l]; [apply (Hprefixed [name]) | apply Hprefixed].
Qed.

Lemma corrected_names_are_prefixed_witness :
  _correctQuandlRequestStockName (Names ["WIKI/GOOG"; "WIKI/AMZN"])
  = ["WIKI/GOOG"; "WIKI/AMZN"].
Proof.
  destruct (corrected_names_are_prefixed (Names [])) as (_ & _ & Hfixed & _).
  apply Hfixed. repeat constructor.
Defined.

(** X11. The prefix that [_correctQuandlRequestStockName] puts in front
    of a name is what [replace('WIKI/', '')], by which
    [_getStocksDataColumns] renames the columns, takes away again: for
    names in which WIKI/ does not occur, correcting and then replacing
    gives the names back, also when it is done to the labels
    "WIKI/<name> - <column>" of the data provider, provided WIKI/ does
    not occur in the label "<name> - <column>". *)
Theorem prefix_round_trip (names : list string) (col : string) :
  Forall (fun name => contains "WIKI/" name = false) names →
  (fun name => str_replace name "WIKI/" "")
    <$> _correctQuandlRequestStockName (Names names) = names
  ∧ (Forall (fun name =>
               contains "WIKI/" (_getQuandlDataColumnLabel name col) = false) names →
     (fun reqname => str_replace (_getQuandlDataColumnLabel reqname col) "WIKI/" "")
       <$> _correctQuandlRequestStockName (Names names)
     = (fun name => _getQuandlDataColumnLabel name col) <$> names).
Proof.
  intros Hnames. unfold _correctQuandlRequestStockName.
  rewrite <-!list_fmap_compose. split.
  - rewrite <-(list_fmap_id names) at 2. apply Forall_fmap_ext.
    eapply Forall_impl; [exact Hnames|]. intros name Hname. unfold compose. cbn beta.
    destruct (String.prefix "WIKI/" name) eqn:Hp.
    { apply prefix_contains in Hp. congruence. }
    rewrite replace_occurrence by done. by apply replace_absent.
  - intros Hlabels. apply Forall_fmap_ext.
    apply Forall_forall. intros name Hin.
    assert (contains "WIKI/" name = false) as Hname
      by (by eapply Forall_forall in Hnames).
    assert (contains "WIKI/" (_getQuandlDataColumnLabel name col) = false) as Hlabel
      by (by eapply (proj1 (Forall_forall _ _) Hlabels)).
    unfold compose. cbn beta.
    destruct (String.prefix "WIKI/" name) eqn:Hp.
    { apply prefix_contains in Hp. congruence. }
    unfold _getQuandlDataColumnLabel in *.
    change (("WIKI/" +:+ name) +:+ " - " +:+ col)
      with ("WIKI/" +:+ (name +:+ " - " +:+ col)).
    rewrite replace_occurrence by done. by apply replace_absent.
Qed.

Lemma prefix_round_trip_witness :
  (fun name => str_replace name "WIKI/" "")
    <$> _correctQuandlRequestStockName (Names ["GOOG"; "AMZN"]) = ["GOOG"; "AMZN"].
Proof.
  apply (prefix_round_trip ["GOOG"; "AMZN"] "Adj. Close").
  repeat constructor.
Defined.

(** ** Lists of names *)

Lemma _allListEleInOther_spec (l1 l2 : list string) :
  _allListEleInOther l1 l2 = true ↔ ∀ x, x ∈ l1 → x ∈ l2.
Proof.
  unfold _allListEleInOther. rewrite forallb_forall. split.
  - intros Hall x Hx. apply list_elem_of_In in Hx.
    by apply Hall, bool_decide_eq_true in Hx.
  - intros Hall x Hx. apply bool_decide_eq_true, Hall. by apply list_elem_of_In.
Qed.

Lemma _anyListEleInOther_spec (l1 l2 : list string) :
  _anyListEleInOther l1 l2 = true ↔ ∃ x, x ∈ l1 ∧ x ∈ l2.
Proof.
  unfold _anyListEleInOther. rewrite existsb_exists. split.
  - intros (x & Hx & Hin). exists x. split; [by apply list_elem_of_In|].
    by apply bool_decide_eq_true in Hin.
  - intros (x & Hx & Hin). exists x. split; [by apply list_elem_of_In|].
    by apply bool_decide_eq_true.
Qed.

Lemma _listComplement_spec (A B : list string) (x : string) :
  x ∈ _listComplement A B ↔ x ∈ B ∧ x ∉ A.
Proof. unfold _listComplement. rewrite elem_of_elements. set_solver. Qed.

(** X12. The three helpers on lists: [_allListEleInOther] is true
    exactly when every element of the first list is in the second (so
    for an empty first list), [_anyListEleInOther] exactly when some
    element is in both (so never for an empty list), and
    [_listComplement(A, B)] holds exactly the elements of [B] that are
    not in [A], each once; hence [_anyListEleInOther] of a complement
    finds the elements of [B] outside [A]. *)
Theorem list_helpers (A B K : list string) :
  (_allListEleInOther A B = true ↔ ∀ x, x ∈ A → x ∈ B)
  ∧ (_anyListEleInOther A B = true ↔ ∃ x, x ∈ A ∧ x ∈ B)
  ∧ _allListEleInOther [] B = true
  ∧ _anyListEleInOther [] B = false
  ∧ (∀ x, x ∈ _listComplement A B ↔ x ∈ B ∧ x ∉ A)
  ∧ NoDup (_listComplement A B)
  ∧ (_anyListEleInOther (_listComplement A B) K = true
     ↔ (∃ x, x ∈ B ∧ (x ∉ A) ∧ x ∈ K)).
Proof.
  split; [apply _allListEleInOther_spec|]. split; [apply _anyListEleInOther_spec|].
  split; [done|]. split; [done|]. split; [apply _listComplement_spec|].
  split; [apply NoDup_elements|].
  rewrite _anyListEleInOther_spec. split.
  - intros (x & Hx & HK). apply _listComplement_spec in Hx as [HB HA]. eauto.
  - intros (x & HB & HA & HK). exists x. split; [|done].
    by apply _listComplement_spec.
Qed.

Lemma list_helpers_witness :
  _anyListEleInOther
    (_listComplement ["stock_data"] ["names"; "start_date"; "end_date"; "stock_data"])
    ["end_date"; "datacolumns"] = true.
Proof.
  destruct (list_helpers ["stock_data"] ["names"; "start_date"; "end_date"; "stock_data"]
              ["end_date"; "datacolumns"]) as (_ & _ & _ & _ & _ & _ & Hany).
  apply Hany. exists "end_date".
  split; [|split]; apply (bool_decide_unpack _); vm_compute; exact I.
Defined.

(** ** Names in the labels of the columns *)

Lemma prefix_spec (p s : string) :
  String.prefix p s = true ↔ ∃ rest, s = p +:+ rest.
Proof.
  split.
  - revert s. induction p as [|c p IH]; intros s Hp; [by exists s|].
    destruct s as [|c' s]; [done|]. cbn [String.prefix] in Hp.
    destruct (Ascii.ascii_dec c c') as [<-|]; [|done].
    destruct (IH _ Hp) as [rest ->]. by exists rest.
  - intros [rest ->]. apply prefix_append.
Qed.

(** [contains sub s] says that [sub] occurs in [s]. *)
Lemma contains_spec (sub s : string) :
  contains sub s = true ↔ ∃ front rest, s = front +:+ sub +:+ rest.
Proof.
  split.
  - induction s as [|c s IH]; cbn [contains]; intros [Hp|Hs]%orb_true_iff.
    + apply prefix_spec in Hp as [rest Heq]. by exists "", rest.
    + done.
    + apply prefix_spec in Hp as [rest Heq]. by exists "", rest.
    + destruct (IH Hs) as (front & rest & ->). by exists (String c front), rest.
  - intros (front & rest & ->). induction front as [|c front IH].
    + change ("" +:+ sub +:+ rest) with (sub +:+ rest).
      apply prefix_contains, prefix_append.
    + change (String c front +:+ sub +:+ rest) with (String c (front +:+ sub +:+ rest)).
      cbn [contains]. rewrite IH. apply orb_true_r.
Qed.

(** X13. [_stocknamesInDataColumns] is true exactly when one of the
    names occurs somewhere in one of the labels of the columns, be it as
    a part of the label only; it is false for no names and for a frame
    without columns, and true when a name is itself a label. *)
Theorem names_in_labels (names : list string) (df : DataFrame) :
  (_stocknamesInDataColumns names df = true
   ↔ ∃ name front rest,
       name ∈ names ∧ (front +:+ name +:+ rest) ∈ columns df)
  ∧ _stocknamesInDataColumns [] df = false
  ∧ (columns df = [] → _stocknamesInDataColumns names df = false)
  ∧ (∀ name, name ∈ names → name ∈ columns df →
       _stocknamesInDataColumns names df = true).
Proof.
  assert (_stocknamesInDataColumns names df = true
          ↔ ∃ name front rest,
              name ∈ names ∧ (front +:+ name +:+ rest) ∈ columns df) as Hspec.
  { unfold _stocknamesInDataColumns. rewrite existsb_exists. split.
    - intros (name & Hname & Hlabel). apply existsb_exists in Hlabel as (label & Hin & Hc).
      apply contains_spec in Hc as (front & rest & ->).
      exists name, front, rest. split; by apply list_elem_of_In.
    - intros (name & front & rest & Hname & Hlabel). exists name.
      split; [by apply list_elem_of_In|]. apply existsb_exists.
      exists (front +:+ name +:+ rest). split; [by apply list_elem_of_In|].
      apply contains_spec. eauto. }
  split; [exact Hspec|]. split; [done|]. split.
  - intros Hcols. apply not_true_is_false. rewrite Hspec.
    intros (name & front & rest & _ & Hlabel). rewrite Hcols in Hlabel.
    by apply not_elem_of_nil in Hlabel.
  - intros name Hname Hlabel. apply Hspec. exists name, "", "".
    split; [done|]. cbn. by rewrite append_empty.
Qed.

Lemma names_in_labels_witness :
  _stocknamesInDataColumns ["A"] (Stock.stock_data stock_A) = true.
Proof.
  destruct (names_in_labels ["A"] (Stock.stock_data stock_A)) as (_ & _ & _ & Hlabel).
  apply (Hlabel "A").
  - left.
  - replace (columns (Stock.stock_data stock_A)) with ["A"] by (vm_compute; reflexivity).
    left.
Defined.

(** ** The columns of the stocks *)

Global Instance resolvable_dec stock_data name col :
  Decision (resolvable stock_data name col).
Proof. unfold resolvable. apply _. Defined.

Lemma _correctQuandlRequestStockName_corrected (names : list string) :
  _correctQuandlRequestStockName (Names names) = corrected <$> names.
Proof. reflexivity. Qed.

Lemma resolve_column_run stock_data name col :
  resolve_column stock_data name (corrected name) col =
  if decide (resolvable stock_data name col) then
    Ok (resolved_label stock_data name col)
  else Raise (ValueError "Could not find column labels in given dataframe.").
Proof.
  unfold resolve_column, resolved_label, resolvable.
  repeat case_decide; try done; tauto.
Qed.

Lemma resolved_label_in stock_data name col :
  resolvable stock_data name col →
  resolved_label stock_data name col ∈ columns stock_data.
Proof. unfold resolved_label, resolvable. repeat case_decide; tauto. Qed.

Lemma mapM_resolve_column stock_data name cols :
  mapM (resolve_column stock_data name (corrected name)) cols =
  if decide (Forall (resolvable stock_data name) cols) then
    Ok (resolved_label stock_data name <$> cols)
  else Raise (ValueError "Could not find column labels in given dataframe.").
Proof.
  induction cols as [|col cols IH]; [done|].
  cbn [mapM]. rewrite resolve_column_run.
  destruct (decide (resolvable stock_data name col)) as [Hcol|Hcol].
  - cbn [mbind result_bind]. change (mapM ?f cols) with (mapM f cols) in IH.
    rewrite IH. destruct (decide (Forall _ cols)) as [Hcols|Hcols].
    + by rewrite decide_True by (by constructor).
    + rewrite decide_False; [done|]. by intros [? ?]%Forall_cons.
  - rewrite decide_False; [done|]. by intros [? ?]%Forall_cons.
Qed.

Lemma required_columns_run stock_data names cols :
  required_columns stock_data names (corrected <$> names) cols =
  if decide (Forall (fun name => Forall (resolvable stock_data name) cols) names) then
    Ok (names ≫= (fun name => resolved_label stock_data name <$> cols))
  else Raise (ValueError "Could not find column labels in given dataframe.").
Proof.
  induction names as [|name names IH]; [done|].
  cbn [required_columns fmap list_fmap]. rewrite mapM_resolve_column.
  destruct (decide (Forall (resolvable stock_data name) cols)) as [Hname|Hname].
  - cbn [mbind result_bind]. change (list_fmap _ _ corrected names) with (corrected <$> names).
    rewrite IH. destruct (decide (Forall _ names)) as [Hnames|Hnames].
    + by rewrite decide_True by (by constructor).
    + rewrite decide_False; [done|]. by intros [? ?]%Forall_cons.
  - rewrite decide_False; [done|]. by intros [? ?]%Forall_cons.
Qed.

(** A label that a frame has once selects its one column. *)
Lemma filter_label (cols : list (string * list npfloat)) (label : string) :
  NoDup cols.*1 → label ∈ cols.*1 →
  ∃ values, filter (fun c => c.1 = label) cols = [(label, values)].
Proof.
  induction cols as [|[l v] cols IH]; intros Hdup Hin.
  { by apply not_elem_of_nil in Hin. }
  cbn [fmap list_fmap fst] in Hdup, Hin. apply NoDup_cons in Hdup as [Hl Hdup].
  destruct (decide (l = label)) as [->|Hne].
  - rewrite filter_cons_True by done. exists v. f_equal.
    apply elem_of_nil_inv. intros c [Hc Hcin]%list_elem_of_filter.
    apply Hl. rewrite <-Hc. apply list_elem_of_fmap. by exists c.
  - rewrite filter_cons_False by done. apply IH; [done|].
    by apply elem_of_cons in Hin as [->|].
Qed.

Lemma loc_columns_length (df : DataFrame) (labels : list string) :
  NoDup (columns df) → Forall (fun label => label ∈ columns df) labels →
  length (data (loc_columns df labels)) = length labels.
Proof.
  intros Hdup Hlabels. cbn [loc_columns data].
  induction Hlabels as [|label labels Hlabel _ IH]; [done|].
  cbn [mbind list_bind]. change (list_bind _ _ ?f labels) with (labels ≫= f).
  rewrite length_app, IH.
  destruct (filter_label (data df) label Hdup Hlabel) as [values ->]. done.
Qed.

(** X14. [_getStocksDataColumns] raises [ValueError] exactly when, for
    one of the stocks and one of the data labels, the frame has none of
    the three labels "<name>", "WIKI/<name> - <label>" and
    "<name> - <label>" (the first with WIKI/ put in front of the name
    unless it is there); otherwise it returns a frame with the index of
    the frame it was given and, when that frame has no label twice, with
    one column for every stock and data label.  For no stocks the result
    has no columns. *)
Theorem columns_found_or_ValueError (stock_data : DataFrame) (names cols : list string) :
  (Forall (fun name => Forall (resolvable stock_data name) cols) names →
   ∃ d, _getStocksDataColumns stock_data names cols = Ok d
        ∧ index d = index stock_data ∧ index_name d = index_name stock_data
        ∧ (NoDup (columns stock_data) →
           length (data d) = (length names * length cols)%nat))
  ∧ (¬ Forall (fun name => Forall (resolvable stock_data name) cols) names →
     _getStocksDataColumns stock_data names cols
     = Raise (ValueError "Could not find column labels in given dataframe."))
  ∧ ∃ d, _getStocksDataColumns stock_data [] cols = Ok d ∧ data d = [].
Proof.
  unfold _getStocksDataColumns. rewrite !_correctQuandlRequestStockName_corrected.
  rewrite required_columns_run. split; [|split].
  - intros Hall. rewrite decide_True by done. cbn [mbind result_bind].
    set (labels := names ≫= _).
    assert (NoDup (columns stock_data) →
            length (data (loc_columns stock_data labels))
            = (length names * length cols)%nat) as Hlen.
    { intros Hdup. rewrite loc_columns_length; [|done|].
      - unfold labels. clear. induction names as [|name names IH]; [done|].
        cbn [mbind list_bind]. change (list_bind _ _ ?f names) with (names ≫= f).
        rewrite length_app, IH, length_fmap. cbn. lia.
      - unfold labels. apply Forall_forall. intros label Hlabel.
        apply list_elem_of_bind in Hlabel as (name & Hlabel & Hname).
        apply list_elem_of_fmap in Hlabel as (col & -> & Hcol).
        apply resolved_label_in.
        eapply Forall_forall in Hall; [|exact Hname].
        by eapply Forall_forall in Hall. }
    destruct cols as [|col [|col' cols]]; eexists; (split; [reflexivity|]);
      cbn [index index_name data rename_columns loc_columns];
      (split; [done|]); (split; [done|]); intros Hdup; rewrite ?length_fmap;
      by apply Hlen.
  - intros Hall. by rewrite decide_False.
  - rewrite required_columns_run. rewrite decide_True by constructor.
    cbn [mbind result_bind]. destruct cols as [|col [|col' cols]]; by eexists.
Qed.

Lemma columns_found_or_ValueError_witness :
  ∃ d, _getStocksDataColumns quandl_frame ["GOOG"; "AMZN"] ["Adj. Close"] = Ok d
       ∧ length (data d) = 2%nat.
Proof.
  destruct (columns_found_or_ValueError quandl_frame ["GOOG"; "AMZN"] ["Adj. Close"])
    as (Hfound & _).
  destruct Hfound as (d & Hd & _ & _ & Hlen).
  - repeat constructor; right; left; apply (bool_decide_unpack _); by vm_compute.
  - exists d. split; [exact Hd|]. apply Hlen.
    apply (bool_decide_unpack _); by vm_compute.
Defined.

Lemma append_assoc (a b c : string) : (a +:+ b) +:+ c = a +:+ b +:+ c.
Proof.
  induction a as [|x a IH]; [done|].
  change (String x ((a +:+ b) +:+ c) = String x (a +:+ b +:+ c)). by rewrite IH.
Qed.

Lemma append_length (a b : string) :
  String.length (a +:+ b) = (String.length a + String.length b)%nat.
Proof.
  induction a as [|x a IH]; [done|].
  change (S (String.length (a +:+ b)) = S (String.length a + String.length b)).
  by rewrite IH.
Qed.

Lemma append_inj_r (a b t : string) : a +:+ t = b +:+ t → a = b.
Proof.
  revert b. induction a as [|x a IH]; intros [|y b] Heq; [done| | |].
  - apply (f_equal String.length) in Heq.
    change ("" +:+ t) with t in Heq.
    change (String y b +:+ t) with (String y (b +:+ t)) in Heq.
    cbn [String.length] in Heq. rewrite append_length in Heq. lia.
  - apply (f_equal String.length) in Heq.
    change ("" +:+ t) with t in Heq.
    change (String x a +:+ t) with (String x (a +:+ t)) in Heq.
    cbn [String.length] in Heq. rewrite append_length in Heq. lia.
  - change (String x (a +:+ t) = String y (b +:+ t)) in Heq.
    injection Heq as -> Heq. f_equal. by apply IH.
Qed.

Lemma contains_append (sub s t : string) :
  contains sub s = true → contains sub (s +:+ t) = true.
Proof.
  intros (front & rest & ->)%contains_spec. apply contains_spec.
  exists front, (rest +:+ t). by rewrite !append_assoc.
Qed.

Lemma label_inj (col : string) : Inj (=) (=) (fun name => _getQuandlDataColumnLabel name col).
Proof. intros a b Heq. by apply append_inj_r in Heq. Qed.

(** The dictionary that a loop of [update]s builds. *)
Lemma foldl_insert_lookup {A} (g : A → string) (h : A → string) (l : list A)
    (d : gmap string string) (n : A) :
  Inj (=) (=) g → n ∈ l ∨ d !! g n = Some (h n) →
  foldl (fun d n => <[g n := h n]> d) d l !! g n = Some (h n).
Proof.
  intros Hinj. revert d. induction l as [|a l IH]; intros d Hn; cbn [foldl].
  { destruct Hn as [Hn|Hn]; [by apply not_elem_of_nil in Hn | done]. }
  apply IH. destruct Hn as [[->|Hn]%elem_of_cons|Hn].
  - right. apply lookup_insert_eq.
  - by left.
  - right. destruct (decide (g a = g n)) as [Heq|Hne].
    + apply Hinj in Heq as ->. apply lookup_insert_eq.
    + by rewrite lookup_insert_ne.
Qed.

Lemma foldl_insert_lookup_None {A} (g : A → string) (h : A → string) (l : list A)
    (d : gmap string string) (k : string) :
  k ∉ g <$> l → foldl (fun d n => <[g n := h n]> d) d l !! k = d !! k.
Proof.
  revert d. induction l as [|a l IH]; intros d Hk; [done|]. cbn [foldl].
  cbn [fmap list_fmap] in Hk. apply not_elem_of_cons in Hk as [Hne Hk].
  rewrite IH by done. by rewrite lookup_insert_ne.
Qed.

Lemma loc_columns_data (df : DataFrame) (labels : list string) :
  NoDup (columns df) → Forall (fun label => label ∈ columns df) labels →
  data (loc_columns df labels) = (fun label => (label, column_values df label)) <$> labels.
Proof.
  intros Hdup Hlabels. cbn [loc_columns data].
  induction Hlabels as [|label labels Hlabel _ IH]; [done|].
  cbn [mbind list_bind fmap list_fmap]. change (list_bind _ _ ?f labels) with (labels ≫= f).
  rewrite IH. unfold column_values at 2.
  by destruct (filter_label (data df) label Hdup Hlabel) as [values ->].
Qed.

(** X15. For one data label, and a frame that has no label twice and
    for every stock one of the three labels that are looked for, the
    frame that [_getStocksDataColumns] returns has one column for every
    stock, in the order of the names, labelled with the name of the
    stock and holding the values of the column that was found for it -
    provided "WIKI/" occurs in no "<name> - <label>" and no name is
    itself of the form "<other name> - <label>". *)
Theorem one_data_column_is_labelled_by_name
    (stock_data : DataFrame) (names : list string) (col : string) :
  NoDup (columns stock_data) →
  Forall (fun name => resolvable stock_data name col) names →
  Forall (fun name => contains "WIKI/" (_getQuandlDataColumnLabel name col) = false) names →
  (∀ name other, name ∈ names → other ∈ names →
     name ≠ _getQuandlDataColumnLabel other col) →
  _getStocksDataColumns stock_data names [col]
  = Ok {| index := index stock_data; index_name := index_name stock_data;
          data := (fun name =>
                     (name, column_values stock_data (resolved_label stock_data name col)))
                  <$> names |}.
Proof.
  intros Hdup Hres Hwiki Hlabel. unfold _getStocksDataColumns.
  rewrite _correctQuandlRequestStockName_corrected, required_columns_run.
  rewrite decide_True
    by (eapply Forall_impl; [exact Hres|]; intros name ?; by apply Forall_singleton).
  cbn [mbind result_bind].
  assert (names ≫= (fun name => resolved_label stock_data name <$> [col])
          = (fun name => resolved_label stock_data name col) <$> names) as ->.
  { clear. induction names as [|name names IH]; [done|].
    cbn [mbind list_bind]. change (list_bind _ _ ?f names) with (names ≫= f).
    by rewrite IH. }
  set (labels := _ <$> names). f_equal.
  unfold rename_columns. cbn [index index_name data]. f_equal.
  rewrite loc_columns_data; [|done|].
  2:{ unfold labels. apply Forall_fmap. eapply Forall_impl; [exact Hres|].
      intros name ?. by apply resolved_label_in. }
  unfold labels. rewrite <-!list_fmap_compose.
  apply Forall_fmap_ext. apply Forall_forall. intros name Hname.
  pose proof (proj1 (Forall_forall _ _) Hres name Hname) as Hr.
  pose proof (proj1 (Forall_forall _ _) Hwiki name Hname) as Hw.
  cbn [compose fst snd]. f_equal.
  set (r := resolved_label stock_data name col).
  rewrite (foldl_insert_lookup id (fun i => str_replace i "WIKI/" "") _ ∅ r);
    [|apply _|].
  2:{ left. unfold r. apply list_elem_of_fmap. by exists name. }
  cbn [default].
  assert (contains "WIKI/" name = false) as Hn.
  { destruct (contains "WIKI/" name) eqn:Hc; [|done].
    pose proof (contains_append _ _ (" - " +:+ col) Hc) as Hc'.
    cbv beta in Hw. unfold _getQuandlDataColumnLabel in Hw. congruence. }
  assert (String.prefix "WIKI/" name = false) as Hp.
  { destruct (String.prefix "WIKI/" name) eqn:Hc; [|done].
    by rewrite (prefix_contains _ _ Hc) in Hn. }
  assert (str_replace r "WIKI/" "" = name
          ∨ str_replace r "WIKI/" "" = _getQuandlDataColumnLabel name col) as [->| ->].
  { unfold r, resolved_label, corrected. rewrite Hp. repeat case_decide.
    - left. by apply replace_absent.
    - right.
      change (_getQuandlDataColumnLabel ("WIKI/" +:+ name) col)
        with ("WIKI/" +:+ _getQuandlDataColumnLabel name col).
      rewrite replace_occurrence by done. by rewrite replace_absent.
    - right. by apply replace_absent. }
  - rewrite (foldl_insert_lookup_None (fun n => _getQuandlDataColumnLabel n col));
      [done|].
    intros (other & Heq & Hother)%list_elem_of_fmap.
    exact (Hlabel name other Hname Hother Heq).
  - pose proof (foldl_insert_lookup (fun n => _getQuandlDataColumnLabel n col)
                  (fun n => n) names ∅ name (label_inj col) (or_introl Hname)) as Hl.
    cbv beta in Hl. unfold id. by rewrite Hl.
Qed.

Lemma one_data_column_is_labelled_by_name_witness :
  _getStocksDataColumns quandl_frame ["GOOG"; "AMZN"] ["Adj. Close"]
  = Ok {| index := index quandl_frame; index_name := index_name quandl_frame;
          data := (fun name =>
                     (name, column_values quandl_frame
                              (resolved_label quandl_frame name "Adj. Close")))
                  <$> ["GOOG"; "AMZN"] |}.
Proof.
  apply (one_data_column_is_labelled_by_name quandl_frame ["GOOG"; "AMZN"] "Adj. Close").
  - apply (bool_decide_unpack _); by vm_compute.
  - repeat constructor; right; left; apply (bool_decide_unpack _); by vm_compute.
  - repeat constructor.
  - intros name other Hname Hother.
    repeat (apply elem_of_cons in Hname as [->|Hname]);
      repeat (apply elem_of_cons in Hother as [->|Hother]);
      try discriminate;
      by apply not_elem_of_nil in Hname || by apply not_elem_of_nil in Hother.
Defined.

(** ** Building a portfolio from a frame of prices *)

Lemma Stock_init_fields `{NumPy} investmentinfo stock_data stock :
  Stock.__init__ investmentinfo stock_data = Ok stock →
  Stock.name stock = Name investmentinfo
  ∧ Stock.getInvestmentInfo stock = investmentinfo
  ∧ Stock.stock_data stock = stock_data.
Proof.
  unfold Stock.__init__. cbn zeta.
  destruct (Stock.compExpectedReturn _ 252) as [er|e]; [|done]. cbn [mbind result_bind].
  destruct (Stock.compVolatility _ 252) as [vol|e]; [|done]. cbn [mbind result_bind].
  destruct (Stock.__compSkew _) as [sk|e]; [|done]. cbn [mbind result_bind].
  destruct (Stock.__compKurtosis _) as [ku|e]; [|done]. cbn [mbind result_bind].
  by intros [= <-].
Qed.

Lemma addStocks_stocks `{NumPy} new_stocks self self' :
  addStocks new_stocks self = (self', Ok ()) →
  stocks self'
  = foldl (fun m stock => <[Stock.name stock := stock]> m) (stocks self) new_stocks.
Proof.
  revert self. induction new_stocks as [|stock rest IH]; intros self Hadd.
  - by injection Hadd as <-.
  - cbn [addStocks] in Hadd. apply run_bind_ok in Hadd as ([] & s & Hs & Hrest).
    rewrite (IH _ Hrest). cbn [foldl].
    pose proof (addStock_stocks stock self) as Hstocks. rewrite Hs in Hstocks.
    cbn [fst] in Hstocks. by rewrite Hstocks.
Qed.

Lemma stored_by_name_dom (new_stocks : list Stock.t) (m : gmap string Stock.t) :
  dom (foldl (fun m stock => <[Stock.name stock := stock]> m) m new_stocks)
  = dom m ∪ list_to_set (Stock.name <$> new_stocks).
Proof.
  revert m. induction new_stocks as [|stock rest IH]; intros m; cbn [foldl].
  - cbn [fmap list_fmap list_to_set]. by rewrite (right_id_L ∅ (∪)).
  - rewrite IH, dom_insert_L. cbn [fmap list_fmap list_to_set].
    by rewrite (comm_L (∪) {[Stock.name stock]} (dom m)), (assoc_L (∪)).
Qed.

Lemma stored_by_name_lookup (new_stocks : list Stock.t) (m : gmap string Stock.t)
    (key : string) (stock : Stock.t) :
  foldl (fun m stock => <[Stock.name stock := stock]> m) m new_stocks !! key = Some stock →
  m !! key = Some stock ∨ (stock ∈ new_stocks ∧ Stock.name stock = key).
Proof.
  revert m. induction new_stocks as [|new rest IH]; intros m; cbn [foldl]; [by left|].
  intros [Hm|[Hin Hname]]%IH.
  - destruct (decide (Stock.name new = key)) as [<-|Hne].
    + rewrite lookup_insert_eq in Hm. injection Hm as <-. right. split; [left|done].
    + rewrite lookup_insert_ne in Hm by done. by left.
  - right. split; [by right|done].
Qed.

(** The loop over the rows: what it leaves is what calls of [addStock]
    leave, one for every row, with a stock that bears the [Name] of the
    row and holds the row. *)
Lemma build_stocks_ok `{NumPy} `{Regex} pf_information stock_data pf pf' :
  build_stocks pf_information stock_data pf = Ok pf' →
  ∃ new_stocks,
    addStocks new_stocks pf = (pf', Ok ())
    ∧ Stock.getInvestmentInfo <$> new_stocks = pf_information
    ∧ Stock.name <$> new_stocks = Name <$> pf_information.
Proof.
  revert pf. induction pf_information as [|row rest IH]; intros pf Hbuild.
  - injection Hbuild as <-. by exists [].
  - cbn [build_stocks] in Hbuild. cbn zeta in Hbuild.
    destruct (filter_regex stock_data (Name row)) as [d|e]; [|done].
    cbn [mbind result_bind] in Hbuild.
    destruct (Stock.__init__ row d) as [stock|e] eqn:Hstock; [|done].
    cbn [mbind result_bind] in Hbuild.
    destruct (addStock stock pf) as [pf1 [[]|e]] eqn:Hadd; [|done].
    apply IH in Hbuild as (new_stocks & Hrest & Hinfo & Hnames).
    apply Stock_init_fields in Hstock as (Hname & Hrow & _).
    exists (stock :: new_stocks). split; [|split].
    + cbn [addStocks]. by rewrite run_bind, Hadd.
    + cbn [fmap list_fmap]. by rewrite Hrow, <-Hinfo.
    + cbn [fmap list_fmap]. by rewrite Hname, <-Hnames.
Qed.

Lemma _stocknamesInDataColumns_false (names : list string) (df : DataFrame) :
  (∀ name label, name ∈ names → label ∈ columns df → contains name label = false) →
  _stocknamesInDataColumns names df = false.
Proof.
  intros Hnone. apply not_true_iff_false. unfold _stocknamesInDataColumns.
  intros (name & Hname & (label & Hlabel & Hc)%existsb_exists)%existsb_exists.
  apply list_elem_of_In in Hname, Hlabel.
  by rewrite (Hnone name label Hname Hlabel) in Hc.
Qed.

(** X16. [_buildPortfolioFromDf] raises the [ValueError] of its first
    test (the message is written out below as the source builds it) when
    no [Name] of [pf_information] occurs in a column label of the frame
    of prices; so it does for a [pf_information] without rows, whatever
    the frame is. *)
Theorem no_name_in_the_labels `{NumPy} `{Regex}
    (pf_information : list InvestmentInfo) (stock_data : DataFrame)
    (datacolumns : list string) :
  ((∀ row label, row ∈ pf_information → label ∈ columns stock_data →
      contains (Name row) label = false) →
   _buildPortfolioFromDf pf_information stock_data datacolumns
   = Raise (ValueError "Error: None of the provided stock names werefound in the provided dataframe."))
  ∧ _buildPortfolioFromDf [] stock_data datacolumns
    = Raise (ValueError "Error: None of the provided stock names werefound in the provided dataframe.").
Proof.
  split; [|done]. intros Hnone. unfold _buildPortfolioFromDf.
  rewrite _stocknamesInDataColumns_false; [done|].
  intros name label (row & -> & Hrow)%list_elem_of_fmap Hlabel. by apply Hnone.
Qed.

Lemma no_name_in_the_labels_witness :
  @_buildPortfolioFromDf rounded_numpy substring_regex
    [mkInvestmentInfo "MSFT" (Qc_of_Z 10) []] quandl_frame ["Adj. Close"]
  = Raise (ValueError "Error: None of the provided stock names werefound in the provided dataframe.").
Proof.
  apply (@no_name_in_the_labels rounded_numpy substring_regex).
  intros row label Hrow Hlabel.
  apply list_elem_of_singleton in Hrow as ->.
  change (columns quandl_frame)
    with ["WIKI/GOOG - Adj. Close"; "WIKI/GOOG - Volume"; "WIKI/AMZN - Adj. Close"]
    in Hlabel.
  repeat (apply elem_of_cons in Hlabel as [->|Hlabel]); [done..|].
  by apply not_elem_of_nil in Hlabel.
Defined.

(** X17. A portfolio that [_buildPortfolioFromDf] returns: its frame of
    investment information is [pf_information], which has a row; the
    stocks are stored under the [Name]s of [pf_information], each under
    its own name and holding a row of [pf_information]; the total
    investment is the sum of the column [FMV], which is positive; and
    the weights are the shares FMV / total. *)
Theorem portfolio_built_from_a_frame `{NumPy} `{Regex}
    (pf_information : list InvestmentInfo) (stock_data : DataFrame)
    (datacolumns : list string) (pf : t) :
  _buildPortfolioFromDf pf_information stock_data datacolumns = Ok pf →
  pf_information ≠ []
  ∧ rows (portfolio pf) = pf_information
  ∧ dom (stocks pf) = list_to_set (Name <$> pf_information)
  ∧ (∀ key stock, stocks pf !! key = Some stock →
       Stock.name stock = key ∧ Stock.getInvestmentInfo stock ∈ pf_information)
  ∧ totalinvestment pf = (pf, Ok (total (FMV <$> pf_information)))
  ∧ 0 < total (FMV <$> pf_information)
  ∧ compPfWeights pf
    = (pf, Ok ((fun x => fdiv (Fin x) (Fin (total (FMV <$> pf_information))))
                 <$> (FMV <$> pf_information))).
Proof.
  unfold _buildPortfolioFromDf. intros Hbuild.
  destruct pf_information as [|row rest]; [done|].
  set (pf_information := row :: rest) in *.
  destruct (negb _); [done|].
  destruct (_getStocksDataColumns _ _ _) as [d|e]; [|done].
  cbn [mbind result_bind] in Hbuild. cbn zeta in Hbuild.
  apply build_stocks_ok in Hbuild as (new_stocks & Hadd & Hinfo & Hnames).
  assert (new_stocks ≠ []) as Hne by (by destruct new_stocks).
  pose proof (addStocks_rows _ _ _ Hadd) as Hrows. cbn [rows portfolio __init__ app] in Hrows.
  rewrite Hinfo in Hrows.
  destruct (addStocks_totalinvestment _ _ _ Hne Hadd) as [Htot Hpos].
  rewrite Hrows in Htot, Hpos.
  pose proof (addStocks_stocks _ _ _ Hadd) as Hstocks.
  change (stocks __init__) with (∅ : gmap string Stock.t) in Hstocks.
  split; [done|]. split; [exact Hrows|]. split; [|split; [|split; [|split]]].
  - by rewrite Hstocks, stored_by_name_dom, Hnames, dom_empty_L, (left_id_L ∅ (∪)).
  - intros key stock Hlookup. rewrite Hstocks in Hlookup.
    apply stored_by_name_lookup in Hlookup as [Hempty|[Hin Hname]]; [done|].
    split; [exact Hname|]. rewrite <-Hinfo. apply list_elem_of_fmap. by exists stock.
  - by rewrite totalinvestment_run, Htot.
  - exact Hpos.
  - rewrite compPfWeights_run. unfold weights_of. by rewrite Hrows, Htot.
Qed.

Lemma portfolio_built_from_a_frame_witness :
  ∃ pf, @_buildPortfolioFromDf rounded_numpy substring_regex
          pf_information_example quandl_frame ["Adj. Close"] = Ok pf
        ∧ rows (portfolio pf) = pf_information_example
        ∧ totalinvestment pf = (pf, Ok (total (FMV <$> pf_information_example))).
Proof.
  assert (∃ pf, @_buildPortfolioFromDf rounded_numpy substring_regex
                  pf_information_example quandl_frame ["Adj. Close"] = Ok pf)
    as [pf Hpf] by (eexists; vm_compute; reflexivity).
  exists pf. split; [exact Hpf|].
  destruct (@portfolio_built_from_a_frame rounded_numpy substring_regex _ _ _ _ Hpf)
    as (_ & Hrows & _ & _ & Htot & _).
  split; [exact Hrows | exact Htot].
Defined.

(** ** The keywords of [buildPortfolio] *)

Lemma keys_spec (kw : kwargs) (k : string) :
  k ∈ keys kw ↔
  (k = "names" ∧ kw_names kw ≠ None)
  ∨ (k = "start_date" ∧ kw_start_date kw ≠ None)
  ∨ (k = "end_date" ∧ kw_end_date kw ≠ None)
  ∨ (k = "stock_data" ∧ kw_stock_data kw ≠ None)
  ∨ (k = "datacolumns" ∧ kw_datacolumns kw ≠ None)
  ∨ k ∈ kw_others kw.
Proof.
  unfold keys. rewrite !elem_of_app.
  destruct (kw_names kw), (kw_start_date kw), (kw_end_date kw), (kw_stock_data kw),
    (kw_datacolumns kw);
    rewrite ?list_elem_of_singleton, ?elem_of_nil; intuition congruence.
Qed.

Lemma one_key_in (key : string) (l : list string) :
  _allListEleInOther [key] l = bool_decide (key ∈ l).
Proof. unfold _allListEleInOther. cbn [forallb]. by rewrite andb_true_r. Qed.

Lemma stock_data_conflicts (l : list string) :
  _anyListEleInOther
    (_listComplement ["names"; "start_date"; "end_date"]
                     ["names"; "start_date"; "end_date"; "stock_data"]) l
  = bool_decide ("stock_data" ∈ l).
Proof.
  destruct (_anyListEleInOther _ l) eqn:Hany; symmetry.
  - apply bool_decide_eq_true.
    apply _anyListEleInOther_spec in Hany as (x & Hcomplement & Hx).
    apply _listComplement_spec in Hcomplement as [Hall Hallowed].
    pose proof (not_elem_of_nil x) as Hnil.
    rewrite !elem_of_cons in Hall. rewrite !elem_of_cons in Hallowed.
    intuition (subst; congruence).
  - apply bool_decide_eq_false. intros Hin. apply not_true_iff_false in Hany.
    apply Hany, _anyListEleInOther_spec. exists "stock_data". split; [|done].
    apply _listComplement_spec.
    split; apply (bool_decide_unpack _); vm_compute; exact I.
Qed.

Lemma names_conflict (l : list string) :
  _anyListEleInOther
    (_listComplement ["stock_data"]
                     ["names"; "start_date"; "end_date"; "stock_data"]) l
  = bool_decide ("names" ∈ l ∨ "start_date" ∈ l ∨ "end_date" ∈ l).
Proof.
  destruct (_anyListEleInOther _ l) eqn:Hany; symmetry.
  - apply bool_decide_eq_true.
    apply _anyListEleInOther_spec in Hany as (x & Hcomplement & Hx).
    apply _listComplement_spec in Hcomplement as [Hall Hallowed].
    pose proof (not_elem_of_nil x) as Hnil.
    rewrite !elem_of_cons in Hall. rewrite !elem_of_cons in Hallowed.
    intuition (subst; congruence).
  - apply bool_decide_eq_false. intros Hin. apply not_true_iff_false in Hany.
    apply Hany, _anyListEleInOther_spec.
    destruct Hin as [Hin|[Hin|Hin]];
      [exists "names" | exists "start_date" | exists "end_date"];
      (split; [|done]); apply _listComplement_spec;
      split; apply (bool_decide_unpack _); vm_compute; exact I.
Qed.

(** X18. The keywords of [buildPortfolio].  [stock_data] together with
    [names], [start_date] or [end_date] raises [ValueError].  With
    neither [names] nor [stock_data] the function returns an empty
    portfolio, whatever other keywords it is given.  With [names] (and no
    [stock_data]) the prices are requested for the corrected names and
    the dates given ([None] for a date that is not given) and the
    portfolio is built from the answer with the data label Adj. Close;
    [datacolumns] or an unknown keyword raises [TypeError] then.  With
    [stock_data] alone the portfolio is built from that frame, with the
    [datacolumns] given or else Adj. Close; an unknown keyword raises
    [TypeError]. *)
Theorem keywords_of_buildPortfolio `{NumPy} `{Regex} `{Quandl}
    (pf_information : list InvestmentInfo) (kw : kwargs) :
  (kw_stock_data kw ≠ None →
   kw_names kw ≠ None ∨ kw_start_date kw ≠ None ∨ kw_end_date kw ≠ None →
   ∃ msg, buildPortfolio pf_information kw = Raise (ValueError msg))
  ∧ ((∀ k, k ∈ kw_others kw → k ∉ known_keywords) →
     (kw_names kw = None → kw_stock_data kw = None →
      buildPortfolio pf_information kw = Ok __init__)
     ∧ (∀ names, kw_names kw = Some names → kw_stock_data kw = None →
        buildPortfolio pf_information kw
        = if decide (kw_datacolumns kw = None ∧ kw_others kw = []) then
            stock_data ← quandl_get (_correctQuandlRequestStockName names)
                            (default DateNone (kw_start_date kw))
                            (default DateNone (kw_end_date kw));
            _buildPortfolioFromDf pf_information stock_data ["Adj. Close"]
          else Raise TypeError)
     ∧ (∀ stock_data, kw_stock_data kw = Some stock_data → kw_names kw = None →
        kw_start_date kw = None → kw_end_date kw = None →
        buildPortfolio pf_information kw
        = if decide (kw_others kw = []) then
            _buildPortfolioFromDf pf_information stock_data
              (default ["Adj. Close"] (kw_datacolumns kw))
          else Raise TypeError)).
Proof.
  unfold buildPortfolio. cbn zeta.
  rewrite !one_key_in, stock_data_conflicts, names_conflict.
  split; [|intros Hothers; split; [|split]].
  - intros Hdata Hconflict.
    assert ("stock_data" ∈ keys kw) as Hin by (apply keys_spec; intuition congruence).
    rewrite (bool_decide_eq_true_2 _ Hin).
    destruct (bool_decide ("names" ∈ keys kw)) eqn:Hnames.
    + by eexists.
    + cbn [mbind result_bind]. rewrite bool_decide_eq_true_2; [by eexists|].
      destruct Hconflict as [Hn|[Hs|He]].
      * left. apply keys_spec. intuition congruence.
      * right; left. apply keys_spec. intuition congruence.
      * right; right. apply keys_spec. intuition congruence.
  - intros Hnames Hdata.
    rewrite (bool_decide_eq_false_2 ("names" ∈ keys kw)).
    2:{ rewrite keys_spec, Hnames. intros [[_ ?]|[[? _]|[[? _]|[[? _]|[[? _]|Hk]]]]];
          try done. apply Hothers in Hk. apply Hk. unfold known_keywords.
        rewrite !elem_of_cons. intuition congruence. }
    cbn [mbind result_bind].
    rewrite (bool_decide_eq_false_2 ("stock_data" ∈ keys kw)); [done|].
    rewrite keys_spec, Hdata. intros [[? _]|[[? _]|[[? _]|[[_ ?]|[[? _]|Hk]]]]];
      try done. apply Hothers in Hk. apply Hk. unfold known_keywords.
    rewrite !elem_of_cons. intuition congruence.
  - intros names Hnames Hdata.
    rewrite (bool_decide_eq_true_2 ("names" ∈ keys kw))
      by (apply keys_spec; rewrite Hnames; intuition congruence).
    rewrite (bool_decide_eq_false_2 ("stock_data" ∈ keys kw)).
    2:{ rewrite keys_spec, Hdata. intros [[? _]|[[? _]|[[? _]|[[_ ?]|[[? _]|Hk]]]]];
          try done. apply Hothers in Hk. apply Hk. unfold known_keywords.
        rewrite !elem_of_cons. intuition congruence. }
    unfold call_buildPortfolioFromQuandl, _buildPortfolioFromQuandl, _quandlRequest.
    rewrite Hnames, Hdata. cbn zeta.
    destruct (kw_datacolumns kw) as [cols|], (kw_others kw) as [|other others];
      try (rewrite decide_False by (by intros [? ?]); done).
    rewrite decide_True by done.
    destruct (quandl_get _ _ _) as [stock_data|e]; [|done]. cbn [mbind result_bind].
    by destruct (_buildPortfolioFromDf _ _ _).
  - intros stock_data Hdata Hnames Hstart Hend.
    rewrite (bool_decide_eq_false_2 ("names" ∈ keys kw)).
    2:{ rewrite keys_spec, Hnames. intros [[_ ?]|[[? _]|[[? _]|[[? _]|[[? _]|Hk]]]]];
          try done. apply Hothers in Hk. apply Hk. unfold known_keywords.
        rewrite !elem_of_cons. intuition congruence. }
    cbn [mbind result_bind].
    rewrite (bool_decide_eq_true_2 ("stock_data" ∈ keys kw))
      by (apply keys_spec; rewrite Hdata; intuition congruence).
    rewrite bool_decide_eq_false_2.
    2:{ rewrite !keys_spec, Hnames, Hstart, Hend.
        intros [Hk|[Hk|Hk]];
          destruct Hk as [[? ?]|[[? ?]|[[? ?]|[[? _]|[[? _]|Hk]]]]]; try done;
          apply Hothers in Hk; apply Hk; unfold known_keywords;
          rewrite !elem_of_cons; intuition congruence. }
    unfold call_buildPortfolioFromDf. rewrite Hnames, Hstart, Hend, Hdata.
    destruct (kw_others kw) as [|other others].
    + rewrite decide_True by done. by destruct (_buildPortfolioFromDf _ _ _).
    + by rewrite decide_False.
Qed.

Lemma keywords_of_buildPortfolio_witness :
  (∃ msg, @buildPortfolio rounded_numpy substring_regex quandl_example
            pf_information_example
            (mkKwargs (Some (OneName "GOOG")) None None (Some quandl_frame) None [])
          = Raise (ValueError msg))
  ∧ @buildPortfolio rounded_numpy substring_regex quandl_example
      pf_information_example (mkKwargs None (Some (DateStr "2015-01-01")) None None None [])
    = Ok __init__.
Proof.
  split.
  - destruct (@keywords_of_buildPortfolio rounded_numpy substring_regex quandl_example
                pf_information_example
                (mkKwargs (Some (OneName "GOOG")) None None (Some quandl_frame) None []))
      as [Hconflict _].
    apply Hconflict; [done | by left].
  - destruct (@keywords_of_buildPortfolio rounded_numpy substring_regex quandl_example
                pf_information_example
                (mkKwargs None (Some (DateStr "2015-01-01")) None None None []))
      as [_ Hrest].
    destruct Hrest as (Hempty & _).
    + intros k Hk. by apply elem_of_nil in Hk.
    + by apply Hempty.
Defined.
